(** * A shallow embedding of the rrdcached client (package rrd)

    The development follows the Go sources: the client ([Client],
    [NewClient], [initConnection], [setDeadline], [ExecCmd], [Close],
    [scanErr]) and the typed decoder of cmd_info.go ([Info],
    [InfoMap]).

    Go values are modelled as follows.
    - [string] is a byte string ([String.string]); [int] and [int64] are
      [Z] with the 64-bit range checked where the code checks it.
    - [error] is an inductive type with one constructor per dynamic type
      the code can produce or test for.
    - The connection, the scanner, the network and the memory left to
      the process are scripted: every call that talks to the outside
      world takes its result from the state, so a run of the client is
      a pure function of the initial state.
    - A method that mutates the client is a computation in a state
      monad with early return ([Fail], the Go [return nil, err]) and
      run-time panics ([Panic]: a method call on a nil connection, a
      slice that cannot be made).

    The mutex of [Client] serialises callers and has no sequential
    content; elapsed time is not modelled, only whether setting a
    deadline succeeds. *)

From Stdlib Require Import String Ascii List ZArith Lia Bool Arith.
From Stdlib Require Import Floats.SpecFloat.
From Equations Require Import Equations.
Import ListNotations.

Local Open Scope string_scope.
Local Open Scope Z_scope.

(** ** Errors *)

(** The dynamic types of [error].  An error made by [fmt.Errorf] keeps
    its format and its operands ([fmtArg]: a string, or the text of an
    error, that is an error passed to [%v] or [err.Error()] passed to
    [%s]); the texts of the errors of the Go library are not spelled
    out. *)
Inductive error : Type :=
| Errno (code : Z)
    (* syscall.Errno *)
| SyscallError (Syscall : string) (Err : error)
    (* *os.SyscallError *)
| OpError (Op : string) (Err : error)
    (* *net.OpError *)
| ErrorString (s : string)
    (* errors.New(s) *)
| NumError (Func Num : string) (Err : error)
    (* *strconv.NumError *)
| Errorf (format : string) (args : list fmtArg)
    (* fmt.Errorf(format, args...) without %w *)
| ErrorfW (format : string) (args : list fmtArg) (err : error)
    (* fmt.Errorf(format, args..., err) whose last verb is %w *)
| RrdError (Code : Z) (Msg : string)
    (* *rrd.Error *)
| InvalidResponseError (Msg : string) (Line : string)
    (* *rrd.InvalidResponseError *)
with fmtArg : Type :=
| AString (s : string)
| AErrorText (e : error).

(** syscall.EPIPE, syscall.ECONNRESET and syscall.ECONNREFUSED, values
    of the integer type [syscall.Errno] (Linux numbering); as an error,
    such a value [code] is [Errno code]. *)
Definition EPIPE : Z := 32.
Definition ECONNRESET : Z := 104.
Definition ECONNREFUSED : Z := 111.

(** io.ErrUnexpectedEOF *)
Definition io_ErrUnexpectedEOF : error := ErrorString "unexpected EOF".

(** strconv.ErrSyntax and strconv.ErrRange *)
Definition ErrSyntax : error := ErrorString "invalid syntax".
Definition ErrRange : error := ErrorString "value out of range".

(** The method [Unwrap] of the errors that have one. *)
Definition Unwrap (e : error) : option error :=
  match e with
  | SyscallError _ err | OpError _ err | NumError _ _ err
  | ErrorfW _ _ err => Some err
  | _ => None
  end.

(** [errors.Is(err, target)] for a [target] of type [syscall.Errno],
    the only targets the sources test for: some error of the [Unwrap]
    chain of [err] is this [Errno].  (None of the errors of the chain
    has an [Is] method that accepts an [Errno], so the comparison
    [err == target] decides.) *)
Fixpoint errors_Is (err : error) (target : Z) : bool :=
  match err with
  | Errno code => code =? target
  | SyscallError _ e | OpError _ e | NumError _ _ e
  | ErrorfW _ _ e => errors_Is e target
  | _ => false
  end.

(** [errors.As(err, &rrdErr)] for a [*rrd.Error]: the first protocol
    error of the [Unwrap] chain, with its code and message. *)
Fixpoint errors_As_RrdError (err : error) : option (Z * string) :=
  match err with
  | RrdError code msg => Some (code, msg)
  | SyscallError _ e | OpError _ e | NumError _ _ e
  | ErrorfW _ _ e => errors_As_RrdError e
  | _ => None
  end.

(** Modelled from the spec: the file that declares the error types is
    not part of the sources at hand.  [NewError] builds the structured
    protocol error, which carries the numeric code and the message of
    the daemon. *)
Definition NewError (code : Z) (msg : string) : error := RrdError code msg.

(** Modelled from the spec: the file that declares the error types is
    not part of the sources at hand.  [NewInvalidResponseError] builds
    the invalid-response error, which carries a diagnostic and the
    offending line. *)
Definition NewInvalidResponseError (msg line : string) : error :=
  InvalidResponseError msg line.

(** ** Formatting *)

(** [fmt.Sprintf] restricted to what the sources use: the verbs [%v] and
    [%s] applied to string operands, which both print the operand as it
    is.  A verb without operand prints as Go prints it; other verbs do
    not occur in the sources and are left in place. *)
Fixpoint Sprintf (format : string) (args : list string) : string :=
  match format with
  | EmptyString => EmptyString
  | String c rest =>
      if Ascii.eqb c "%" then
        match rest with
        | EmptyString => "%!(NOVERB)"
        | String v rest' =>
            if (Ascii.eqb v "v" || Ascii.eqb v "s")%bool then
              match args with
              | a :: args' => a ++ Sprintf rest' args'
              | [] => "%!" ++ String v "(MISSING)" ++ Sprintf rest' []
              end
            else String c (Sprintf rest args)
        end
      else String c (Sprintf rest args)
  end.

(** ** Strings *)

Definition newline : ascii := "010"%char.
Definition carriageReturn : ascii := "013"%char.

(** The string of one line feed. *)
Definition LF : string := String newline EmptyString.

(** [prefix n s]: the first [n] bytes of [s] (all of [s] when shorter). *)
Fixpoint prefix (n : nat) (s : string) : string :=
  match n, s with
  | S n', String c s' => String c (prefix n' s')
  | _, _ => EmptyString
  end.

(** [skip n s]: [s] without its first [n] bytes. *)
Fixpoint skip (n : nat) (s : string) : string :=
  match n, s with
  | S n', String _ s' => skip n' s'
  | _, _ => s
  end.

(** [span p s]: the longest prefix of [s] whose bytes satisfy [p], and
    what follows it. *)
Fixpoint span (p : ascii -> bool) (s : string) : string * string :=
  match s with
  | EmptyString => (EmptyString, EmptyString)
  | String c s' =>
      if p c then let (a, b) := span p s' in (String c a, b)
      else (EmptyString, s)
  end.

(** [allb p s]: every byte of [s] satisfies [p]. *)
Fixpoint allb (p : ascii -> bool) (s : string) : bool :=
  match s with
  | EmptyString => true
  | String c s' => p c && allb p s'
  end.

(** ** Regular expressions (package regexp)

    The syntax tree has the operators [respRe] uses.  Matching is
    backtracking with Go's leftmost-first preference: a repetition
    first tries one more iteration, an option first tries its operand.
    The input is read byte by byte; for the classes used here, [\d],
    [\s] and [.], reading UTF-8 sequences instead gives the same
    spans. *)
Inductive regex : Type :=
| Class (p : ascii -> bool)        (* one byte of a class *)
| Concat (r1 r2 : regex)           (* r1 r2 *)
| Quest (r : regex)                (* r? *)
| Star (r : regex)                 (* r* *)
| Capture (n : nat) (r : regex)    (* ( r ), the n-th group *)
| BeginText                        (* ^ *)
| EndText.                         (* $ without the m flag *)

(** r+ *)
Definition Plus (r : regex) : regex := Concat r (Star r).

(** A literal byte, [\d], [\s] and [.] (without the s flag). *)
Definition Lit (c : ascii) : regex := Class (Ascii.eqb c).

Definition isDigit (c : ascii) : bool :=
  ((48 <=? nat_of_ascii c) && (nat_of_ascii c <=? 57))%nat.

Definition isSpace (c : ascii) : bool :=
  let n := nat_of_ascii c in
  ((n =? 9) || (n =? 10) || (n =? 12) || (n =? 13) || (n =? 32))%nat.

Definition notNewline (c : ascii) : bool := negb (Ascii.eqb c newline).

Definition captures : Type := list (nat * string).

Fixpoint capture (caps : captures) (n : nat) : string :=
  match caps with
  | [] => EmptyString
  | (m, s) :: caps' => if (m =? n)%nat then s else capture caps' n
  end.

(** [run r pos s caps k]: match [r] at offset [pos], where [s] is the
    input from [pos] on, then continue with [k]; [None] asks the caller
    to backtrack. *)
Fixpoint run (r : regex) (pos : nat) (s : string) (caps : captures)
    (k : nat -> string -> captures -> option captures) : option captures :=
  match r with
  | Class p =>
      match s with
      | String c s' => if p c then k (S pos) s' caps else None
      | EmptyString => None
      end
  | Concat r1 r2 =>
      run r1 pos s caps (fun pos' s' caps' => run r2 pos' s' caps' k)
  | Quest r1 =>
      match run r1 pos s caps k with
      | Some res => Some res
      | None => k pos s caps
      end
  | Star r1 =>
      (fix iterate (fuel : nat) (pos : nat) (s : string) (caps : captures)
         : option captures :=
         match fuel with
         | O => k pos s caps
         | S fuel' =>
             match run r1 pos s caps
                     (fun pos' s' caps' =>
                        if (String.length s' <? String.length s)%nat
                        then iterate fuel' pos' s' caps'
                        else None) with
             | Some res => Some res
             | None => k pos s caps
             end
         end) (String.length s) pos s caps
  | Capture n r1 =>
      run r1 pos s caps
        (fun pos' s' caps' => k pos' s' ((n, prefix (pos' - pos) s) :: caps'))
  | BeginText => if (pos =? 0)%nat then k pos s caps else None
  | EndText =>
      match s with
      | EmptyString => k pos s caps
      | String _ _ => None
      end
  end.

(** The number of capturing groups. *)
Fixpoint NumSubexp (r : regex) : nat :=
  match r with
  | Concat r1 r2 => NumSubexp r1 + NumSubexp r2
  | Quest r1 | Star r1 => NumSubexp r1
  | Capture _ r1 => S (NumSubexp r1)
  | _ => 0
  end.

(** The leftmost match: try every start offset in turn. *)
Fixpoint search (r : regex) (pos : nat) (s : string) : option captures :=
  match run (Capture 0 r) pos s [] (fun _ _ caps => Some caps) with
  | Some caps => Some caps
  | None =>
      match s with
      | EmptyString => None
      | String _ s' => search r (S pos) s'
      end
  end.

(** [re.FindStringSubmatch(s)]: nil without a match, otherwise the text
    of the match followed by the text of each group. *)
Definition FindStringSubmatch (re : regex) (s : string) : list string :=
  match search re 0 s with
  | None => []
  | Some caps => map (capture caps) (seq 0 (S (NumSubexp re)))
  end.

(** [respRe], compiled from the pattern  ^ ( -? \d+ ) \s+ ( . * ) $  *)
Definition respRe : regex :=
  Concat BeginText
    (Concat (Capture 1 (Concat (Quest (Lit "-")) (Plus (Class isDigit))))
       (Concat (Plus (Class isSpace))
          (Concat (Capture 2 (Star (Class notNewline))) EndText))).


(** What [respRe] accepts, read off the pattern: an optional minus sign,
    the longest run of digits, the longest run of white space, both
    non-empty, and a remainder without line feed.  [respRe_splitHeader]
    below shows that the matcher computes exactly this. *)
Definition splitHeader (l : string) : option (string * string) :=
  let (sign, s1) :=
    match l with
    | String c s' => if Ascii.eqb "-" c then ("-", s') else (EmptyString, l)
    | EmptyString => (EmptyString, l)
    end in
  let (ds, s2) := span isDigit s1 in
  let (ws, rest) := span isSpace s2 in
  match ds, ws with
  | String _ _, String _ _ =>
      if allb notNewline rest then Some (sign ++ ds, rest) else None
  | _, _ => None
  end.


(** ** Numbers (package strconv) *)

Definition maxUint64 : Z := 2 ^ 64 - 1.

Definition digitValue (c : ascii) : Z := Z.of_nat (nat_of_ascii c) - 48.

(** The loop of [strconv.ParseUint(s, 10, 64)]: the bytes are read from
    left to right; the first byte that is no digit is a syntax error, the
    first overflow a range error. *)
Fixpoint parseUintLoop (s : string) (n : Z) : Z + error :=
  match s with
  | EmptyString => inl n
  | String c s' =>
      if isDigit c then
        if n >=? maxUint64 / 10 + 1 then inr ErrRange
        else
          let n1 := n * 10 + digitValue c in
          if n1 >? maxUint64 then inr ErrRange else parseUintLoop s' n1
      else inr ErrSyntax
  end.

Definition ParseUint (s : string) : Z + error :=
  match s with
  | EmptyString => inr ErrSyntax
  | _ => parseUintLoop s 0
  end.

(** [strconv.ParseInt(s, 10, 64)], reporting its errors under the
    function name [fn]: an optional sign, then [ParseUint], then the
    range check of a signed 64-bit integer. *)
Definition parseInt64 (fn : string) (s : string) : Z + error :=
  match s with
  | EmptyString => inr (NumError fn s ErrSyntax)
  | String c s' =>
      let neg := Ascii.eqb c "-" in
      let body := if (Ascii.eqb c "+" || neg)%bool then s' else s in
      match ParseUint body with
      | inr err => inr (NumError fn s err)
      | inl un =>
          let cutoff := 2 ^ 63 in
          if (negb neg && (un >=? cutoff))%bool then
            inr (NumError fn s ErrRange)
          else if (neg && (un >? cutoff))%bool then
            inr (NumError fn s ErrRange)
          else inl (if neg then - un else un)
      end
  end.

(** [strconv.ParseInt(s, 10, 64)] *)
Definition ParseInt (s : string) : Z + error := parseInt64 "ParseInt" s.

(** [strconv.Atoi(s)], where [int] has 64 bits: [ParseInt(s, 10, 0)]
    with the function name replaced. *)
Definition Atoi (s : string) : Z + error := parseInt64 "Atoi" s.

(** IEEE 754 binary64, the values of [float64]. *)
Definition float64 : Type := spec_float.

(** ** Package strings *)

(** [cut sep s]: [s] before and after the first byte [sep]. *)
Fixpoint cut (sep : ascii) (s : string) : option (string * string) :=
  match s with
  | EmptyString => None
  | String c s' =>
      if Ascii.eqb c sep then Some (EmptyString, s')
      else match cut sep s' with
           | Some (a, b) => Some (String c a, b)
           | None => None
           end
  end.

(** [strings.SplitN(s, sep, n)] for a separator of one byte: at most
    [n] substrings, the last one being the unsplit remainder. *)
Fixpoint SplitN (s : string) (sep : ascii) (n : nat) : list string :=
  match n with
  | O => []
  | S O => [s]
  | S n' =>
      match cut sep s with
      | Some (a, b) => a :: SplitN b sep n'
      | None => [s]
      end
  end.

(** The white space of [strings.TrimSpace] among single bytes. *)
Definition isTrimSpace (c : ascii) : bool :=
  let n := nat_of_ascii c in
  ((n =? 9) || (n =? 10) || (n =? 11) || (n =? 12) || (n =? 13)
   || (n =? 32))%nat.

(** [s] without the white space at its end. *)
Fixpoint trimRight (s : string) : string :=
  match s with
  | EmptyString => EmptyString
  | String c s' =>
      match trimRight s' with
      | EmptyString => if isTrimSpace c then EmptyString
                       else String c EmptyString
      | t => String c t
      end
  end.

(** [strings.TrimSpace(s)] *)
Definition TrimSpace (s : string) : string :=
  trimRight (snd (span isTrimSpace s)).

(** [strings.Join(elems, sep)] *)
Fixpoint Join (elems : list string) (sep : string) : string :=
  match elems with
  | [] => EmptyString
  | [a] => a
  | a :: rest => a ++ sep ++ Join rest sep
  end.

(** ** Commands *)

(** Modelled from the spec: the file that declares [Cmd] is not part of
    the sources at hand.  A command is a verb and the ordered sequence
    of its arguments. *)
Record Cmd : Type := mkCmd { cmd : string; args : list string }.

(** Modelled from the spec: [NewCmd] is declared with [Cmd].  A new
    command has the verb and no argument. *)
Definition NewCmd (verb : string) : Cmd := mkCmd verb [].

(** Modelled from the spec: [WithArgs] is declared with [Cmd].  The
    arguments are appended in call order. *)
Definition WithArgs (c : Cmd) (more : list string) : Cmd :=
  mkCmd (cmd c) (args c ++ more).

(** Modelled from the spec: [String] is declared with [Cmd].  The wire
    line of a command is the verb, a single space, the arguments joined
    by single spaces, and a line feed. *)
Definition Cmd_String (c : Cmd) : string :=
  cmd c ++ " " ++ Join (args c) " " ++ LF.

(** ** The connection, the scanner, the network *)

(** The calls a connection has received. *)
Inductive ConnCall : Type :=
| CallSetDeadline
| CallWrite (data : string)
| CallClose.

(** A [net.Conn] with its behaviour scripted: the results of the
    successive [SetDeadline] and [Write] calls (a call past the end of a
    script succeeds), the result of [Close], and the bytes the peer
    sends until the read that fails with [inboundErr] ([None] is
    [io.EOF], the peer closing).  [calls] records every call, oldest
    first. *)
Record Conn : Type := mkConn {
  deadlines : list (option error);
  writes : list (option error);
  closeErr : option error;
  inbound : string;
  inboundErr : option error;
  calls : list ConnCall
}.

(** The byte strings handed to [Write], oldest first. *)
Fixpoint written (cs : list ConnCall) : list string :=
  match cs with
  | [] => []
  | CallWrite data :: cs' => data :: written cs'
  | _ :: cs' => written cs'
  end.

(** [bufio.MaxScanTokenSize], the size the buffer of a scanner grows
    to, and [bufio.ErrTooLong]. *)
Definition MaxScanTokenSize : Z := 64 * 1024.
Definition ErrTooLong : error := ErrorString "bufio.Scanner: token too long".

(** A [bufio.Scanner] splitting with [bufio.ScanLines]: [rd] are the
    bytes not yet scanned and [rdErr] the error of the read that
    follows them ([None] is [io.EOF]); [token] is the result of [Text],
    [serr] of [Err]. *)
Record Scanner : Type := mkScanner {
  rd : string;
  rdErr : option error;
  token : string;
  serr : option error;
  done : bool
}.

(** [bufio.NewScanner(bufio.NewReader(conn))] *)
Definition NewScanner (cn : Conn) : Scanner :=
  mkScanner (inbound cn) (inboundErr cn) EmptyString None false.

(** [dropCR]: a line without its trailing carriage return. *)
Fixpoint dropCR (s : string) : string :=
  match s with
  | EmptyString => EmptyString
  | String c EmptyString =>
      if Ascii.eqb c carriageReturn then EmptyString else s
  | String c s' => String c (dropCR s')
  end.

(** The bytes of the line to scan next: what precedes the next line
    feed, or all that is left. *)
Definition nextLine (s : string) : string :=
  match cut newline s with
  | Some (line, _) => line
  | None => s
  end.

(** A line the buffer of the scanner can hold together with its line
    feed: fewer than [MaxScanTokenSize] bytes. *)
Definition fits (line : string) : bool :=
  Z.of_nat (String.length line) <? MaxScanTokenSize.

(** [Scan]: the next line, without its line feed; at the end of the
    input a last line without line feed is still a token, and the call
    after it reports the end, leaving the read error for [Err].

    A line that does not fit fills the buffer before its line feed is
    seen: [Scan] stops with [ErrTooLong], keeping the bytes it holds.
    From then on the scanner reads no more, as after a failed read: a
    later [Scan] gives these bytes as a last token, and the calls after
    it report the end. *)
Definition Scanner_Scan (s : Scanner) : bool * Scanner :=
  if done s then (false, s)
  else if match serr s with None => negb (fits (nextLine (rd s))) | Some _ => false end
  then
    (false,
     mkScanner (prefix (Z.to_nat MaxScanTokenSize) (rd s)) (Some ErrTooLong)
       EmptyString (Some ErrTooLong) false)
  else
    match cut newline (rd s) with
    | Some (line, rest) =>
        (true, mkScanner rest (rdErr s) (dropCR line) (serr s) false)
    | None =>
        match rd s with
        | EmptyString =>
            (false, mkScanner EmptyString (rdErr s) EmptyString (rdErr s) true)
        | _ =>
            (true, mkScanner EmptyString (rdErr s) (dropCR (rd s)) (serr s)
                     false)
        end
    end.

(** The outcome of [net.DialTimeout]. *)
Inductive DialResult : Type :=
| DialError (e : error)
| Dialed (cn : Conn).

(** The world outside the client: the outcomes of the successive dials
    (a dial past the end of the script is refused), what was printed on
    standard output, oldest first, and the memory left to the process,
    counted as the largest number of strings a new slice can hold. *)
Record World : Type := mkWorld {
  dials : list DialResult;
  stdout : list (string * list fmtArg);
  room : Z
}.

(** [type Client struct]; [conn] is [None] for the nil interface. *)
Record Client : Type := mkClient {
  conn : option Conn;
  addr : string;
  network : string;
  timeout : Z;
  scanner : Scanner
}.

Definition set_conn (c : Client) (cn : option Conn) : Client :=
  mkClient cn (addr c) (network c) (timeout c) (scanner c).

Definition set_scanner (c : Client) (s : Scanner) : Client :=
  mkClient (conn c) (addr c) (network c) (timeout c) s.

(** ** The monad of methods *)

Record St : Type := mkSt { client : Client; world : World }.

Inductive Outcome (A : Type) : Type :=
| Val (a : A)        (* normal return *)
| Fail (e : error)   (* return of a non-nil error *)
| Panic.             (* run-time panic, or fatal error of the run time *)
Arguments Val {A} a.
Arguments Fail {A} e.
Arguments Panic {A}.

Definition M (A : Type) : Type := St -> Outcome A * St.

Definition ret {A} (a : A) : M A := fun st => (Val a, st).

Definition bind {A B} (m : M A) (f : A -> M B) : M B :=
  fun st =>
    match m st with
    | (Val a, st') => f a st'
    | (Fail e, st') => (Fail e, st')
    | (Panic, st') => (Panic, st')
    end.

Definition throw {A} (e : error) : M A := fun st => (Fail e, st).

(** [err := m()]: the error of [m] as a value. *)
Definition catch (m : M unit) : M (option error) :=
  fun st =>
    match m st with
    | (Val _, st') => (Val None, st')
    | (Fail e, st') => (Val (Some e), st')
    | (Panic, st') => (Panic, st')
    end.

Declare Scope go_scope.
Delimit Scope go_scope with go.
Notation "x <- m ;; k" := (bind m (fun x => k))
  (at level 100, m at next level, right associativity) : go_scope.
Notation "m ;; k" := (bind m (fun _ => k))
  (at level 100, right associativity) : go_scope.
Local Open Scope go_scope.

(** [fmt.Printf(format, args...)] *)
Definition Printf (format : string) (args : list fmtArg) : M unit :=
  fun st =>
    (Val tt,
     mkSt (client st)
       (mkWorld (dials (world st)) (stdout (world st) ++ [(format, args)])
          (room (world st)))).

(** A call on [c.conn]: it panics on the nil interface. *)
Definition onConn {A} (f : Conn -> Outcome A * Conn) : M A :=
  fun st =>
    match conn (client st) with
    | None => (Panic, st)
    | Some cn =>
        let (r, cn') := f cn in
        (r, mkSt (set_conn (client st) (Some cn')) (world st))
    end.

Definition result (r : option error) : Outcome unit :=
  match r with
  | None => Val tt
  | Some e => Fail e
  end.

(** A connection after one more call: the script moves on and the call
    is recorded. *)
Definition afterWrite (cn : Conn) (data : string) : Conn :=
  mkConn (deadlines cn) (tl (writes cn)) (closeErr cn) (inbound cn)
    (inboundErr cn) (calls cn ++ [CallWrite data]).

Definition afterSetDeadline (cn : Conn) : Conn :=
  mkConn (tl (deadlines cn)) (writes cn) (closeErr cn) (inbound cn)
    (inboundErr cn) (calls cn ++ [CallSetDeadline]).

(** [Close] is recorded like the other calls.  What a closed connection
    answers to the calls that follow is left to its scripts. *)
Definition afterClose (cn : Conn) : Conn :=
  mkConn (deadlines cn) (writes cn) (closeErr cn) (inbound cn)
    (inboundErr cn) (calls cn ++ [CallClose]).

(** [conn.SetDeadline(t)] *)
Definition Conn_SetDeadline : M unit :=
  onConn (fun cn => (result (hd None (deadlines cn)), afterSetDeadline cn)).

(** [conn.Write(data)] *)
Definition Conn_Write (data : string) : M unit :=
  onConn (fun cn => (result (hd None (writes cn)), afterWrite cn data)).

(** [conn.Close()] *)
Definition Conn_Close : M unit :=
  onConn (fun cn => (result (closeErr cn), afterClose cn)).

(** [c.scanner.Scan()] *)
Definition Scan : M bool :=
  fun st =>
    let (ok, s) := Scanner_Scan (scanner (client st)) in
    (Val ok, mkSt (set_scanner (client st) s) (world st)).

(** [c.scanner.Text()] *)
Definition Text : M string :=
  fun st => (Val (token (scanner (client st))), st).

(** [c.scanner.Err()] *)
Definition Err : M (option error) :=
  fun st => (Val (serr (scanner (client st))), st).

(** The outcome of the next dial and the script after it. *)
Definition nextDial (w : World) : DialResult * list DialResult :=
  match dials w with
  | [] => (DialError (Errno ECONNREFUSED), [])
  | d :: rest => (d, rest)
  end.

(** [net.DialTimeout(c.network, c.addr, c.timeout)] *)
Definition DialTimeout : M DialResult :=
  fun st =>
    let (d, rest) := nextDial (world st) in
    (Val d, mkSt (client st) (mkWorld rest (stdout (world st)) (room (world st)))).

(** ** The client *)

(** [func (c *Client) initConnection() error]: the assignment to
    [c.conn] happens before the test, so a failed dial leaves the nil
    interface in the client. *)
Definition initConnection : M unit :=
  d <- DialTimeout ;;
  match d with
  | DialError err =>
      (fun st => (Val tt, mkSt (set_conn (client st) None) (world st))) ;;
      throw (ErrorfW "failed to dial: %w" [] err)
  | Dialed cn =>
      (fun st =>
         (Val tt,
          mkSt (set_scanner (set_conn (client st) (Some cn)) (NewScanner cn))
            (world st)))
  end.

(** [func (c *Client) setDeadline() error] *)
Definition setDeadline : M unit := Conn_SetDeadline.

(** [func (c *Client) scanErr() error] *)
Definition scanErr : M error :=
  err <- Err ;;
  match err with
  | Some e => ret e
  | None => ret io_ErrUnexpectedEOF
  end.

(** [errors.Is(err, syscall.EPIPE) || errors.Is(err, syscall.ECONNRESET)] *)
Definition isReset (err : error) : bool :=
  errors_Is err EPIPE || errors_Is err ECONNRESET.

(** The format of the notice printed before a reconnection. *)
Definition reconnectNotice : string :=
  "write to connection caused [%v]; trying to reestablish connection..."
    ++ LF.

(** One turn of the write loop of [ExecCmd]: [true] asks for another
    turn (the [continue]), [false] leaves the loop (the [break]). *)
Definition writeAttempt (data : string) : M bool :=
  werr <- catch (Conn_Write data) ;;
  match werr with
  | None => ret false
  | Some err =>
      if isReset err then
        Printf reconnectNotice [AErrorText err] ;;
        err2 <- catch initConnection ;;
        match err2 with
        | Some e2 =>
            throw (ErrorfW "failed to write (%s) and failed to reestablish: %w"
                     [AErrorText err] e2)
        | None => ret true
        end
      else throw (ErrorfW "failed to write: %w" [] err)
  end.

(** [inspect a]: [a] together with the equation that names it, so
    that the termination proof below sees which turn was taken. *)
Definition inspect {A} (a : A) : {b : A | a = b} := exist _ a eq_refl.

(** The write loop of [ExecCmd].  The loop itself has no bound; here it
    ends because a turn that asks for another one has consumed a dial of
    the script, which is finite. *)
Equations? writeLoop (data : string) (st : St) : Outcome unit * St
  by wf (List.length (dials (world st))) lt :=
  writeLoop data st with inspect (writeAttempt data st) := {
    | exist _ (Val true, st') Heq => writeLoop data st'
    | exist _ (Val false, st') _ => (Val tt, st')
    | exist _ (Fail e, st') _ => (Fail e, st')
    | exist _ (Panic, st') _ => (Panic, st') }.
Proof.
  revert Heq.
  unfold writeAttempt, bind, catch, Conn_Write, onConn, Printf, initConnection,
    DialTimeout, nextDial, throw, ret.
  destruct (conn (client st)) as [cn|]; [|discriminate].
  cbn. destruct (hd None (writes cn)) as [err|]; cbn; [|discriminate].
  destruct (isReset err); [|discriminate].
  cbn. destruct (dials (world st)) as [|[e|cn'] ds]; cbn; try discriminate.
  intros [= <-]. cbn. lia.
Qed.

(** The loop that collects the content lines of a reply,
    [for len(lines) < cnt && c.scanner.Scan()], with [n] the number of
    lines still expected, [cnt - len(lines)]. *)
Fixpoint collectLines (n : nat) (lines : list string) : M (list string) :=
  match n with
  | O => ret lines
  | S n' =>
      ok <- Scan ;;
      if ok then
        l <- Text ;;
        setDeadline ;;
        collectLines n' (lines ++ [l])
      else ret lines
  end.

(** [ExecCmd] from the write loop to the refresh of the deadline that
    precedes the first read. *)
Definition writeCmd (c : Cmd) : M unit :=
  writeLoop (Cmd_String c) ;;
  Printf ("rrdcached command: [%s]" ++ LF)
    [AString (TrimSpace (Cmd_String c))] ;;
  setDeadline.

(** [ExecCmd] up to the first read: the command is on the wire and the
    read deadline is set. *)
Definition sendCmd (c : Cmd) : M unit :=
  setDeadline ;;
  writeCmd c.

(** The largest capacity [make([]string, 0, n)] accepts: the run time
    refuses an allocation above [maxAlloc], 2^48 bytes, and a string
    takes 16 bytes (64-bit platforms). *)
Definition maxSliceCap : Z := 2 ^ 48 / 16.

(** [make([]string, 0, n)]: a capacity above [maxSliceCap] is the panic
    "makeslice: cap out of range"; a capacity the memory of the process
    has no room for is the fatal error "out of memory" of the run time,
    which the model does not tell from a panic. *)
Definition makeLines (n : Z) : M unit :=
  fun st =>
    if ((n >? maxSliceCap) || (n >? room (world st)))%bool then (Panic, st)
    else (Val tt, st).

(** [ExecCmd] from the status line [l] on: the count decides between
    the protocol error, the single message and the content lines. *)
Definition decodeStatus (l : string) : M (list string) :=
  let matches := FindStringSubmatch respRe l in
  if negb (List.length matches =? 3)%nat then
    throw (Errorf "not 3 matches: '%s'" [AString l])
  else
    match Atoi (nth 1 matches EmptyString) with
    | inr err =>
        throw (ErrorfW "failed to convert to int '%s': %w"
                 [AString (nth 1 matches EmptyString)] err)
    | inl cnt =>
        if cnt <? 0 then throw (NewError cnt (nth 2 matches EmptyString))
        else if cnt =? 0 then ret [nth 2 matches EmptyString]
        else
          setDeadline ;;
          makeLines cnt ;;
          lines <- collectLines (Z.to_nat cnt) [] ;;
          if negb (Z.of_nat (List.length lines) =? cnt) then
            e <- scanErr ;;
            throw e
          else ret lines
    end.

(** [ExecCmd] from the first [Scan] on: the reply decoder. *)
Definition readReply : M (list string) :=
  ok <- Scan ;;
  if negb ok then
    e <- scanErr ;;
    throw (ErrorfW "scan error: %w" [] e)
  else
    l <- Text ;;
    decodeStatus l.

(** [func (c *Client) ExecCmd(cmd *Cmd) ([]string, error)] *)
Definition ExecCmd (c : Cmd) : M (list string) :=
  sendCmd c ;;
  readReply.

(** [func (c *Client) Exec(cmd string) ([]string, error)] *)
Definition Exec (verb : string) : M (list string) := ExecCmd (NewCmd verb).

(** [func (c *Client) Close() error] *)
Definition Close : M unit :=
  errD <- catch setDeadline ;;
  errW <- catch (Conn_Write "quit") ;;
  err <- catch Conn_Close ;;
  match err, errD with
  | Some e, _ => throw e
  | None, Some e => throw e
  | None, None => fun st => (result errW, st)
  end.

(** ** The info reply (cmd_info.go) *)

(** [if err != nil { return nil, wrap(err) }] around a call. *)
Definition wrapError {A} (wrap : error -> error) (m : M A) : M A :=
  fun st =>
    match m st with
    | (Fail err, st') => (Fail (wrap err), st')
    | other => other
    end.


(** The dynamic types stored in [Info.Value]. *)
Inductive InfoValue : Type :=
| VString (s : string)
| VInt (v : Z)
| VFloat (v : float64).

(** [type Info struct] *)
Record InfoEntry : Type := mkInfo { Key : string; Value : InfoValue }.

Section InfoDecoder.

(** [strconv.ParseFloat(s, 64)]: the conversion of the Go library is
    a parameter of the decoder. *)
Variable ParseFloat : string -> float64 + error.

(** The body of the loop of [Info]: one line of the reply. *)
Definition decodeLine (line : string) : InfoEntry + error :=
  let parts := SplitN line " " 3 in
  if negb (List.length parts =? 3)%nat then
    inr (Errorf "unexpected response: not 3 parts '%s'" [AString line])
  else
    let key := nth 0 parts EmptyString in
    let tag := nth 1 parts EmptyString in
    let raw := nth 2 parts EmptyString in
    if String.eqb tag "2" then inl (mkInfo key (VString raw))
    else if String.eqb tag "1" then
      match ParseInt raw with
      | inr _ =>
          inr (NewInvalidResponseError
                 (Sprintf "info: invalid int for key %v" [key]) line)
      | inl v => inl (mkInfo key (VInt v))
      end
    else if String.eqb tag "0" then
      match ParseFloat raw with
      | inr _ =>
          inr (NewInvalidResponseError
                 (Sprintf "info: invalid float for key %v" [key]) line)
      | inl v => inl (mkInfo key (VFloat v))
      end
    else
      inr (NewInvalidResponseError
             (Sprintf "info: unknown type %v for key %v" [tag; key]) line).

(** The loop of [Info]: the first line that fails ends it. *)
Fixpoint decodeLines (lines : list string) : list InfoEntry + error :=
  match lines with
  | [] => inl []
  | line :: rest =>
      match decodeLine line with
      | inr e => inr e
      | inl info =>
          match decodeLines rest with
          | inr e => inr e
          | inl data => inl (info :: data)
          end
      end
  end.

(** [func (c *Client) Info(filename string) ([]*Info, error)] *)
Definition Info (filename : string) : M (list InfoEntry) :=
  lines <- wrapError
             (ErrorfW "failed to get info for '%s': %w" [AString filename])
             (ExecCmd (WithArgs (NewCmd "info") [filename])) ;;
  match decodeLines lines with
  | inr e => throw e
  | inl data => ret data
  end.

End InfoDecoder.

(** ** [strconv.ParseFloat(s, 64)]

    The function of the Go library, as atof.go defines it: the special
    values, then a decimal or a hexadecimal mantissa with an optional
    exponent, digits possibly separated by underscores.  The library
    keeps the first digits of the mantissa and a flag for the others,
    and its conversions return the float nearest to the number written,
    ties to even; the model keeps every digit and rounds the exact
    value once.  (The library stores at most 800 digits of a
    decimal mantissa; the model agrees with it on the numbers whose
    digits past the 800th, if any, stand after the point.) *)

(** [c | ('x' - 'X')], the [lower] of the library. *)
Definition lower (c : ascii) : ascii :=
  match c with
  | Ascii b0 b1 b2 b3 b4 _ b6 b7 => Ascii b0 b1 b2 b3 b4 true b6 b7
  end.

(** The letters A to Z in lower case, the other bytes as they are. *)
Definition foldCase (c : ascii) : ascii :=
  let n := nat_of_ascii c in
  if ((65 <=? n) && (n <=? 90))%nat then ascii_of_nat (n + 32) else c.

Fixpoint foldString (s : string) : string :=
  match s with
  | EmptyString => EmptyString
  | String c s' => String (foldCase c) (foldString s')
  end.

Definition isInfinity (s : string) : bool :=
  (String.eqb (foldString s) "inf" || String.eqb (foldString s) "infinity")%bool.

(** [special], for a string that has to be consumed whole: "inf" and
    "infinity" with an optional sign, "nan" without sign, in any
    case. *)
Definition special (s : string) : option float64 :=
  match s with
  | EmptyString => None
  | String c s' =>
      if (Ascii.eqb c "+" || Ascii.eqb c "-")%bool then
        if isInfinity s' then Some (S754_infinity (Ascii.eqb c "-")) else None
      else if isInfinity s then Some (S754_infinity false)
      else if String.eqb (foldString s) "nan" then Some S754_nan
      else None
  end.

Definition isHexLetter (c : ascii) : bool :=
  let n := nat_of_ascii (lower c) in ((97 <=? n) && (n <=? 102))%nat.

Definition hexLetterValue (c : ascii) : Z :=
  Z.of_nat (nat_of_ascii (lower c)) - 97 + 10.

(** What the loop over the mantissa has seen: the digits after the
    leading zeros, as an integer in the base and by their number [nd];
    the position [dp] of the point; the flags of [readFloat]. *)
Record floatDigits : Type := mkDigits {
  fdValue : Z;
  nd : Z;
  dp : Z;
  sawdot : bool;
  sawdigits : bool;
  underscores : bool
}.

(** The loop of [readFloat] over the mantissa, in base 16 when [hex];
    it returns what follows the mantissa. *)
Fixpoint readMantissa (hex : bool) (s : string) (a : floatDigits)
  : floatDigits * string :=
  match s with
  | EmptyString => (a, s)
  | String c s' =>
      if Ascii.eqb c "_" then
        readMantissa hex s'
          (mkDigits (fdValue a) (nd a) (dp a) (sawdot a) (sawdigits a) true)
      else if Ascii.eqb c "." then
        if sawdot a then (a, s)
        else
          readMantissa hex s'
            (mkDigits (fdValue a) (nd a) (nd a) true (sawdigits a)
               (underscores a))
      else if isDigit c then
        if (Ascii.eqb c "0" && (nd a =? 0))%bool then
          readMantissa hex s'
            (mkDigits (fdValue a) (nd a) (dp a - 1) (sawdot a) true
               (underscores a))
        else
          readMantissa hex s'
            (mkDigits (fdValue a * (if hex then 16 else 10) + digitValue c)
               (nd a + 1) (dp a) (sawdot a) true (underscores a))
      else if (hex && isHexLetter c)%bool then
        readMantissa hex s'
          (mkDigits (fdValue a * 16 + hexLetterValue c)
             (nd a + 1) (dp a) (sawdot a) true (underscores a))
      else (a, s)
  end.

(** The loop of [readFloat] over the digits of the exponent: the value,
    which stops growing at 10000, whether an underscore was seen, and
    what follows. *)
Fixpoint readExponent (s : string) (e : Z) (us : bool) : Z * bool * string :=
  match s with
  | EmptyString => (e, us, s)
  | String c s' =>
      if Ascii.eqb c "_" then readExponent s' e true
      else if isDigit c then
        readExponent s' (if e <? 10000 then e * 10 + digitValue c else e) us
      else (e, us, s)
  end.

(** [underscoreOK]: an underscore stands between two digits, or
    between a base prefix and a digit. *)
Inductive seen : Type := SeenStart | SeenDigit | SeenUnderscore | SeenOther.

Fixpoint underscoreLoop (hex : bool) (s : string) (saw : seen) : bool :=
  match s with
  | EmptyString =>
      match saw with
      | SeenUnderscore => false
      | _ => true
      end
  | String c s' =>
      if (isDigit c || (hex && isHexLetter c))%bool then
        underscoreLoop hex s' SeenDigit
      else if Ascii.eqb c "_" then
        match saw with
        | SeenDigit => underscoreLoop hex s' SeenUnderscore
        | _ => false
        end
      else
        match saw with
        | SeenUnderscore => false
        | _ => underscoreLoop hex s' SeenOther
        end
  end.

Definition underscoreOK (s : string) : bool :=
  let s1 :=
    match s with
    | String c s' =>
        if (Ascii.eqb c "-" || Ascii.eqb c "+")%bool then s' else s
    | EmptyString => s
    end in
  match s1 with
  | String c0 (String c1 s2) =>
      if (Ascii.eqb c0 "0"
          && (Ascii.eqb (lower c1) "b" || Ascii.eqb (lower c1) "o"
              || Ascii.eqb (lower c1) "x"))%bool
      then underscoreLoop (Ascii.eqb (lower c1) "x") s2 SeenDigit
      else underscoreLoop false s1 SeenStart
  | _ => underscoreLoop false s1 SeenStart
  end.

(** A number read by [readFloat]: its sign, its base, the integer [m]
    of its digits and the exponent [k]; it stands for [m * 10^k], and
    for [m * 2^k] in base 16. *)
Record floatText : Type := mkFloatText {
  ftNeg : bool;
  ftHex : bool;
  ftDigits : Z;
  ftCount : Z;
  ftExp : Z
}.

(** [readFloat] on a string that has to be consumed whole: [None] when
    the library reports a syntax error. *)
Definition readFloat (s : string) : option floatText :=
  let (neg, s1) :=
    match s with
    | String c s' =>
        if Ascii.eqb c "+" then (false, s')
        else if Ascii.eqb c "-" then (true, s')
        else (false, s)
    | EmptyString => (false, s)
    end in
  let (hex, s2) :=
    match s1 with
    | String c0 (String c1 (String c2 s')) =>
        if (Ascii.eqb c0 "0" && Ascii.eqb (lower c1) "x")%bool
        then (true, String c2 s')
        else (false, s1)
    | _ => (false, s1)
    end in
  let (a, s3) := readMantissa hex s2 (mkDigits 0 0 0 false false false) in
  if negb (sawdigits a) then None
  else
    let point := if sawdot a then dp a else nd a in
    let scale := if hex then 4 else 1 in
    let finish (point' : Z) (us : bool) (rest : string) : option floatText :=
      if (us && negb (underscoreOK s))%bool then None
      else
        match rest with
        | EmptyString =>
            Some (mkFloatText neg hex (fdValue a) (nd a)
                    (point' - scale * nd a))
        | String _ _ => None
        end in
    let noExponent :=
      if hex then None else finish (scale * point) (underscores a) s3 in
    match s3 with
    | EmptyString => noExponent
    | String c s4 =>
        if Ascii.eqb (lower c) (if hex then "p" else "e") then
          match s4 with
          | EmptyString => None
          | String d s5 =>
              let (esign, s6) :=
                if Ascii.eqb d "+" then (1, s5)
                else if Ascii.eqb d "-" then (-1, s5)
                else (1, s4) in
              match s6 with
              | EmptyString => None
              | String f _ =>
                  if isDigit f then
                    let '(e, us, s7) := readExponent s6 0 (underscores a) in
                    finish (scale * point + e * esign) us s7
                  else None
              end
          end
        else noExponent
    end.

(** The float nearest to the quotient of two positive integers, ties
    to even; an infinity when it is out of range. *)
Definition nearestQuotient (n d : Z) : float64 :=
  SFdiv 53 1024 (S754_finite false (Z.to_pos n) 0)
    (S754_finite false (Z.to_pos d) 0).

(** The float nearest to the number read.  A decimal number of more
    than 310 digits before the point is out of range, one that starts
    more than 330 places after the point rounds to zero: the library
    settles these two cases in the same way, before any arithmetic. *)
Definition floatValue (t : floatText) : float64 :=
  if ftDigits t =? 0 then S754_zero false
  else if ftHex t then binary_normalize 53 1024 (ftDigits t) (ftExp t) false
  else if ftCount t + ftExp t >? 310 then S754_infinity false
  else if ftCount t + ftExp t <? -330 then S754_zero false
  else
    nearestQuotient (ftDigits t * 10 ^ Z.max (ftExp t) 0)
      (10 ^ Z.max (- ftExp t) 0).

(** [strconv.ParseFloat(s, 64)]; the value the library returns beside
    an error is dropped. *)
Definition strconv_ParseFloat (s : string) : float64 + error :=
  match special s with
  | Some f => inl f
  | None =>
      match readFloat s with
      | None => inr (NumError "ParseFloat" s ErrSyntax)
      | Some t =>
          match floatValue t with
          | S754_infinity _ => inr (NumError "ParseFloat" s ErrRange)
          | f => inl (if ftNeg t then SFopp f else f)
          end
      end
  end.

(** ** Vocabulary of the statements *)

(** The segments of a byte string between line feeds; a line feed at
    the very end opens no further segment. *)
Fixpoint rawLines (s : string) : list string :=
  match s with
  | EmptyString => []
  | String c s' =>
      if Ascii.eqb c newline then EmptyString :: rawLines s'
      else match rawLines s' with
           | [] => [String c EmptyString]
           | l :: ls => String c l :: ls
           end
  end.

(** The tokens of [bufio.ScanLines] over a whole input, whatever their
    length. *)
Definition ScanLines (s : string) : list string := map dropCR (rawLines s).

(** The segments that precede the first one the scanner cannot hold. *)
Fixpoint fitting (ls : list string) : list string :=
  match ls with
  | [] => []
  | l :: ls' => if fits l then l :: fitting ls' else []
  end.

(** The lines the scanner of the client will still deliver: the tokens
    of the calls of [Scan] to come, up to the first call that returns
    false. *)
Definition pending (st : St) : list string :=
  let s := scanner (client st) in
  if done s then []
  else
    match serr s with
    | None => map dropCR (fitting (rawLines (rd s)))
    | Some _ => ScanLines (rd s)
    end.

(** The error of the read that ends the stream of the client. *)
Definition readError (st : St) : option error := rdErr (scanner (client st)).

(** The pending lines end at a line too long for the scanner, not at
    the end of the stream. *)
Definition tooLong (st : St) : bool :=
  let s := scanner (client st) in
  negb (done s)
  && match serr s with
     | None =>
         (List.length (fitting (rawLines (rd s)))
          <? List.length (rawLines (rd s)))%nat
     | Some _ => false
     end.

(** The error [Err] reports once the pending lines are scanned and
    [Scan] has returned false. *)
Definition stopError (st : St) : option error :=
  if tooLong st then Some ErrTooLong else readError st.

(** The memory of the process has room for a slice of [cnt] lines, and
    the run time accepts the capacity. *)
Definition allocates (st : St) (cnt : Z) : Prop :=
  cnt <= maxSliceCap /\ cnt <= room (world st).

(** The client is connected and no refresh of the deadline will fail. *)
Definition deadlinesHold (st : St) : Prop :=
  exists cn, conn (client st) = Some cn /\
             Forall (fun r => r = None) (deadlines cn).

(** A decimal integer with an optional minus sign. *)
Definition IsInteger (num : string) : Prop :=
  exists ds, ds <> EmptyString /\ allb isDigit ds = true /\
             (num = ds \/ num = String "-" ds).

(** The shape of a status line: an integer, white space, the rest. *)
Definition HeaderShape (l : string) : Prop :=
  exists num ws rest,
    l = num ++ ws ++ rest /\ IsInteger num /\
    ws <> EmptyString /\ allb isSpace ws = true.

(** A key (or a tag): a field without a space. *)
Definition isField (s : string) : bool :=
  allb (fun c => negb (Ascii.eqb c " ")) s.

(** The memory left in the worlds of the sample runs: room for 2^20
    lines. *)
Definition sampleRoom : Z := 2 ^ 20.

(** A healthy connection whose peer sends [reply] and closes, and a
    client freshly connected over it, with nothing left to dial. *)
Definition healthyConn (reply : string) : Conn :=
  mkConn [] [] None reply None [].

Definition connected (reply : string) : St :=
  mkSt (mkClient (Some (healthyConn reply)) "localhost:42217" "tcp"
          10000000000 (NewScanner (healthyConn reply)))
       (mkWorld [] [] sampleRoom).

(** The number of bytes [c] in [s]. *)
Fixpoint count (c : ascii) (s : string) : nat :=
  match s with
  | EmptyString => O
  | String d s' => (if Ascii.eqb d c then 1 else 0) + count c s'
  end.

(** A well-formed info line and its entry: key, type tag, raw value. *)
Inductive Decodes (ParseFloat : string -> float64 + error)
  : string -> InfoEntry -> Prop :=
| Decodes_string key raw :
    isField key = true ->
    Decodes ParseFloat (key ++ " 2 " ++ raw) (mkInfo key (VString raw))
| Decodes_int key raw v :
    isField key = true -> ParseInt raw = inl v ->
    Decodes ParseFloat (key ++ " 1 " ++ raw) (mkInfo key (VInt v))
| Decodes_float key raw v :
    isField key = true -> ParseFloat raw = inl v ->
    Decodes ParseFloat (key ++ " 0 " ++ raw) (mkInfo key (VFloat v)).

(** A malformed info line and the error that reports it: fewer than
    three fields, an unknown type tag, or a number that does not
    parse. *)
Inductive Rejects (ParseFloat : string -> float64 + error)
  : string -> error -> Prop :=
| Rejects_fields line :
    (count " " line < 2)%nat ->
    Rejects ParseFloat line
      (Errorf "unexpected response: not 3 parts '%s'" [AString line])
| Rejects_tag key tag raw :
    isField key = true -> isField tag = true ->
    tag <> "2" -> tag <> "1" -> tag <> "0" ->
    Rejects ParseFloat (key ++ " " ++ tag ++ " " ++ raw)
      (InvalidResponseError
         ("info: unknown type " ++ tag ++ " for key " ++ key)
         (key ++ " " ++ tag ++ " " ++ raw))
| Rejects_int key raw e :
    isField key = true -> ParseInt raw = inr e ->
    Rejects ParseFloat (key ++ " 1 " ++ raw)
      (InvalidResponseError ("info: invalid int for key " ++ key)
         (key ++ " 1 " ++ raw))
| Rejects_float key raw e :
    isField key = true -> ParseFloat raw = inr e ->
    Rejects ParseFloat (key ++ " 0 " ++ raw)
      (InvalidResponseError ("info: invalid float for key " ++ key)
         (key ++ " 0 " ++ raw)).

(** The client after a turn of the write loop that reconnected: the
    connection [cn'] and a scanner over it, [ds] left to dial, and the
    notice about [err] printed. *)
Definition reconnected (st : St) (cn' : Conn) (ds : list DialResult)
    (err : error) : St :=
  mkSt (set_scanner (set_conn (client st) (Some cn')) (NewScanner cn'))
       (mkWorld ds (stdout (world st) ++ [(reconnectNotice, [AErrorText err])])
          (room (world st))).

(** [Wraps err e]: [e] is [err] or an error of its [Unwrap] chain. *)
Inductive Wraps : error -> error -> Prop :=
| Wraps_here e : Wraps e e
| Wraps_next err e' e : Unwrap err = Some e' -> Wraps e' e -> Wraps err e.

(** An error that tells of a connection the peer has given up: it is,
    or it wraps, [syscall.EPIPE] (broken pipe) or [syscall.ECONNRESET]
    (connection reset by peer). *)
Definition ResetError (err : error) : Prop :=
  Wraps err (Errno EPIPE) \/ Wraps err (Errno ECONNRESET).

(** A connection that refuses its next write with a broken pipe or a
    reset. *)
Definition refusing (cn : Conn) : Prop :=
  exists err, hd None (writes cn) = Some err /\ ResetError err.

(** C1 as stated, for the command [c] run in the state [st]: the
    trailing text of the status line is the first line of the result,
    before the [cnt] lines that follow. *)
Definition header_text_first (c : Cmd) (st : St) : Prop :=
  forall st1 header more num rest cnt,
    sendCmd c st = (Val tt, st1) ->
    deadlinesHold st1 ->
    pending st1 = header :: more ->
    FindStringSubmatch respRe header = [header; num; rest] ->
    Atoi num = inl cnt ->
    0 < cnt ->
    (Z.to_nat cnt <= List.length more)%nat ->
    fst (ExecCmd c st) = Val (rest :: firstn (Z.to_nat cnt) more).

(** C7 as stated: the entries of the scenario, the second one a float. *)
Definition Info_scenario_as_stated : Prop :=
  fst (Info strconv_ParseFloat "/tmp/x.rrd"
         (connected ("2 ds[temp].type 2 GAUGE" ++ LF
                       ++ "ds[temp].index 1 0"))) =
  Val [mkInfo "ds[temp].type" (VString "GAUGE");
       mkInfo "ds[temp].index" (VFloat (S754_zero false))].

(** ** Sample runs *)

(** A reply to the stats command: a status line and two content lines. *)
Definition statsReply : string :=
  "2 Statistics follow" ++ LF ++ "QueueLength: 0" ++ LF
    ++ "UpdatesReceived: 30" ++ LF.

(** The same reply cut after its first content line. *)
Definition shortReply : string :=
  "2 Statistics follow" ++ LF ++ "QueueLength: 0" ++ LF.

(** A protocol error, and a line that is no status line. *)
Definition errorReply : string := "-1 No such file: /tmp/x.rrd" ++ LF.
Definition garbageReply : string := "garbage" ++ LF.

(** An info reply with one entry of each type, and one with a tag that
    does not exist. *)
Definition infoReply : string :=
  "3 Info follows" ++ LF ++ "filename 2 rrd file" ++ LF
    ++ "rrd_version 1 -42" ++ LF ++ "xff 0 3.5" ++ LF.

Definition badInfoReply : string :=
  "2 Info follows" ++ LF ++ "filename 2 rrd file" ++ LF ++ "step 9 300" ++ LF.

(** The error of a write on a connection the peer has closed. *)
Definition brokenPipe : error :=
  OpError "write" (SyscallError "write" (Errno EPIPE)).

(** A write refused because the peer has reset the connection, and a
    write that ran into the deadline. *)
Definition connReset : error :=
  OpError "write" (SyscallError "write" (Errno ECONNRESET)).
Definition writeTimeout : error := OpError "write" (ErrorString "i/o timeout").

(** A client whose connection refuses the next write with [err], while
    the daemon can be dialled again and then answers [reply]. *)
Definition staleWith (err : error) (reply : string) : St :=
  mkSt (mkClient (Some (mkConn [] [Some err] None EmptyString None []))
          "localhost:42217" "tcp" 10000000000
          (NewScanner (healthyConn EmptyString)))
       (mkWorld [Dialed (healthyConn reply)] [] sampleRoom).

(** 3.5, that is 7881299347898368 / 2^51. *)
Definition float_3_5 : float64 := S754_finite false 7881299347898368 (-51).

(** The error of a read that ran into the deadline, and a client whose
    peer sends [reply] and then stays silent until the deadline. *)
Definition readTimeout : error := OpError "read" (ErrorString "i/o timeout").

Definition stalled (reply : string) : St :=
  mkSt (mkClient (Some (mkConn [] [] None reply (Some readTimeout) []))
          "localhost:42217" "tcp" 10000000000
          (NewScanner (mkConn [] [] None reply (Some readTimeout) [])))
       (mkWorld [] [] sampleRoom).

(** ** Construction of a client *)

From Stdlib Require DecimalString.

(** [DefaultPort] and [DefaultTimeout] (ten seconds, in nanoseconds). *)
Definition DefaultPort : Z := 42217.
Definition DefaultTimeout : Z := 1000000000 * 10.

(** Modelled from the spec: [ErrNilOption] is declared with the error
    types, which are not part of the sources at hand.  It is the error
    of a construction-time option that is nil; only its identity is
    used. *)
Definition ErrNilOption : error := ErrorString "nil option".

(** The [%v] of an [int]: its decimal numeral. *)
Definition FormatInt (n : Z) : string :=
  DecimalString.NilZero.string_of_int (Z.to_int n).

(** [strings.Contains(s, substr)] for a substring of one byte. *)
Fixpoint Contains (s : string) (c : ascii) : bool :=
  match s with
  | EmptyString => false
  | String d s' => Ascii.eqb d c || Contains s' c
  end.

Definition set_addr (c : Client) (a : string) : Client :=
  mkClient (conn c) a (network c) (timeout c) (scanner c).

Definition set_network (c : Client) (n : string) : Client :=
  mkClient (conn c) (addr c) n (timeout c) (scanner c).

Definition set_timeout (c : Client) (t : Z) : Client :=
  mkClient (conn c) (addr c) (network c) t (scanner c).

(** An option of [NewClient], a [func(c *Client) error]: [None] is the nil
    function; a function returns the client as it leaves it and its
    error. *)
Definition ClientOption : Type := option (Client -> Client * option error).

(** [func Timeout(timeout time.Duration) func(c *Client) error] *)
Definition Timeout (t : Z) : ClientOption :=
  Some (fun c => (set_timeout c t, None)).

(** [func Unix(c *Client) error] *)
Definition Unix : ClientOption :=
  Some (fun c => (set_network c "unix", None)).

(** The loop of [NewClient] over its options. *)
Fixpoint applyOptions (options : list ClientOption) (c : Client)
  : Client + error :=
  match options with
  | [] => inl c
  | None :: _ => inr ErrNilOption
  | Some f :: rest =>
      match f c with
      | (_, Some err) => inr err
      | (c', None) => applyOptions rest c'
      end
  end.

(** The scanner field of a client under construction is nil.  It is not
    read before [initConnection] assigns it, and the client is dropped
    when the dial fails; the model puts a scanner without input there. *)
Definition noScanner : Scanner :=
  mkScanner EmptyString None EmptyString None true.

(** The address to dial: a TCP address without colon gets the default
    port. *)
Definition withDefaultPort (c : Client) : Client :=
  if String.eqb (network c) "tcp" then
    if negb (Contains (addr c) ":") then
      set_addr c (Sprintf "%v:%v" [addr c; FormatInt DefaultPort])
    else c
  else c.

(** [func NewClient(addr string, options ...func(c *Client) error)
    ( *Client, error)], run in the world [w]. *)
Definition NewClient (a : string) (options : list ClientOption) (w : World)
  : Outcome Client * World :=
  match applyOptions options
          (mkClient None a "tcp" DefaultTimeout noScanner) with
  | inr err => (Fail err, w)
  | inl c =>
      match initConnection (mkSt (withDefaultPort c) w) with
      | (Val _, st) => (Val (client st), world st)
      | (Fail err, st) =>
          (Fail (ErrorfW "failed to establish initial connection: %w" [] err),
           world st)
      | (Panic, st) => (Panic, world st)
      end
  end.

(** ** The info reply as a map *)

(** A [map[string]interface{}] as the list of its bindings, one per
    key. *)
Definition InfoTable : Type := list (string * InfoValue).

(** [m[k] = v] *)
Definition table_set (m : InfoTable) (k : string) (v : InfoValue)
  : InfoTable :=
  (k, v) :: filter (fun kv => negb (String.eqb (fst kv) k)) m.

(** [m[k]] *)
Definition table_get (m : InfoTable) (k : string) : option InfoValue :=
  option_map snd (find (fun kv => String.eqb (fst kv) k) m).

(** [func (c *Client) InfoMap(filename string)
    (map[string]interface{}, error)] *)
Definition InfoMap (ParseFloat : string -> float64 + error)
    (filename : string) : M InfoTable :=
  infoList <- Info ParseFloat filename ;;
  ret (fold_left (fun m info => table_set m (Key info) (Value info))
         infoList []).

(** ** More vocabulary *)

(** The value of a string of decimal digits, read after the digits of
    value [acc]. *)
Fixpoint decimalFrom (s : string) (acc : Z) : Z :=
  match s with
  | EmptyString => acc
  | String c s' => decimalFrom s' (acc * 10 + digitValue c)
  end.

Definition decimalValue (ds : string) : Z := decimalFrom ds 0.

(** A numeral: a non-empty string of decimal digits. *)
Definition isNumeral (ds : string) : bool :=
  allb isDigit ds && negb (String.eqb ds EmptyString).

(** No byte of [s] is white space for [respRe]. *)
Definition noSpace (s : string) : bool := allb (fun c => negb (isSpace c)) s.

(** The first byte of [s] is white space for [respRe]. *)
Definition startsWithSpace (s : string) : bool :=
  match s with
  | EmptyString => false
  | String c _ => isSpace c
  end.

(** The minus sign of a numeral, if any. *)
Definition signOf (neg : bool) : string := if neg then "-" else EmptyString.

(** A connection whose scripts hold no failure: every refresh of the
    deadline and every write will succeed. *)
Definition willing (cn : Conn) : Prop :=
  Forall (fun r => r = None) (deadlines cn) /\
  Forall (fun r => r = None) (writes cn).

(** What [ExecCmd] returns for a reply with the count [cnt] and the
    status text [rest], followed by the lines [more]. *)
Definition replyLines (cnt : Z) (rest : string) (more : list string)
  : list string :=
  if cnt =? 0 then [rest] else firstn (Z.to_nat cnt) more.

(** The number of deadline refreshes of the reply decoder for a reply
    with the count [cnt]: none for a single message, otherwise one
    before the lines and one after each line. *)
Definition refreshes (cnt : Z) : nat :=
  if cnt =? 0 then 0%nat else S (Z.to_nat cnt).

(** The client is connected over a willing connection. *)
Definition Healthy (st : St) : Prop :=
  exists cn, conn (client st) = Some cn /\ willing cn.

(** The status line [header] announces [cnt] lines, or for [cnt = 0]
    the single message [rest]. *)
Definition Frames (header : string) (cnt : Z) (rest : string) : Prop :=
  exists num,
    FindStringSubmatch respRe header = [header; num; rest] /\
    Atoi num = inl cnt /\ 0 <= cnt.

(** The two options the package provides. *)
Inductive Setting : Type :=
| SetTimeout (t : Z)
| SetUnix.

Definition optionOf (s : Setting) : ClientOption :=
  match s with
  | SetTimeout t => Timeout t
  | SetUnix => Unix
  end.

(** The timeout a list of settings leaves: the last one set, or the
    default. *)
Definition timeoutOf (ss : list Setting) : Z :=
  fold_left (fun t s => match s with
                        | SetTimeout t' => t'
                        | SetUnix => t
                        end) ss DefaultTimeout.

Definition usesUnix (ss : list Setting) : bool :=
  existsb (fun s => match s with
                    | SetUnix => true
                    | SetTimeout _ => false
                    end) ss.

(** The line [ExecCmd] prints once the command is written. *)
Definition commandNotice (c : Cmd) : string * list fmtArg :=
  (("rrdcached command: [%s]" ++ LF)%string,
   [AString (TrimSpace (Cmd_String c))]).

(** The connection once [ExecCmd] has set the deadline, written the
    command and set the deadline again. *)
Definition afterSend (cn : Conn) (c : Cmd) : Conn :=
  afterSetDeadline (afterWrite (afterSetDeadline cn) (Cmd_String c)).

(** ** More sample runs *)

(** The reply to the stats command followed by the reply to a second
    command, a single message. *)
Definition twoReplies : string := statsReply ++ "0 done" ++ LF.

(** The error of a call on a connection that has been closed. *)
Definition closedConn : error :=
  OpError "set" (ErrorString "use of closed network connection").

(** A connection that takes the write but fails the refresh of the
    deadline that follows it, and a client over it while [reply] is on
    its way. *)
Definition lateConn (reply : string) : Conn :=
  mkConn [None; Some closedConn] [] None reply None [].

Definition lateDeadline (reply : string) : St :=
  mkSt (mkClient (Some (lateConn reply)) "localhost:42217" "tcp" 10000000000
          (NewScanner (lateConn reply)))
       (mkWorld [] [] sampleRoom).

(** A client whose connection refuses the next write with [brokenPipe],
    while the daemon cannot be dialled. *)
Definition cutOff : St :=
  mkSt (mkClient (Some (mkConn [] [Some brokenPipe] None EmptyString None []))
          "localhost:42217" "tcp" 10000000000
          (NewScanner (healthyConn EmptyString)))
       (mkWorld [DialError (Errno ECONNREFUSED)] [] sampleRoom).

(** A daemon that accepts one connection and answers [reply]. *)
Definition listening (reply : string) : World :=
  mkWorld [Dialed (healthyConn reply)] [] sampleRoom.

(** An info reply that gives the key "step" twice. *)
Definition repeatedInfoReply : string :=
  "2 Info follows" ++ LF ++ "step 1 300" ++ LF ++ "step 1 60" ++ LF.

(** The lines a new scanner delivers from the input [s]: its lines
    without the carriage return at their end, up to the first line that
    is too long. *)
Definition scannable (s : string) : list string :=
  map dropCR (fitting (rawLines s)).

(** [n] times the byte [c]. *)
Fixpoint replicate (n : nat) (c : ascii) : string :=
  match n with
  | O => EmptyString
  | S n' => String c (replicate n' c)
  end.

(** A reply whose first line has [MaxScanTokenSize] bytes before its
    line feed, and a reply that declares more lines than a slice can
    hold. *)
Definition longReply : string :=
  replicate (Z.to_nat MaxScanTokenSize) "x" ++ LF.

Definition hugeReply : string := "9223372036854775807 x" ++ LF.

(** ** Statements that do not hold *)

(** C2 as stated, for a stream that a failed read ends: the error of a
    reply that is short of lines is an error of its own that wraps the
    error of the read. *)
Definition short_reply_as_stated : Prop :=
  forall c st st1 header more num rest cnt e,
    sendCmd c st = (Val tt, st1) ->
    deadlinesHold st1 ->
    pending st1 = header :: more ->
    FindStringSubmatch respRe header = [header; num; rest] ->
    Atoi num = inl cnt ->
    (List.length more < Z.to_nat cnt)%nat ->
    allocates st1 cnt ->
    stopError st1 = Some e ->
    exists err, fst (ExecCmd c st) = Fail err /\ err <> e /\ Wraps err e.

(** C3 as stated: a status line that starts with a negative integer
    always ends in the protocol error with this integer and the text
    that follows it. *)
Definition negative_status_as_stated : Prop :=
  forall c st st1 ds msg more,
    sendCmd c st = (Val tt, st1) ->
    pending st1 = ("-" ++ ds ++ " " ++ msg)%string :: more ->
    isNumeral ds = true ->
    0 < decimalValue ds ->
    startsWithSpace msg = false ->
    fst (ExecCmd c st) = Fail (NewError (- decimalValue ds) msg).
(** * Properties

    ** The matcher on [respRe] *)

Section StarClass.
Variable p : ascii -> bool.
Variable k : nat -> string -> captures -> option captures.
Variable caps : captures.

Lemma run_star_class_cons c s pos :
  run (Star (Class p)) pos (String c s) caps k =
  if p c then
    match run (Star (Class p)) (S pos) s caps k with
    | Some res => Some res
    | None => k pos (String c s) caps
    end
  else k pos (String c s) caps.
Proof.
  cbn [run String.length].
  destruct (p c); [|reflexivity].
  replace (String.length s <? S (String.length s))%nat with true
    by (symmetry; apply Nat.ltb_lt; lia).
  reflexivity.
Qed.

Lemma run_star_class_nil pos :
  run (Star (Class p)) pos EmptyString caps k = k pos EmptyString caps.
Proof. reflexivity. Qed.

(** A greedy repetition of a class stops after the longest run,
    provided that whenever the continuation refuses the longest run
    it refuses every shorter one. *)
Lemma run_star_class_span s : forall pos,
  (k (pos + String.length (fst (span p s)))%nat (snd (span p s)) caps = None ->
   forall n, (n < String.length (fst (span p s)))%nat ->
             k (pos + n)%nat (skip n s) caps = None) ->
  run (Star (Class p)) pos s caps k =
  k (pos + String.length (fst (span p s)))%nat (snd (span p s)) caps.
Proof.
  induction s as [|c s IH]; intros pos Hk.
  - rewrite run_star_class_nil. cbn. now rewrite Nat.add_0_r.
  - rewrite run_star_class_cons. cbn [span] in *.
    destruct (p c) eqn:Hc.
    + destruct (span p s) as [a b] eqn:Hs. cbn [fst snd String.length] in *.
      rewrite IH.
      * replace (S pos + String.length a)%nat
          with (pos + S (String.length a))%nat by lia.
        destruct (k (pos + S (String.length a))%nat b caps) eqn:Hlong;
          [reflexivity|].
        specialize (Hk eq_refl 0%nat).
        rewrite Nat.add_0_r in Hk. cbn in Hk. apply Hk. lia.
      * intros Hlong n Hn.
        replace (S pos + n)%nat with (pos + S n)%nat by lia.
        change (skip n s) with (skip (S n) (String c s)).
        apply Hk; [|lia].
        now replace (pos + S (String.length a))%nat
          with (S pos + String.length a)%nat by lia.
    + cbn. now rewrite Nat.add_0_r.
Qed.
End StarClass.

Lemma span_app p s : s = fst (span p s) ++ snd (span p s).
Proof.
  induction s as [|c s IH]; cbn; [reflexivity|].
  destruct (p c); [|reflexivity].
  destruct (span p s) as [a b]; cbn in *. now f_equal.
Qed.

Lemma span_allb p s : allb p (fst (span p s)) = true.
Proof.
  induction s as [|c s IH]; cbn; [reflexivity|].
  destruct (p c) eqn:Hc; [|reflexivity].
  destruct (span p s) as [a b]; cbn in *. now rewrite Hc.
Qed.

Lemma span_stop p s c t : snd (span p s) = String c t -> p c = false.
Proof.
  induction s as [|c' s IH]; cbn; [discriminate|].
  destruct (p c') eqn:Hc.
  - destruct (span p s) as [a b]; cbn in *. exact IH.
  - cbn. intros [= -> _]. exact Hc.
Qed.

Lemma allb_app p a b : allb p (a ++ b) = allb p a && allb p b.
Proof.
  induction a as [|c a IH]; cbn; [reflexivity|].
  now rewrite IH, andb_assoc.
Qed.

Lemma prefix_app a b : prefix (String.length a) (a ++ b) = a.
Proof. induction a as [|c a IH]; cbn; [now destruct b | now f_equal]. Qed.

Lemma prefix_all a : prefix (String.length a) a = a.
Proof. induction a as [|c a IH]; cbn; [reflexivity | now f_equal]. Qed.

Lemma app_empty_r (a : string) : a ++ "" = a.
Proof. induction a as [|c a IH]; cbn; [reflexivity | now f_equal]. Qed.

(** Inside the run selected by [span] the next byte is in the class. *)
Lemma skip_span p s n :
  (n < String.length (fst (span p s)))%nat ->
  exists c t, skip n s = String c t /\ p c = true /\
              exists a, t = a ++ snd (span p s).
Proof.
  revert n. induction s as [|c s IH]; intros n; cbn; [lia|].
  destruct (p c) eqn:Hc; [|cbn; lia].
  destruct (span p s) as [a b] eqn:Hs; cbn in *.
  destruct n as [|n]; intros Hn.
  - exists c, s. repeat split; [exact Hc|].
    exists a. rewrite (span_app p s) at 1. now rewrite Hs.
  - apply IH. lia.
Qed.

Lemma span_all p s : allb p s = true -> span p s = (s, EmptyString).
Proof.
  induction s as [|c s IH]; cbn; [reflexivity|].
  destruct (p c); cbn; [|discriminate].
  intros H. now rewrite IH.
Qed.

(** The defining equations of [run], as rewriting rules. *)
Lemma run_Class_cons p c s pos caps k :
  run (Class p) pos (String c s) caps k =
  if p c then k (S pos) s caps else None.
Proof. reflexivity. Qed.

Lemma run_Concat r1 r2 pos s caps k :
  run (Concat r1 r2) pos s caps k =
  run r1 pos s caps (fun pos' s' caps' => run r2 pos' s' caps' k).
Proof. reflexivity. Qed.

Lemma run_Capture n r pos s caps k :
  run (Capture n r) pos s caps k =
  run r pos s caps
    (fun pos' s' caps' => k pos' s' ((n, prefix (pos' - pos) s) :: caps')).
Proof. reflexivity. Qed.

Lemma run_Quest r pos s caps k :
  run (Quest r) pos s caps k =
  match run r pos s caps k with
  | Some res => Some res
  | None => k pos s caps
  end.
Proof. reflexivity. Qed.

Lemma run_plus_class_span p k caps s pos :
  (k (pos + String.length (fst (span p s)))%nat (snd (span p s)) caps = None ->
   forall n, (0 < n < String.length (fst (span p s)))%nat ->
             k (pos + n)%nat (skip n s) caps = None) ->
  run (Plus (Class p)) pos s caps k =
  match fst (span p s) with
  | EmptyString => None
  | String _ _ =>
      k (pos + String.length (fst (span p s)))%nat (snd (span p s)) caps
  end.
Proof.
  unfold Plus. destruct s as [|c s]; [reflexivity|].
  rewrite run_Concat, run_Class_cons. cbn [span].
  destruct (p c) eqn:Hc; [|reflexivity].
  destruct (span p s) as [a b] eqn:Hs. cbn [fst snd String.length].
  intros Hk. rewrite run_star_class_span; rewrite Hs; cbn [fst snd].
  - f_equal. lia.
  - intros Hlong n Hn.
    replace (S pos + n)%nat with (pos + S n)%nat by lia.
    change (skip n s) with (skip (S n) (String c s)).
    apply Hk; [|lia].
    now replace (pos + S (String.length a))%nat
      with (S pos + String.length a)%nat by lia.
Qed.

(** The tail of the pattern, [( . * ) $]: the whole remainder, when it
    has no line feed. *)
Lemma run_respRe_tail k caps s pos :
  run (Concat (Capture 2 (Star (Class notNewline))) EndText) pos s caps k =
  if allb notNewline s
  then k (pos + String.length s)%nat EmptyString ((2%nat, s) :: caps)
  else None.
Proof.
  rewrite run_Concat, run_Capture, run_star_class_span.
  - pose proof (span_app notNewline s) as Happ.
    pose proof (span_allb notNewline s) as Hall.
    destruct (span notNewline s) as [a b] eqn:Hs. cbn [fst snd] in *.
    destruct b as [|c b].
    + rewrite app_empty_r in Happ. subst a. rewrite Hall.
      replace (pos + String.length s - pos)%nat with (String.length s) by lia.
      rewrite <- (app_empty_r s) at 3. now rewrite prefix_app.
    + assert (Hc : notNewline c = false)
        by (eapply span_stop; rewrite Hs; reflexivity).
      rewrite Happ, allb_app. cbn. rewrite Hc.
      now rewrite andb_false_r.
  - intros _ n Hn.
    destruct (skip_span _ _ _ Hn) as (c & t & -> & _). reflexivity.
Qed.

Lemma run_BeginText s caps k : run BeginText 0 s caps k = k 0%nat s caps.
Proof. reflexivity. Qed.

Lemma isDigit_not_isSpace c : isDigit c = true -> isSpace c = false.
Proof.
  unfold isDigit, isSpace. intros H.
  apply andb_true_iff in H as [H1 H2].
  apply Nat.leb_le in H1, H2.
  repeat (apply orb_false_iff; split); apply Nat.eqb_neq; lia.
Qed.

Lemma string_length_app a b :
  String.length (a ++ b) = (String.length a + String.length b)%nat.
Proof. induction a as [|c a IH]; cbn; [reflexivity | now rewrite IH]. Qed.

(** White space, then the tail. *)
Lemma run_respRe_space k caps s pos :
  (forall pos' caps', k pos' EmptyString caps' <> None) ->
  run (Concat (Plus (Class isSpace))
         (Concat (Capture 2 (Star (Class notNewline))) EndText)) pos s caps k =
  match fst (span isSpace s) with
  | EmptyString => None
  | String _ _ =>
      if allb notNewline (snd (span isSpace s))
      then k (pos + String.length s)%nat EmptyString
             ((2%nat, snd (span isSpace s)) :: caps)
      else None
  end.
Proof.
  intros Hk. rewrite run_Concat, run_plus_class_span.
  - assert (Hlen : String.length s =
                   (String.length (fst (span isSpace s)) +
                    String.length (snd (span isSpace s)))%nat)
      by (rewrite (span_app isSpace s) at 1; apply string_length_app).
    rewrite run_respRe_tail, Hlen.
    destruct (fst (span isSpace s)) eqn:Hws; [reflexivity|].
    destruct (allb notNewline (snd (span isSpace s))); [|reflexivity].
    f_equal. lia.
  - rewrite run_respRe_tail.
    destruct (allb notNewline (snd (span isSpace s))) eqn:Hrest;
      [intros H; now apply Hk in H|].
    intros _ n [_ Hn].
    destruct (skip_span _ _ _ Hn) as (c & t & -> & _ & a & ->).
    rewrite run_respRe_tail. cbn [allb]. rewrite allb_app, Hrest.
    now rewrite !andb_false_r.
Qed.

(** Digits: a continuation that starts with white space refuses every
    shorter run of digits. *)
Lemma run_plus_digits k caps s pos :
  (forall pos' c t caps', isDigit c = true ->
                          k pos' (String c t) caps' = None) ->
  run (Plus (Class isDigit)) pos s caps k =
  match fst (span isDigit s) with
  | EmptyString => None
  | String _ _ =>
      k (pos + String.length (fst (span isDigit s)))%nat
        (snd (span isDigit s)) caps
  end.
Proof.
  intros Hk. apply run_plus_class_span.
  intros _ n [_ Hn].
  destruct (skip_span _ _ _ Hn) as (c & t & -> & Hc & _).
  now apply Hk.
Qed.

Lemma run_respRe_space_digit k caps c t pos :
  isDigit c = true ->
  run (Concat (Plus (Class isSpace))
         (Concat (Capture 2 (Star (Class notNewline))) EndText))
    pos (String c t) caps k = None.
Proof.
  intros Hc. unfold Plus.
  rewrite !run_Concat, run_Class_cons, (isDigit_not_isSpace _ Hc).
  reflexivity.
Qed.

(** Digits, white space and the tail, started at offset [pos] of the
    line [l]. *)
Lemma run_respRe_body l pos s caps :
  (pos + String.length s)%nat = String.length l ->
  run (Plus (Class isDigit)) pos s caps
    (fun pos' s' caps' =>
       run (Concat (Plus (Class isSpace))
              (Concat (Capture 2 (Star (Class notNewline))) EndText))
         pos' s' ((1%nat, prefix (pos' - 0) l) :: caps')
         (fun pos'' _ caps'' => Some ((0%nat, prefix (pos'' - 0) l) :: caps''))) =
  let (ds, s2) := span isDigit s in
  let (ws, rest) := span isSpace s2 in
  match ds, ws with
  | String _ _, String _ _ =>
      if allb notNewline rest
      then Some ((0%nat, l) :: (2%nat, rest)
                   :: (1%nat, prefix (pos + String.length ds) l) :: caps)
      else None
  | _, _ => None
  end.
Proof.
  intros Hlen.
  rewrite run_plus_digits
    by (intros; now apply run_respRe_space_digit).
  pose proof (span_app isDigit s) as Happ.
  destruct (span isDigit s) as [ds s2]. cbn [fst snd] in *.
  destruct ds as [|d ds]; [now destruct (span isSpace s2)|].
  rewrite run_respRe_space by discriminate.
  destruct (span isSpace s2) as [ws rest]. cbn [fst snd].
  destruct ws as [|w ws]; [reflexivity|].
  destruct (allb notNewline rest); [|reflexivity].
  rewrite !Nat.sub_0_r.
  replace (pos + String.length (String d ds) + String.length s2)%nat
    with (String.length l)
    by (rewrite <- Hlen, Happ, string_length_app; lia).
  now rewrite prefix_all.
Qed.

Theorem run_respRe l :
  run (Capture 0 respRe) 0 l [] (fun _ _ caps => Some caps) =
  match splitHeader l with
  | Some (num, rest) => Some [(0%nat, l); (2%nat, rest); (1%nat, num)]
  | None => None
  end.
Proof.
  unfold respRe.
  rewrite run_Capture, run_Concat, run_BeginText, run_Concat, run_Capture,
    run_Concat, run_Quest.
  rewrite (run_respRe_body l 0 l) by reflexivity.
  unfold splitHeader, Lit.
  destruct l as [|c s]; [reflexivity|].
  rewrite run_Class_cons.
  destruct (Ascii.eqb "-" c) eqn:Hc.
  - apply Ascii.eqb_eq in Hc. subst c.
    rewrite (run_respRe_body _ 1 s) by reflexivity.
    change (span isDigit (String "-" s)) with (EmptyString, String "-" s).
    pose proof (span_app isDigit s) as Happ.
    destruct (span isDigit s) as [ds s2]. cbn [fst snd] in Happ.
    destruct (span isSpace s2) as [ws rest].
    destruct ds as [|d ds]; [now destruct (span isSpace (String "-" s))|].
    destruct ws as [|w ws]; [now destruct (span isSpace (String "-" s))|].
    destruct (allb notNewline rest);
      [|now destruct (span isSpace (String "-" s))].
    rewrite Happ.
    change (String "-" (String d ds ++ s2)) with (String "-" (String d ds) ++ s2).
    change (1 + String.length (String d ds))%nat
      with (String.length (String "-" (String d ds))).
    now rewrite prefix_app.
  - pose proof (span_app isDigit (String c s)) as Happ.
    destruct (span isDigit (String c s)) as [ds s2]. cbn [fst snd] in Happ.
    destruct (span isSpace s2) as [ws rest].
    destruct ds as [|d ds]; [reflexivity|].
    destruct ws as [|w ws]; [reflexivity|].
    destruct (allb notNewline rest); [|reflexivity].
    rewrite Happ. cbn [Nat.add]. now rewrite prefix_app.
Qed.

(** [respRe] is anchored: no match starts after offset 0. *)
Lemma search_respRe_later s : forall pos, search respRe (S pos) s = None.
Proof.
  induction s as [|c s IH]; intros pos; cbn [search].
  - reflexivity.
  - unfold respRe at 1. rewrite run_Capture, run_Concat. cbn [run Nat.eqb].
    apply IH.
Qed.

(** The matcher on [respRe] computes [splitHeader]. *)
Theorem respRe_splitHeader l :
  FindStringSubmatch respRe l =
  match splitHeader l with
  | Some (num, rest) => [l; num; rest]
  | None => []
  end.
Proof.
  unfold FindStringSubmatch.
  assert (Hs : search respRe 0 l =
               match splitHeader l with
               | Some (num, rest) =>
                   Some [(0%nat, l); (2%nat, rest); (1%nat, num)]
               | None => None
               end).
  { destruct l as [|c s]; cbn [search]; rewrite run_respRe.
    - now destruct (splitHeader "") as [[? ?]|].
    - destruct (splitHeader (String c s)) as [[? ?]|]; [reflexivity|].
      apply search_respRe_later. }
  rewrite Hs. now destruct (splitHeader l) as [[num rest]|].
Qed.

Local Open Scope list_scope.

(** ** Errors *)

(** [errors_Is] and [errors_As_RrdError] walk the chain of [Unwrap]. *)
Lemma errors_Is_Unwrap err target :
  errors_Is err target =
  match err with
  | Errno code => code =? target
  | _ => match Unwrap err with
         | Some e => errors_Is e target
         | None => false
         end
  end.
Proof. now destruct err. Qed.

(** [errors.Is] against an [Errno] finds it exactly in the errors that
    are it or wrap it. *)
Lemma errors_Is_Wraps err target :
  errors_Is err target = true <-> Wraps err (Errno target).
Proof.
  split.
  - induction err; cbn [errors_Is]; intros H; try discriminate.
    + apply Z.eqb_eq in H. subst. constructor.
    + eapply Wraps_next; [reflexivity | auto].
    + eapply Wraps_next; [reflexivity | auto].
    + eapply Wraps_next; [reflexivity | auto].
    + eapply Wraps_next; [reflexivity | auto].
  - remember (Errno target) as t eqn:Ht.
    induction 1 as [e|err e' e Hu _ IH].
    + subst e. cbn. apply Z.eqb_refl.
    + rewrite errors_Is_Unwrap.
      destruct err; try discriminate; cbn in Hu; injection Hu as ->; auto.
Qed.

(** The test of the write loop holds exactly for the reset errors. *)
Lemma isReset_ResetError err : isReset err = true <-> ResetError err.
Proof.
  unfold isReset, ResetError.
  rewrite orb_true_iff, !errors_Is_Wraps. reflexivity.
Qed.

Lemma isReset_false err : isReset err = false <-> ~ ResetError err.
Proof.
  rewrite <- isReset_ResetError. destruct (isReset err); split; congruence.
Qed.

Lemma errors_As_RrdError_Unwrap err :
  errors_As_RrdError err =
  match err with
  | RrdError code msg => Some (code, msg)
  | _ => match Unwrap err with
         | Some e => errors_As_RrdError e
         | None => None
         end
  end.
Proof. now destruct err. Qed.

(** ** The monad *)

Lemma bind_Val {A B} (m : M A) (f : A -> M B) st a st' :
  m st = (Val a, st') -> bind m f st = f a st'.
Proof. unfold bind. now intros ->. Qed.

Lemma bind_Fail {A B} (m : M A) (f : A -> M B) st e st' :
  m st = (Fail e, st') -> bind m f st = (Fail e, st').
Proof. unfold bind. now intros ->. Qed.

Lemma bind_Panic {A B} (m : M A) (f : A -> M B) st st' :
  m st = (Panic, st') -> bind m f st = (Panic, st').
Proof. unfold bind. now intros ->. Qed.

(** A run that is known to return: its result with its final state. *)
Lemma run_result {A} (m : M A) st a :
  fst (m st) = Val a -> m st = (Val a, snd (m st)).
Proof. destruct (m st) as [out s]. cbn. now intros ->. Qed.

Lemma Text_token st : Text st = (Val (token (scanner (client st))), st).
Proof. reflexivity. Qed.

(** [step H]: run the first call of a sequence, whose result is [H]. *)
Ltac step H :=
  first [ rewrite (bind_Val _ _ _ _ _ H)
        | rewrite (bind_Fail _ _ _ _ _ H)
        | rewrite (bind_Panic _ _ _ _ H) ].

(** ** The scanner *)

Lemma cut_rawLines s :
  match cut newline s with
  | Some (a, b) => rawLines s = a :: rawLines b
  | None => rawLines s = match s with
                         | EmptyString => []
                         | _ => [s]
                         end
  end.
Proof.
  induction s as [|c s IH]; cbn; [reflexivity|].
  destruct (Ascii.eqb c newline); [reflexivity|].
  destruct (cut newline s) as [[a b]|].
  - now rewrite IH.
  - rewrite IH. now destruct s.
Qed.

Lemma fits_empty : fits EmptyString = true.
Proof. reflexivity. Qed.

(** One [Scan]: either the next pending line becomes the token, or
    nothing is pending and the scanner stops, on the end of the stream
    or on a line too long. *)
Lemma Scan_cases st :
  (exists t ts st',
      pending st = t :: ts /\ Scan st = (Val true, st') /\
      token (scanner (client st')) = t /\ pending st' = ts /\
      done (scanner (client st')) = false /\
      conn (client st') = conn (client st) /\ world st' = world st /\
      readError st' = readError st /\ tooLong st' = tooLong st) \/
  (pending st = [] /\
   exists st',
     Scan st = (Val false, st') /\
     (done (scanner (client st)) = false ->
      serr (scanner (client st')) = stopError st) /\
     conn (client st') = conn (client st) /\ world st' = world st).
Proof.
  destruct st as [[cn a nw tmo [r re tk se dn]] w].
  unfold stopError, pending, tooLong, readError, Scan, Scanner_Scan,
    ScanLines, nextLine.
  cbn [client scanner world done serr rd rdErr conn].
  destruct dn.
  - right. split; [reflexivity|]. eexists. split; [reflexivity|].
    split; [discriminate|]. split; reflexivity.
  - pose proof (cut_rawLines r) as Hcut. cbn [negb andb].
    destruct se as [e|].
    + destruct (cut newline r) as [[line rest]|].
      * left. rewrite Hcut. cbn [map]. do 3 eexists.
        repeat split.
      * rewrite Hcut. destruct r as [|c r].
        -- right. split; [reflexivity|]. eexists. split; [reflexivity|].
           split; [reflexivity|]. split; reflexivity.
        -- left. cbn [map]. do 3 eexists. repeat split.
    + destruct (cut newline r) as [[line rest]|].
      * rewrite Hcut. cbn [fitting].
        destruct (fits line) eqn:Hf; cbn [negb map List.length].
        -- left. do 3 eexists. repeat split.
        -- right. split; [reflexivity|]. eexists. split; [reflexivity|].
           split; [reflexivity|]. split; reflexivity.
      * rewrite Hcut. destruct r as [|c r].
        -- rewrite fits_empty. cbn [negb fitting map List.length].
           right. split; [reflexivity|]. eexists. split; [reflexivity|].
           split; [reflexivity|]. split; reflexivity.
        -- cbn [fitting].
           destruct (fits (String c r)) eqn:Hf; cbn [negb map List.length].
           ++ left. do 3 eexists. repeat split.
           ++ right. split; [reflexivity|]. eexists. split; [reflexivity|].
              split; [reflexivity|]. split; reflexivity.
Qed.

Lemma Scan_next st t ts :
  pending st = t :: ts ->
  exists st',
    Scan st = (Val true, st') /\
    token (scanner (client st')) = t /\ pending st' = ts /\
    done (scanner (client st')) = false /\
    conn (client st') = conn (client st) /\ world st' = world st /\
    readError st' = readError st /\ tooLong st' = tooLong st.
Proof.
  intros Hp. destruct (Scan_cases st) as
    [(t' & ts' & st' & Hp' & H)|[Hp' _]]; [|congruence].
  rewrite Hp in Hp'. injection Hp' as <- <-. now exists st'.
Qed.

Lemma Scan_end st :
  pending st = [] -> done (scanner (client st)) = false ->
  exists st',
    Scan st = (Val false, st') /\
    serr (scanner (client st')) = stopError st /\
    conn (client st') = conn (client st) /\ world st' = world st.
Proof.
  intros Hp Hd. destruct (Scan_cases st) as
    [(t' & ts' & st' & Hp' & H)|[_ (st' & H1 & H2 & H3)]]; [congruence|].
  exists st'. auto.
Qed.

Lemma stopError_kept st st' :
  readError st' = readError st -> tooLong st' = tooLong st ->
  stopError st' = stopError st.
Proof. unfold stopError. now intros -> ->. Qed.

(** A pending line has no line feed. *)
Lemma rawLines_notNewline s :
  Forall (fun l => allb notNewline l = true) (rawLines s).
Proof.
  induction s as [|c s IH]; cbn; [constructor|].
  destruct (Ascii.eqb c newline) eqn:Hc; [now constructor|].
  destruct (rawLines s) as [|l ls].
  - constructor; [|constructor]. cbn. unfold notNewline. now rewrite Hc.
  - inversion IH; subst. constructor; [|assumption].
    cbn. unfold notNewline at 1. now rewrite Hc.
Qed.

Lemma dropCR_notNewline l :
  allb notNewline l = true -> allb notNewline (dropCR l) = true.
Proof.
  induction l as [|c l IH]; cbn; [reflexivity|].
  intros H. apply andb_true_iff in H as [Hc Hl].
  destruct l as [|c' l'].
  - destruct (Ascii.eqb c carriageReturn); cbn; [reflexivity|].
    now rewrite Hc.
  - cbn [allb]. rewrite Hc. cbn. now apply IH.
Qed.

Lemma fitting_Forall (P : string -> Prop) ls :
  Forall P ls -> Forall P (fitting ls).
Proof.
  induction 1 as [|l ls Hl _ IH]; cbn [fitting]; [constructor|].
  destruct (fits l); [now constructor | constructor].
Qed.

Lemma pending_notNewline st :
  Forall (fun l => allb notNewline l = true) (pending st).
Proof.
  unfold pending, ScanLines. destruct (done _); [constructor|].
  destruct (serr _).
  - apply Forall_map. eapply Forall_impl; [|apply rawLines_notNewline].
    intros l. apply dropCR_notNewline.
  - apply Forall_map. apply fitting_Forall.
    eapply Forall_impl; [|apply rawLines_notNewline].
    intros l. apply dropCR_notNewline.
Qed.

(** ** Deadlines *)

Lemma setDeadline_holds st :
  deadlinesHold st ->
  exists st',
    setDeadline st = (Val tt, st') /\ deadlinesHold st' /\
    scanner (client st') = scanner (client st) /\ world st' = world st.
Proof.
  intros (cn & Hcn & Hall).
  unfold setDeadline, Conn_SetDeadline, onConn. rewrite Hcn.
  assert (Hhd : hd None (deadlines cn) = None)
    by (destruct Hall as [|r rs Hr _]; [reflexivity | now subst r]).
  rewrite Hhd. eexists. split; [reflexivity|].
  split; [|split; reflexivity].
  eexists. split; [reflexivity|]. cbn.
  destruct Hall; [constructor | assumption].
Qed.

(** Whatever the script, a refresh on a connected client returns, and
    leaves the client connected and the scanner alone. *)
Lemma setDeadline_connected st :
  conn (client st) <> None ->
  exists r st',
    setDeadline st = (result r, st') /\ conn (client st') <> None /\
    scanner (client st') = scanner (client st) /\ world st' = world st.
Proof.
  intros Hcn. unfold setDeadline, Conn_SetDeadline, onConn.
  destruct (conn (client st)) as [cn|]; [|congruence].
  do 2 eexists. split; [reflexivity|]. repeat split. discriminate.
Qed.

Lemma pending_scanner st st' :
  scanner (client st') = scanner (client st) -> pending st' = pending st.
Proof. unfold pending. now intros ->. Qed.

Lemma readError_scanner st st' :
  scanner (client st') = scanner (client st) -> readError st' = readError st.
Proof. unfold readError. now intros ->. Qed.

Lemma stopError_scanner st st' :
  scanner (client st') = scanner (client st) -> stopError st' = stopError st.
Proof. unfold stopError, tooLong, readError. now intros ->. Qed.

(** ** The content lines *)

(** With enough lines pending the loop takes the first [n]. *)
Lemma collectLines_enough n : forall st lines,
  deadlinesHold st -> (n <= List.length (pending st))%nat ->
  exists st',
    collectLines n lines st = (Val (lines ++ firstn n (pending st)), st') /\
    pending st' = skipn n (pending st) /\ deadlinesHold st'.
Proof.
  induction n as [|n IH]; intros st lines Hd Hn.
  - exists st. cbn. now rewrite app_nil_r.
  - destruct (pending st) as [|t ts] eqn:Hp; [cbn in Hn; lia|].
    destruct (Scan_next _ _ _ Hp) as (st1 & HS & Ht & Hp1 & _ & Hc1 & Hw1 & _).
    assert (Hd1 : deadlinesHold st1)
      by (destruct Hd as (cn & ? & ?); exists cn; split; congruence).
    destruct (setDeadline_holds _ Hd1) as (st2 & HD & Hd2 & Hs2 & _).
    destruct (IH st2 (lines ++ [t]) Hd2) as (st3 & HC & Hp3 & Hd3).
    { rewrite (pending_scanner _ _ Hs2), Hp1. cbn in Hn. lia. }
    exists st3. cbn [collectLines]. step HS. step (Text_token st1).
    step HD. rewrite Ht, HC.
    rewrite (pending_scanner _ _ Hs2), Hp1 in *.
    cbn [firstn skipn]. rewrite <- app_assoc. auto.
Qed.

(** With too few lines pending the loop takes them all and stops on the
    end of the stream, or on a line too long. *)
Lemma collectLines_short n : forall st lines,
  deadlinesHold st -> done (scanner (client st)) = false ->
  (List.length (pending st) < n)%nat ->
  exists st',
    collectLines n lines st = (Val (lines ++ pending st), st') /\
    serr (scanner (client st')) = stopError st.
Proof.
  induction n as [|n IH]; intros st lines Hd Hdn Hn; [lia|].
  destruct (pending st) as [|t ts] eqn:Hp.
  - destruct (Scan_end _ Hp Hdn) as (st1 & HS & He & _).
    exists st1. cbn [collectLines]. step HS.
    now rewrite app_nil_r.
  - destruct (Scan_next _ _ _ Hp) as
      (st1 & HS & Ht & Hp1 & Hdn1 & Hc1 & Hw1 & Hr1 & Ht1).
    assert (Hd1 : deadlinesHold st1)
      by (destruct Hd as (cn & ? & ?); exists cn; split; congruence).
    destruct (setDeadline_holds _ Hd1) as (st2 & HD & Hd2 & Hs2 & _).
    destruct (IH st2 (lines ++ [t]) Hd2) as (st3 & HC & He).
    { now rewrite Hs2. }
    { rewrite (pending_scanner _ _ Hs2), Hp1. cbn in Hn. lia. }
    exists st3. cbn [collectLines]. step HS. step (Text_token st1).
    step HD. rewrite Ht, HC.
    rewrite (pending_scanner _ _ Hs2), Hp1.
    rewrite (stopError_scanner _ _ Hs2), (stopError_kept _ _ Hr1 Ht1) in He.
    rewrite <- app_assoc. auto.
Qed.

(** Whatever the deadlines do, the loop never panics on a connected
    client and never returns more lines than were pending. *)
Lemma collectLines_bound n : forall st lines out st',
  conn (client st) <> None ->
  collectLines n lines st = (out, st') ->
  match out with
  | Val ls => (List.length ls <= List.length lines + List.length (pending st))%nat
  | Fail _ => True
  | Panic => False
  end.
Proof.
  induction n as [|n IH]; intros st lines out st' Hcn.
  - cbn. intros [= <- _]. lia.
  - cbn [collectLines].
    destruct (Scan_cases st) as
      [(t & ts & st1 & Hp & HS & Ht & Hp1 & _ & Hc1 & _)
      |(Hp & st1 & HS & _)]; step HS.
    + step (Text_token st1).
      assert (Hcn1 : conn (client st1) <> None) by congruence.
      destruct (setDeadline_connected _ Hcn1) as (r & st2 & HD & Hcn2 & Hs2 & _).
      destruct r as [e|]; cbn [result] in HD; step HD.
      * now intros [= <- _].
      * intros HC. apply IH in HC; [|assumption].
        destruct out as [ls| |]; [|exact I|exact HC].
        rewrite (pending_scanner _ _ Hs2), Hp1, length_app in HC.
        rewrite Hp. cbn in *. lia.
    + intros [= <- _]. lia.
Qed.

(** ** The status line *)

Lemma span_app_run p a b :
  allb p a = true ->
  span p (a ++ b)%string = ((a ++ fst (span p b))%string, snd (span p b)).
Proof.
  induction a as [|c a IH]; cbn.
  - intros _. now destruct (span p b).
  - intros H. apply andb_true_iff in H as [Hc Ha].
    rewrite Hc, (IH Ha). reflexivity.
Qed.

Lemma isDigit_not_minus d : isDigit d = true -> Ascii.eqb "-" d = false.
Proof.
  intros Hd. destruct (Ascii.eqb "-" d) eqn:E; [|reflexivity].
  apply Ascii.eqb_eq in E. subst d. discriminate.
Qed.

(** The digits, the white space and the rest, once the sign is gone. *)
Lemma splitHeader_body ds ws rest :
  ds <> EmptyString -> allb isDigit ds = true ->
  ws <> EmptyString -> allb isSpace ws = true ->
  allb notNewline rest = true ->
  exists ws' rest',
    span isDigit (ds ++ ws ++ rest)%string = (ds, (ws ++ rest)%string) /\
    span isSpace (ws ++ rest)%string = (ws', rest') /\
    ws' <> EmptyString /\ allb notNewline rest' = true.
Proof.
  intros Hds Hd Hws Hw Hr.
  exists (ws ++ fst (span isSpace rest))%string, (snd (span isSpace rest)).
  repeat split.
  - rewrite (span_app_run _ _ _ Hd).
    destruct ws as [|w ws]; [congruence|]. cbn in Hw |- *.
    apply andb_true_iff in Hw as [Hw _].
    destruct (isDigit w) eqn:E;
      [apply isDigit_not_isSpace in E; congruence|].
    cbn. now rewrite app_empty_r.
  - now apply span_app_run.
  - destruct ws; [congruence | discriminate].
  - rewrite (span_app isSpace rest), allb_app in Hr.
    now apply andb_true_iff in Hr as [_ Hr].
Qed.

(** On a line without line feed, [respRe] matches exactly the lines of
    the shape integer, white space, rest. *)
Lemma HeaderShape_splitHeader l :
  allb notNewline l = true -> HeaderShape l -> splitHeader l <> None.
Proof.
  intros Hl (num & ws & rest & -> & (ds & Hds & Hd & Hnum) & Hws & Hw).
  assert (Hr : allb notNewline rest = true).
  { rewrite !allb_app in Hl.
    apply andb_true_iff in Hl as [_ Hl].
    now apply andb_true_iff in Hl as [_ Hl]. }
  destruct (splitHeader_body ds ws rest Hds Hd Hws Hw Hr)
    as (ws' & rest' & Hsd & Hss & Hws' & Hr').
  unfold splitHeader.
  destruct Hnum as [-> | ->].
  - destruct ds as [|d ds]; [congruence|].
    cbn [String.append]. cbn in Hd.
    apply andb_true_iff in Hd as [Hd0 Hd].
    rewrite (isDigit_not_minus _ Hd0).
    change (String d (ds ++ ws ++ rest))%string
      with (String d ds ++ ws ++ rest)%string.
    rewrite Hsd, Hss. destruct ws'; [congruence|].
    now rewrite Hr'.
  - cbn [String.append Ascii.eqb Bool.eqb].
    rewrite Hsd, Hss. destruct ds; [congruence|]. destruct ws'; [congruence|].
    now rewrite Hr'.
Qed.

Lemma splitHeader_HeaderShape l num rest :
  splitHeader l = Some (num, rest) -> HeaderShape l /\ IsInteger num.
Proof.
  unfold splitHeader.
  set (sgn := match l with
              | EmptyString => (EmptyString, l)
              | String c s' =>
                  if Ascii.eqb "-" c then ("-"%string, s') else (EmptyString, l)
              end).
  assert (Hsgn : l = (fst sgn ++ snd sgn)%string /\
                 (fst sgn = EmptyString \/ fst sgn = "-"%string)).
  { subst sgn. destruct l as [|c s]; [now auto|].
    destruct (Ascii.eqb "-" c) eqn:E; [|now auto].
    apply Ascii.eqb_eq in E. subst c. now auto. }
  destruct sgn as [sign s1]. cbn [fst snd] in Hsgn. destruct Hsgn as [Hl Hsign].
  pose proof (span_app isDigit s1) as Hs1.
  pose proof (span_allb isDigit s1) as Hd.
  destruct (span isDigit s1) as [ds s2]. cbn [fst snd] in *.
  pose proof (span_app isSpace s2) as Hs2.
  pose proof (span_allb isSpace s2) as Hw.
  destruct (span isSpace s2) as [ws rest']. cbn [fst snd] in *.
  destruct ds as [|d ds]; [discriminate|].
  destruct ws as [|w ws]; [discriminate|].
  destruct (allb notNewline rest'); [|discriminate].
  intros [= <- <-].
  assert (Hint : IsInteger (sign ++ String d ds)%string).
  { exists (String d ds). split; [discriminate|]. split; [assumption|].
    destruct Hsign as [-> | ->]; [now left | now right]. }
  split; [|assumption].
  exists (sign ++ String d ds)%string, (String w ws), rest'.
  split; [|split; [assumption|split; [discriminate|assumption]]].
  rewrite Hl, Hs1, Hs2.
  destruct Hsign as [-> | ->]; reflexivity.
Qed.

(** For the lines a scanner delivers, the shape and the match of
    [respRe] are the same thing. *)
Lemma respRe_matches_shape l :
  allb notNewline l = true ->
  HeaderShape l <-> FindStringSubmatch respRe l <> [].
Proof.
  intros Hl. rewrite respRe_splitHeader. split.
  - intros H. apply (HeaderShape_splitHeader _ Hl) in H.
    destruct (splitHeader l) as [[num rest]|]; [discriminate | congruence].
  - destruct (splitHeader l) as [[num rest]|] eqn:Hs; [|congruence].
    intros _. now apply splitHeader_HeaderShape in Hs.
Qed.

(** ** The reply decoder *)

Lemma ExecCmd_sent c st st1 :
  sendCmd c st = (Val tt, st1) -> ExecCmd c st = readReply st1.
Proof. intros H. unfold ExecCmd. now step H. Qed.

(** Once the command is sent the client is connected. *)
Lemma sendCmd_connected c st st1 :
  sendCmd c st = (Val tt, st1) -> conn (client st1) <> None.
Proof.
  unfold sendCmd, writeCmd, bind.
  destruct (setDeadline st) as [[[]| |] sa]; try discriminate.
  destruct (writeLoop (Cmd_String c) sa) as [[[]| |] sb]; try discriminate.
  destruct (Printf _ _ sb) as [[[]| |] sc]; try discriminate.
  unfold setDeadline, Conn_SetDeadline, onConn.
  destruct (conn (client sc)); [|discriminate].
  intros [= _ <-]. discriminate.
Qed.

Lemma readReply_scanned st header more :
  pending st = header :: more ->
  exists st1,
    readReply st = decodeStatus header st1 /\
    pending st1 = more /\ done (scanner (client st1)) = false /\
    conn (client st1) = conn (client st) /\ world st1 = world st /\
    stopError st1 = stopError st.
Proof.
  intros Hp.
  destruct (Scan_next _ _ _ Hp) as
    (st1 & HS & Ht & Hp1 & Hdn & Hc & Hw & Hr & Htl).
  pose proof (stopError_kept _ _ Hr Htl) as Hse.
  exists st1. split; [|auto 6].
  unfold readReply. step HS. cbn [negb]. step (Text_token st1).
  now rewrite Ht.
Qed.

Lemma scanErr_value st :
  scanErr st =
  (Val match serr (scanner (client st)) with
       | Some e => e
       | None => io_ErrUnexpectedEOF
       end, st).
Proof.
  unfold scanErr, Err, bind, ret. now destruct (serr (scanner (client st))).
Qed.

(** [make] on a client that is connected or not: the state is left
    alone. *)
Lemma makeLines_ok st cnt :
  allocates st cnt -> makeLines cnt st = (Val tt, st).
Proof.
  intros [Hc Hr]. unfold makeLines.
  destruct (Z.gtb_spec cnt maxSliceCap); [lia|].
  destruct (Z.gtb_spec cnt (room (world st))); [lia|]. reflexivity.
Qed.

Lemma makeLines_panics st cnt :
  ~ allocates st cnt -> makeLines cnt st = (Panic, st).
Proof.
  intros H. unfold makeLines.
  destruct (Z.gtb_spec cnt maxSliceCap); [reflexivity|].
  destruct (Z.gtb_spec cnt (room (world st))); [reflexivity|].
  exfalso. apply H. split; lia.
Qed.

Lemma makeLines_cases st cnt :
  (allocates st cnt /\ makeLines cnt st = (Val tt, st)) \/
  (~ allocates st cnt /\ makeLines cnt st = (Panic, st)).
Proof.
  unfold makeLines, allocates.
  destruct (Z.gtb_spec cnt maxSliceCap); [right; split; [lia | reflexivity]|].
  destruct (Z.gtb_spec cnt (room (world st)));
    [right; split; [lia | reflexivity] | left; split; [lia | reflexivity]].
Qed.

Lemma allocates_world st st' cnt :
  world st' = world st -> allocates st cnt -> allocates st' cnt.
Proof. unfold allocates. now intros ->. Qed.

(** C1 (as amended).  For a status line with a count [cnt >= 0], when
    the memory has room for [cnt] lines and at least [cnt] further lines
    arrive, each short enough for the scanner: the result of [ExecCmd]
    is the trailing text of the status line alone for [cnt = 0], and for
    [cnt > 0] exactly the [cnt] lines that follow the status line, in
    order, without the trailing text of the status line; the lines after
    them stay in the stream. *)
Theorem ExecCmd_content_lines c st st1 header more num rest cnt :
  sendCmd c st = (Val tt, st1) ->
  deadlinesHold st1 ->
  pending st1 = header :: more ->
  FindStringSubmatch respRe header = [header; num; rest] ->
  Atoi num = inl cnt ->
  0 <= cnt ->
  allocates st1 cnt ->
  (Z.to_nat cnt <= List.length more)%nat ->
  exists st2,
    ExecCmd c st =
      (Val (if cnt =? 0 then [rest] else firstn (Z.to_nat cnt) more), st2) /\
    pending st2 = skipn (Z.to_nat cnt) more.
Proof.
  intros Hsent Hd Hp Hm Ha Hcnt Hal Hlen.
  rewrite (ExecCmd_sent _ _ _ Hsent).
  destruct (readReply_scanned _ _ _ Hp) as (sa & -> & Hpa & _ & Hca & Hwa & _).
  assert (Hda : deadlinesHold sa)
    by (destruct Hd as (cn & ? & ?); exists cn; split; congruence).
  unfold decodeStatus. rewrite Hm. cbn [List.length Nat.eqb negb nth].
  rewrite Ha.
  destruct (cnt <? 0) eqn:Hneg; [apply Z.ltb_lt in Hneg; lia|].
  destruct (cnt =? 0) eqn:Hzero.
  - apply Z.eqb_eq in Hzero. subst cnt. exists sa. now split.
  - apply Z.eqb_neq in Hzero.
    destruct (setDeadline_holds _ Hda) as (sb & HD & Hdb & Hsb & Hwb).
    assert (Hmk : makeLines cnt sb = (Val tt, sb)).
    { apply makeLines_ok. apply (allocates_world st1); [congruence | assumption]. }
    destruct (collectLines_enough (Z.to_nat cnt) sb [] Hdb) as (sc & HC & Hpc & _).
    { now rewrite (pending_scanner _ _ Hsb), Hpa. }
    rewrite (pending_scanner _ _ Hsb), Hpa in HC, Hpc.
    exists sc. step HD. step Hmk. step HC. cbn [app].
    rewrite firstn_length_le by assumption.
    rewrite Z2Nat.id, Z.eqb_refl by assumption. now split.
Qed.

(** C2 (as amended).  For a status line with a positive count [cnt]
    followed by fewer than [cnt] lines before the stream ends, or before
    a line too long for the scanner, when the memory has room for [cnt]
    lines: [ExecCmd] fails, it never returns the lines it has read; when
    the deadline refreshes succeed the error is, as it is and not
    wrapped, the error of the read that ended the stream,
    [io.ErrUnexpectedEOF] when the stream was closed cleanly, and
    [bufio.ErrTooLong] when a line was too long. *)
Theorem ExecCmd_short_reply c st st1 header more num rest cnt :
  sendCmd c st = (Val tt, st1) ->
  pending st1 = header :: more ->
  FindStringSubmatch respRe header = [header; num; rest] ->
  Atoi num = inl cnt ->
  (List.length more < Z.to_nat cnt)%nat ->
  allocates st1 cnt ->
  (exists e, fst (ExecCmd c st) = Fail e) /\
  (deadlinesHold st1 ->
   fst (ExecCmd c st) =
   Fail match stopError st1 with
        | Some e => e
        | None => io_ErrUnexpectedEOF
        end).
Proof.
  intros Hsent Hp Hm Ha Hlen Hal.
  pose proof (sendCmd_connected _ _ _ Hsent) as Hcn.
  rewrite (ExecCmd_sent _ _ _ Hsent).
  destruct (readReply_scanned _ _ _ Hp) as
    (sa & -> & Hpa & Hdn & Hca & Hwa & Hra).
  unfold decodeStatus. rewrite Hm. cbn [List.length Nat.eqb negb nth].
  rewrite Ha.
  destruct (cnt <? 0) eqn:Hneg; [apply Z.ltb_lt in Hneg; lia|].
  destruct (cnt =? 0) eqn:Hzero; [apply Z.eqb_eq in Hzero; lia|].
  split.
  - assert (Hcna : conn (client sa) <> None) by congruence.
    destruct (setDeadline_connected _ Hcna) as (r & sb & HD & Hcnb & Hsb & Hwb).
    destruct r as [e|]; cbn [result] in HD; step HD; [now exists e|].
    assert (Hmk : makeLines cnt sb = (Val tt, sb)).
    { apply makeLines_ok. apply (allocates_world st1); [congruence | assumption]. }
    step Hmk.
    destruct (collectLines (Z.to_nat cnt) [] sb) as [out sc] eqn:HC.
    pose proof (collectLines_bound _ _ _ _ _ Hcnb HC) as Hb.
    destruct out as [ls|e|]; [|step HC; now exists e|contradiction].
    step HC. rewrite (pending_scanner _ _ Hsb), Hpa in Hb. cbn in Hb.
    replace (Z.of_nat (List.length ls) =? cnt) with false
      by (symmetry; apply Z.eqb_neq; lia).
    cbn [negb]. step (scanErr_value sc). now eexists.
  - intros Hd.
    assert (Hda : deadlinesHold sa)
      by (destruct Hd as (cn & ? & ?); exists cn; split; congruence).
    destruct (setDeadline_holds _ Hda) as (sb & HD & Hdb & Hsb & Hwb).
    assert (Hmk : makeLines cnt sb = (Val tt, sb)).
    { apply makeLines_ok. apply (allocates_world st1); [congruence | assumption]. }
    destruct (collectLines_short (Z.to_nat cnt) sb [] Hdb) as (sc & HC & He).
    { now rewrite Hsb. }
    { now rewrite (pending_scanner _ _ Hsb), Hpa. }
    step HD. step Hmk. step HC. rewrite (pending_scanner _ _ Hsb), Hpa. cbn [app].
    replace (Z.of_nat (List.length more) =? cnt) with false
      by (symmetry; apply Z.eqb_neq; lia).
    cbn [negb]. step (scanErr_value sc).
    now rewrite He, (stopError_scanner _ _ Hsb), Hra.
Qed.

(** C3 (as amended).  For a status line whose integer fits in an [int]
    and is negative, [code], [ExecCmd] returns the protocol error built
    from [code] and from the trailing text of the status line, and
    [errors.As] finds this code and this message in it; no line is
    returned and none is read after the status line.  (For a negative
    integer that does not fit in an [int], see
    [ExecCmd_status_out_of_range].) *)
Theorem ExecCmd_negative_status c st st1 header more num msg code :
  sendCmd c st = (Val tt, st1) ->
  pending st1 = header :: more ->
  FindStringSubmatch respRe header = [header; num; msg] ->
  Atoi num = inl code ->
  code < 0 ->
  fst (ExecCmd c st) = Fail (NewError code msg) /\
  errors_As_RrdError (NewError code msg) = Some (code, msg) /\
  pending (snd (ExecCmd c st)) = more.
Proof.
  intros Hsent Hp Hm Ha Hneg.
  rewrite (ExecCmd_sent _ _ _ Hsent).
  destruct (readReply_scanned _ _ _ Hp) as (sa & -> & Hpa & _).
  unfold decodeStatus. rewrite Hm. cbn [List.length Nat.eqb negb nth].
  rewrite Ha. apply Z.ltb_lt in Hneg. rewrite Hneg. now repeat split.
Qed.

(** A status line whose numeral does not fit in an [int] has no parsed
    integer: [Atoi] fails and [ExecCmd] returns the conversion error. *)
Example ExecCmd_status_out_of_range :
  fst (ExecCmd (NewCmd "flush")
         (connected ("-99999999999999999999 oops" ++ LF)%string)) =
  Fail (ErrorfW "failed to convert to int '%s': %w"
          [AString "-99999999999999999999"]
          (NumError "Atoi" "-99999999999999999999" ErrRange)).
Proof. vm_compute; reflexivity. Qed.

(** C4.  For a first reply line that is not of the shape integer
    (with an optional minus sign), white space, rest, [ExecCmd] fails
    with the error of a malformed reply, which quotes the line and
    holds no protocol error, hence no status code of the daemon.  The
    first reply line is the first line the scanner delivers.  A first
    line of [MaxScanTokenSize] bytes or more is not delivered, whatever
    its shape: [ExecCmd] fails with the scan error that wraps
    [bufio.ErrTooLong], which holds no protocol error either. *)
Theorem ExecCmd_malformed_status c st st1 :
  sendCmd c st = (Val tt, st1) ->
  (forall header more,
     pending st1 = header :: more ->
     ~ HeaderShape header ->
     fst (ExecCmd c st) =
       Fail (Errorf "not 3 matches: '%s'" [AString header]) /\
     errors_As_RrdError (Errorf "not 3 matches: '%s'" [AString header])
       = None) /\
  (pending st1 = [] -> tooLong st1 = true ->
   fst (ExecCmd c st) = Fail (ErrorfW "scan error: %w" [] ErrTooLong) /\
   errors_As_RrdError (ErrorfW "scan error: %w" [] ErrTooLong) = None).
Proof.
  intros Hsent. rewrite (ExecCmd_sent _ _ _ Hsent). split.
  - intros header more Hp Hshape.
    destruct (readReply_scanned _ _ _ Hp) as (sa & -> & _).
    unfold decodeStatus. rewrite respRe_splitHeader.
    destruct (splitHeader header) as [[num rest]|] eqn:Hs.
    + exfalso. apply Hshape. now apply splitHeader_HeaderShape in Hs.
    + now split.
  - intros Hp Htl. split; [|reflexivity].
    assert (Hdn : done (scanner (client st1)) = false).
    { unfold tooLong in Htl. destruct (done _); [discriminate | reflexivity]. }
    destruct (Scan_end _ Hp Hdn) as (sa & HS & He & _).
    unfold readReply. step HS. cbn [negb]. step (scanErr_value sa).
    unfold throw. cbn [fst]. rewrite He. unfold stopError. now rewrite Htl.
Qed.

(** ** The write loop *)

(** One turn of the loop, and the loop again when the turn asks for it. *)
Lemma writeLoop_turn data st :
  writeLoop data st =
  match writeAttempt data st with
  | (Val true, st') => writeLoop data st'
  | (Val false, st') => (Val tt, st')
  | (Fail e, st') => (Fail e, st')
  | (Panic, st') => (Panic, st')
  end.
Proof.
  rewrite writeLoop_equation_1. unfold inspect.
  assert (H : forall r (Heq : writeAttempt data st = r),
             writeLoop_unfold_clause_1 data st (exist _ r Heq) =
             match r with
             | (Val true, st') => writeLoop data st'
             | (Val false, st') => (Val tt, st')
             | (Fail e, st') => (Fail e, st')
             | (Panic, st') => (Panic, st')
             end)
    by (intros [[[|]|e|] st'] Heq; reflexivity).
  apply H.
Qed.

(** ** Fields of an info line *)

Lemma cut_field sep a b :
  allb (fun c => negb (Ascii.eqb c sep)) a = true ->
  cut sep (a ++ String sep b)%string = Some (a, b).
Proof.
  induction a as [|c a IH]; cbn.
  - now rewrite Ascii.eqb_refl.
  - intros H. apply andb_true_iff in H as [Hc Ha].
    apply negb_true_iff in Hc. now rewrite Hc, (IH Ha).
Qed.

Lemma cut_Some sep s a b :
  cut sep s = Some (a, b) ->
  s = (a ++ String sep b)%string /\
  allb (fun c => negb (Ascii.eqb c sep)) a = true.
Proof.
  revert a. induction s as [|c s IH]; intros a; cbn; [discriminate|].
  destruct (Ascii.eqb c sep) eqn:E.
  - apply Ascii.eqb_eq in E. subst c. now intros [= <- <-].
  - destruct (cut sep s) as [[a' b']|]; [|discriminate].
    intros [= <- <-]. destruct (IH a' eq_refl) as [-> Ha].
    cbn. now rewrite E.
Qed.

Lemma cut_None sep s : cut sep s = None -> count sep s = 0%nat.
Proof.
  induction s as [|c s IH]; cbn; [reflexivity|].
  destruct (Ascii.eqb c sep); [discriminate|].
  destruct (cut sep s) as [[a b]|]; [discriminate|]. auto.
Qed.

Lemma count_app sep a b : count sep (a ++ b)%string = (count sep a + count sep b)%nat.
Proof. induction a as [|c a IH]; cbn; [reflexivity|]. rewrite IH. lia. Qed.

Lemma count_field sep a :
  allb (fun c => negb (Ascii.eqb c sep)) a = true -> count sep a = 0%nat.
Proof.
  induction a as [|c a IH]; cbn; [reflexivity|].
  intros H. apply andb_true_iff in H as [Hc Ha].
  apply negb_true_iff in Hc. rewrite Hc. now apply IH.
Qed.

Lemma count_sep sep b : count sep (String sep b) = S (count sep b).
Proof. cbn [count]. now rewrite Ascii.eqb_refl. Qed.

(** Three parts come out of exactly the lines key, space, tag, space,
    rest, where key and tag have no space. *)
Lemma SplitN_fields key tag raw :
  isField key = true -> isField tag = true ->
  SplitN (key ++ " " ++ tag ++ " " ++ raw)%string " " 3 = [key; tag; raw].
Proof.
  intros Hk Ht. cbn [SplitN].
  change (key ++ " " ++ tag ++ " " ++ raw)%string
    with (key ++ String " " (tag ++ String " " raw))%string.
  now rewrite (cut_field _ _ _ Hk), (cut_field _ _ _ Ht).
Qed.

Lemma SplitN_three line key tag raw :
  SplitN line " " 3 = [key; tag; raw] ->
  line = (key ++ " " ++ tag ++ " " ++ raw)%string /\
  isField key = true /\ isField tag = true.
Proof.
  cbn [SplitN].
  destruct (cut " " line) as [[a b]|] eqn:Ha; [|discriminate].
  destruct (cut " " b) as [[a' b']|] eqn:Hb; [|discriminate].
  intros [= <- <- <-].
  apply cut_Some in Ha as [-> Hk]. apply cut_Some in Hb as [-> Ht].
  now repeat split.
Qed.

Lemma SplitN_few line :
  (count " " line < 2)%nat <-> List.length (SplitN line " " 3) <> 3%nat.
Proof.
  cbn [SplitN].
  destruct (cut " " line) as [[a b]|] eqn:Ha.
  - apply cut_Some in Ha as [-> Hk].
    rewrite count_app, (count_field _ _ Hk), count_sep.
    destruct (cut " " b) as [[a' b']|] eqn:Hb.
    + apply cut_Some in Hb as [-> Ht].
      rewrite count_app, count_sep. cbn [List.length].
      split; [lia|congruence].
    + rewrite (cut_None _ _ Hb). cbn. split; [congruence|lia].
  - rewrite (cut_None _ _ Ha). cbn. split; [congruence|lia].
Qed.

Lemma Sprintf_key key :
  Sprintf "info: invalid int for key %v" [key] =
    ("info: invalid int for key " ++ key)%string /\
  Sprintf "info: invalid float for key %v" [key] =
    ("info: invalid float for key " ++ key)%string.
Proof. cbn. now rewrite app_empty_r. Qed.

Lemma Sprintf_tag_key tag key :
  Sprintf "info: unknown type %v for key %v" [tag; key] =
  ("info: unknown type " ++ tag ++ " for key " ++ key)%string.
Proof. cbn. now rewrite app_empty_r. Qed.

Section InfoProperties.
Variable ParseFloat : string -> float64 + error.

(** The loop body accepts exactly the well-formed lines ... *)
Lemma decodeLine_Decodes line info :
  decodeLine ParseFloat line = inl info <-> Decodes ParseFloat line info.
Proof.
  split.
  - unfold decodeLine.
    destruct (SplitN line " " 3) as [|key [|tag [|raw [|? ?]]]] eqn:Hs;
      try discriminate.
    apply SplitN_three in Hs as (-> & Hk & Ht).
    cbn [List.length Nat.eqb negb nth].
    destruct (String.eqb tag "2") eqn:E2.
    { apply String.eqb_eq in E2. subst tag. intros [= <-].
      now apply Decodes_string. }
    destruct (String.eqb tag "1") eqn:E1.
    { apply String.eqb_eq in E1. subst tag.
      destruct (ParseInt raw) as [v|e] eqn:Hp; [|discriminate].
      intros [= <-]. now apply Decodes_int. }
    destruct (String.eqb tag "0") eqn:E0; [|discriminate].
    apply String.eqb_eq in E0. subst tag.
    destruct (ParseFloat raw) as [v|e] eqn:Hp; [|discriminate].
    intros [= <-]. now apply Decodes_float.
  - intros [key raw Hk|key raw v Hk Hp|key raw v Hk Hp]; unfold decodeLine.
    + rewrite (SplitN_fields key "2" raw Hk eq_refl
               : SplitN (key ++ " 2 " ++ raw)%string " " 3 = _). reflexivity.
    + rewrite (SplitN_fields key "1" raw Hk eq_refl
               : SplitN (key ++ " 1 " ++ raw)%string " " 3 = _). cbn. now rewrite Hp.
    + rewrite (SplitN_fields key "0" raw Hk eq_refl
               : SplitN (key ++ " 0 " ++ raw)%string " " 3 = _). cbn. now rewrite Hp.
Qed.

(** ... and rejects exactly the malformed ones, each with its error. *)
Lemma decodeLine_Rejects line e :
  decodeLine ParseFloat line = inr e <-> Rejects ParseFloat line e.
Proof.
  split.
  - unfold decodeLine.
    destruct (Nat.eqb (List.length (SplitN line " " 3)) 3) eqn:Hlen; cbn [negb].
    + apply Nat.eqb_eq in Hlen.
      destruct (SplitN line " " 3) as [|key [|tag [|raw [|? ?]]]] eqn:Hs;
        try discriminate.
      apply SplitN_three in Hs as (-> & Hk & Ht). cbn [nth].
      rewrite (proj1 (Sprintf_key key)), (proj2 (Sprintf_key key)),
        Sprintf_tag_key.
      destruct (String.eqb tag "2") eqn:E2; [discriminate|].
      destruct (String.eqb tag "1") eqn:E1.
      { apply String.eqb_eq in E1. subst tag.
        destruct (ParseInt raw) as [v|e'] eqn:Hp; [discriminate|].
        intros H. injection H as <-.
        eapply Rejects_int; eassumption. }
      destruct (String.eqb tag "0") eqn:E0.
      { apply String.eqb_eq in E0. subst tag.
        destruct (ParseFloat raw) as [v|e'] eqn:Hp; [discriminate|].
        intros H. injection H as <-.
        eapply Rejects_float; eassumption. }
      intros H. injection H as <-.
      apply String.eqb_neq in E2, E1, E0. now apply Rejects_tag.
    + apply Nat.eqb_neq in Hlen. intros [= <-].
      apply Rejects_fields. now apply SplitN_few.
  - intros [l Hl|key tag raw Hk Ht H2 H1 H0|key raw e' Hk Hp|key raw e' Hk Hp];
      unfold decodeLine.
    + apply SplitN_few, Nat.eqb_neq in Hl. now rewrite Hl.
    + rewrite (SplitN_fields key tag raw Hk Ht).
      cbn [List.length Nat.eqb negb nth].
      apply String.eqb_neq in H2, H1, H0. rewrite H2, H1, H0.
      now rewrite Sprintf_tag_key.
    + rewrite (SplitN_fields key "1" raw Hk eq_refl
               : SplitN (key ++ " 1 " ++ raw)%string " " 3 = _). cbn [List.length Nat.eqb negb nth String.eqb Ascii.eqb Bool.eqb].
      rewrite Hp. now rewrite (proj1 (Sprintf_key key)).
    + rewrite (SplitN_fields key "0" raw Hk eq_refl
               : SplitN (key ++ " 0 " ++ raw)%string " " 3 = _). cbn [List.length Nat.eqb negb nth String.eqb Ascii.eqb Bool.eqb].
      rewrite Hp. now rewrite (proj2 (Sprintf_key key)).
Qed.

Lemma decodeLines_Decodes lines data :
  Forall2 (Decodes ParseFloat) lines data ->
  decodeLines ParseFloat lines = inl data.
Proof.
  induction 1 as [|line info lines data Hd _ IH]; cbn; [reflexivity|].
  apply decodeLine_Decodes in Hd. now rewrite Hd, IH.
Qed.

(** A malformed line stops the loop at the first of them. *)
Lemma decodeLines_Rejects lines :
  Exists (fun l => exists e, Rejects ParseFloat l e) lines ->
  exists good bad more e,
    lines = good ++ bad :: more /\
    Forall (fun l => exists info, Decodes ParseFloat l info) good /\
    Rejects ParseFloat bad e /\
    decodeLines ParseFloat lines = inr e.
Proof.
  induction lines as [|line lines IH]; intros Hex; [inversion Hex|].
  destruct (decodeLine ParseFloat line) as [info|e] eqn:Hd.
  - assert (Hrest : Exists (fun l => exists e, Rejects ParseFloat l e) lines).
    { inversion Hex as [? ? (e & He)|]; subst; [|assumption].
      apply decodeLine_Rejects in He. congruence. }
    destruct (IH Hrest) as (good & bad & more & e & -> & Hg & Hb & HD).
    exists (line :: good), bad, more, e. repeat split; try assumption.
    + constructor; [|assumption]. exists info. now apply decodeLine_Decodes.
    + cbn. now rewrite Hd, HD.
  - exists [], line, lines, e. repeat split.
    + constructor.
    + now apply decodeLine_Rejects.
    + cbn. now rewrite Hd.
Qed.

Lemma Info_lines filename st lines st' :
  ExecCmd (WithArgs (NewCmd "info") [filename]) st = (Val lines, st') ->
  Info ParseFloat filename st =
  match decodeLines ParseFloat lines with
  | inr e => (Fail e, st')
  | inl data => (Val data, st')
  end.
Proof.
  intros HE. unfold Info.
  assert (HW : wrapError
                 (ErrorfW "failed to get info for '%s': %w" [AString filename])
                 (ExecCmd (WithArgs (NewCmd "info") [filename])) st =
               (Val lines, st'))
    by (unfold wrapError; now rewrite HE).
  step HW. now destruct (decodeLines ParseFloat lines).
Qed.
End InfoProperties.

(** C5.  When every line of the reply is a well-formed info line (key,
    type tag, raw value), [Info] returns one entry per line, in order:
    tag 2 gives the raw text after the second field unchanged as a
    string, tag 1 the raw value parsed by [strconv.ParseInt], tag 0 the
    raw value parsed by [strconv.ParseFloat].  In particular "-42"
    under tag 1 is the integer -42, "3.5" under tag 0 is the float the
    library returns for "3.5", and "rrd file" under tag 2 is the string
    "rrd file".  This holds whatever the float parser of the decoder
    is; with [strconv.ParseFloat], the parser of the code, "3.5" under
    tag 0 is the float 3.5. *)
Theorem Info_decodes_by_tag ParseFloat filename st lines data st' :
  ExecCmd (WithArgs (NewCmd "info") [filename]) st = (Val lines, st') ->
  Forall2 (Decodes ParseFloat) lines data ->
  Info ParseFloat filename st = (Val data, st') /\
  (forall key, isField key = true ->
     decodeLine ParseFloat (key ++ " 1 -42")%string =
       inl (mkInfo key (VInt (-42))) /\
     decodeLine ParseFloat (key ++ " 2 rrd file")%string =
       inl (mkInfo key (VString "rrd file")) /\
     (forall v, ParseFloat "3.5"%string = inl v ->
                decodeLine ParseFloat (key ++ " 0 3.5")%string =
                  inl (mkInfo key (VFloat v))) /\
     strconv_ParseFloat "3.5" = inl float_3_5 /\
     decodeLine strconv_ParseFloat (key ++ " 0 3.5")%string =
       inl (mkInfo key (VFloat float_3_5))).
Proof.
  intros HE HD. split.
  - rewrite (Info_lines _ _ _ _ _ HE).
    now rewrite (decodeLines_Decodes _ _ _ HD).
  - intros key Hk. repeat split.
    + apply decodeLine_Decodes. now apply (Decodes_int _ key "-42" (-42)).
    + apply decodeLine_Decodes. now apply (Decodes_string _ key "rrd file").
    + intros v Hv. apply decodeLine_Decodes.
      now apply (Decodes_float _ key "3.5" v).
    + apply decodeLine_Decodes.
      now apply (Decodes_float _ key "3.5" float_3_5).
Qed.

(** C6.  When some line of the reply is malformed (fewer than three
    fields, an unknown type tag, or a number that does not parse),
    [Info] fails and returns no entries; the error is the one of the
    first malformed line: the malformed-response error for too few
    fields, and otherwise an invalid-response error that names the key
    (and the tag, when the tag is unknown) and holds the line. *)
Theorem Info_rejects_malformed ParseFloat filename st lines st' :
  ExecCmd (WithArgs (NewCmd "info") [filename]) st = (Val lines, st') ->
  Exists (fun l => exists e, Rejects ParseFloat l e) lines ->
  exists good bad more e,
    lines = good ++ bad :: more /\
    Forall (fun l => exists info, Decodes ParseFloat l info) good /\
    Rejects ParseFloat bad e /\
    Info ParseFloat filename st = (Fail e, st').
Proof.
  intros HE Hex.
  destruct (decodeLines_Rejects _ _ Hex) as (good & bad & more & e & Hl & Hg & Hb & HD).
  exists good, bad, more, e. repeat split; try assumption.
  rewrite (Info_lines _ _ _ _ _ HE). now rewrite HD.
Qed.

(** C7 (as amended).  On the request for "/tmp/x.rrd": when the daemon
    replies with a status line that declares two lines, followed by the
    lines "ds[temp].type 2 GAUGE" and "ds[temp].index 1 0", the entries
    are the key "ds[temp].type" with the string "GAUGE" and the key
    "ds[temp].index" with the integer 0; when the whole reply consists
    of the lines "2 ds[temp].type 2 GAUGE" and "ds[temp].index 1 0", the
    first one is the status line, one of the two declared lines is
    missing, and [Info] fails with the wrapped [io.ErrUnexpectedEOF]. *)
Theorem Info_scenario ParseFloat :
  fst (Info ParseFloat "/tmp/x.rrd"
         (connected ("2 Info follows" ++ LF ++ "ds[temp].type 2 GAUGE" ++ LF
                       ++ "ds[temp].index 1 0" ++ LF)%string)) =
  Val [mkInfo "ds[temp].type" (VString "GAUGE");
       mkInfo "ds[temp].index" (VInt 0)] /\
  fst (Info ParseFloat "/tmp/x.rrd"
         (connected ("2 ds[temp].type 2 GAUGE" ++ LF
                       ++ "ds[temp].index 1 0")%string)) =
  Fail (ErrorfW "failed to get info for '%s': %w" [AString "/tmp/x.rrd"]
          io_ErrUnexpectedEOF).
Proof. split; vm_compute; reflexivity. Qed.

(** C7 as stated fails: the reply is one line short. *)
Lemma Info_scenario_refuted : ~ Info_scenario_as_stated.
Proof. unfold Info_scenario_as_stated. vm_compute. discriminate. Qed.

(** C1 as stated fails: after the status line "1 foo" and the line
    "bar", the result is the line "bar" alone. *)
Lemma header_text_first_refuted :
  ~ header_text_first (NewCmd "stats")
      (connected ("1 foo" ++ LF ++ "bar" ++ LF)%string).
Proof.
  intros H.
  specialize (H (snd (sendCmd (NewCmd "stats")
                        (connected ("1 foo" ++ LF ++ "bar" ++ LF)%string)))
                "1 foo"%string ["bar"%string] "1"%string "foo"%string 1).
  assert (Hres : fst (ExecCmd (NewCmd "stats")
                        (connected ("1 foo" ++ LF ++ "bar" ++ LF)%string)) =
                 Val ["bar"%string]) by (vm_compute; reflexivity).
  rewrite Hres in H.
  assert (Hgo : Val ["bar"%string] =
                Val ("foo"%string :: firstn (Z.to_nat 1) ["bar"%string])).
  { apply H.
    - vm_compute; reflexivity.
    - eexists. split; [vm_compute; reflexivity | constructor].
    - vm_compute; reflexivity.
    - vm_compute; reflexivity.
    - vm_compute; reflexivity.
    - lia.
    - cbn. lia. }
  discriminate Hgo.
Qed.

(** C2 as stated fails: when a timeout ends the stream after one of
    the two lines declared, the error of [ExecCmd] is the error of the
    read itself, not an error of its own that wraps it. *)
Lemma short_reply_refuted : ~ short_reply_as_stated.
Proof.
  intros H.
  destruct (H (NewCmd "stats") (stalled shortReply)
              (snd (sendCmd (NewCmd "stats") (stalled shortReply)))
              "2 Statistics follow"%string ["QueueLength: 0"%string]
              "2"%string "Statistics follow"%string 2 readTimeout)
    as (err & He & Hne & _).
  - vm_compute; reflexivity.
  - eexists. split; [vm_compute; reflexivity | constructor].
  - vm_compute; reflexivity.
  - vm_compute; reflexivity.
  - vm_compute; reflexivity.
  - cbn [List.length]. lia.
  - vm_compute. split; discriminate.
  - vm_compute; reflexivity.
  - assert (Hres : fst (ExecCmd (NewCmd "stats") (stalled shortReply)) =
                   Fail readTimeout) by (vm_compute; reflexivity).
    rewrite Hres in He. injection He as <-. now apply Hne.
Qed.

(** C3 as stated fails: the status line "-99999999999999999999 oops"
    starts with a negative integer, which does not fit in an [int], and
    [ExecCmd] returns the conversion error, not a protocol error. *)
Lemma negative_status_refuted : ~ negative_status_as_stated.
Proof.
  intros H.
  specialize (H (NewCmd "flush")
                (connected ("-99999999999999999999 oops" ++ LF)%string)
                (snd (sendCmd (NewCmd "flush")
                        (connected ("-99999999999999999999 oops" ++ LF)%string)))
                "99999999999999999999"%string "oops"%string []).
  assert (Hres : fst (ExecCmd (NewCmd "flush")
                        (connected ("-99999999999999999999 oops" ++ LF)%string)) =
                 Fail (ErrorfW "failed to convert to int '%s': %w"
                         [AString "-99999999999999999999"]
                         (NumError "Atoi" "-99999999999999999999" ErrRange)))
    by (vm_compute; reflexivity).
  rewrite Hres in H.
  assert (Hgo : Fail (A := list string)
                  (ErrorfW "failed to convert to int '%s': %w"
                     [AString "-99999999999999999999"]
                     (NumError "Atoi" "-99999999999999999999" ErrRange)) =
                Fail (NewError (- decimalValue "99999999999999999999") "oops")).
  { apply H.
    - vm_compute; reflexivity.
    - vm_compute; reflexivity.
    - reflexivity.
    - reflexivity.
    - reflexivity. }
  discriminate Hgo.
Qed.

(** ** Writing the command *)

Lemma writeAttempt_ok data st cn :
  conn (client st) = Some cn -> hd None (writes cn) = None ->
  writeAttempt data st =
  (Val false, mkSt (set_conn (client st) (Some (afterWrite cn data))) (world st)).
Proof.
  intros Hcn Hw.
  unfold writeAttempt, bind, catch, Conn_Write, onConn. now rewrite Hcn, Hw.
Qed.

Lemma writeAttempt_other data st cn err :
  conn (client st) = Some cn -> hd None (writes cn) = Some err ->
  isReset err = false ->
  writeAttempt data st =
  (Fail (ErrorfW "failed to write: %w" [] err),
   mkSt (set_conn (client st) (Some (afterWrite cn data))) (world st)).
Proof.
  intros Hcn Hw Hr.
  unfold writeAttempt, bind, catch, Conn_Write, onConn.
  rewrite Hcn, Hw. cbn. now rewrite Hr.
Qed.

Lemma writeAttempt_redial data st cn err cn' ds :
  conn (client st) = Some cn -> hd None (writes cn) = Some err ->
  isReset err = true -> nextDial (world st) = (Dialed cn', ds) ->
  writeAttempt data st = (Val true, reconnected st cn' ds err).
Proof.
  intros Hcn Hw Hr Hd.
  unfold writeAttempt, bind, catch, Conn_Write, onConn.
  rewrite Hcn, Hw. cbn. rewrite Hr.
  unfold Printf, initConnection, bind, DialTimeout, nextDial in *. cbn.
  destruct (dials (world st)) as [|d ds']; inversion Hd; subst; reflexivity.
Qed.

Lemma writeAttempt_redial_fails data st cn err e2 ds :
  conn (client st) = Some cn -> hd None (writes cn) = Some err ->
  isReset err = true -> nextDial (world st) = (DialError e2, ds) ->
  writeAttempt data st =
  (Fail (ErrorfW "failed to write (%s) and failed to reestablish: %w"
           [AErrorText err] (ErrorfW "failed to dial: %w" [] e2)),
   mkSt (set_conn (client st) None)
     (mkWorld ds (stdout (world st) ++ [(reconnectNotice, [AErrorText err])])
        (room (world st)))).
Proof.
  intros Hcn Hw Hr Hd.
  unfold writeAttempt, bind, catch, Conn_Write, onConn.
  rewrite Hcn, Hw. cbn. rewrite Hr.
  unfold Printf, initConnection, bind, DialTimeout, nextDial in *. cbn.
  destruct (dials (world st)) as [|d ds']; inversion Hd; subst; reflexivity.
Qed.

(** The loop keeps reconnecting: when the connection in use and the
    connections dialled next all refuse the write with a broken pipe or
    a reset, the command goes out on the first connection that takes
    it, after one dial and one notice per refusal. *)
Lemma writeLoop_retries data cns : forall st cn good ds,
  conn (client st) = Some cn -> refusing cn ->
  Forall refusing cns -> hd None (writes good) = None ->
  dials (world st) = map Dialed cns ++ Dialed good :: ds ->
  exists st',
    writeLoop data st = (Val tt, st') /\
    conn (client st') = Some (afterWrite good data) /\
    dials (world st') = ds /\
    List.length (stdout (world st')) =
      (List.length (stdout (world st)) + S (List.length cns))%nat.
Proof.
  induction cns as [|cn1 cns IH];
    intros st cn good ds Hcn (err & Hw & Hr') Hall Hg Hd;
    pose proof (proj2 (isReset_ResetError err) Hr') as Hr.
  - rewrite writeLoop_turn.
    rewrite (writeAttempt_redial data st cn err good ds Hcn Hw Hr)
      by (unfold nextDial; now rewrite Hd).
    rewrite writeLoop_turn.
    rewrite (writeAttempt_ok data (reconnected st good ds err) good eq_refl Hg).
    eexists. split; [reflexivity|]. cbn. rewrite length_app. cbn.
    repeat split.
  - inversion Hall as [|? ? Hr1 Hall']; subst.
    rewrite writeLoop_turn.
    rewrite (writeAttempt_redial data st cn err cn1
               (map Dialed cns ++ Dialed good :: ds) Hcn Hw Hr)
      by (unfold nextDial; now rewrite Hd).
    destruct (IH (reconnected st cn1 (map Dialed cns ++ Dialed good :: ds) err)
                cn1 good ds eq_refl Hr1 Hall' Hg eq_refl)
      as (st' & HL & Hc' & Hd' & Hlen).
    exists st'. repeat split; try assumption.
    rewrite Hlen. cbn. rewrite length_app. cbn. lia.
Qed.

Lemma setDeadline_first st cn :
  conn (client st) = Some cn -> hd None (deadlines cn) = None ->
  setDeadline st =
  (Val tt, mkSt (set_conn (client st) (Some (afterSetDeadline cn))) (world st)).
Proof.
  intros Hcn Hd. unfold setDeadline, Conn_SetDeadline, onConn.
  now rewrite Hcn, Hd.
Qed.

Lemma written_app a b : written (a ++ b) = written a ++ written b.
Proof.
  induction a as [|[| |] a IH]; cbn; [reflexivity| | |]; now rewrite ?IH.
Qed.

(** On a connection that takes the write and lets every deadline be
    set, the command goes out, once, and the scanner is left alone. *)
Lemma sendCmd_healthy c st cn :
  conn (client st) = Some cn ->
  Forall (fun r => r = None) (deadlines cn) ->
  hd None (writes cn) = None ->
  exists st1 cn1,
    sendCmd c st = (Val tt, st1) /\
    scanner (client st1) = scanner (client st) /\
    deadlinesHold st1 /\
    conn (client st1) = Some cn1 /\
    written (calls cn1) = written (calls cn) ++ [Cmd_String c].
Proof.
  intros Hcn Hall Hw.
  assert (Hd : deadlinesHold st) by (exists cn; now split).
  destruct (setDeadline_holds _ Hd) as (sa & HD & _).
  assert (Hhd : hd None (deadlines cn) = None)
    by (destruct Hall as [|r rs Hr _]; [reflexivity | now subst r]).
  rewrite (setDeadline_first _ _ Hcn Hhd) in HD. injection HD as <-.
  set (sa := mkSt (set_conn (client st) (Some (afterSetDeadline cn))) (world st)).
  set (sb := mkSt (set_conn (client sa)
                     (Some (afterWrite (afterSetDeadline cn) (Cmd_String c))))
                  (world sa)).
  assert (HL : writeLoop (Cmd_String c) sa = (Val tt, sb)).
  { rewrite writeLoop_turn.
    now rewrite (writeAttempt_ok (Cmd_String c) sa (afterSetDeadline cn)
                   eq_refl Hw). }
  assert (Htl : Forall (fun r => r = None) (tl (deadlines cn)))
    by (destruct Hall; [constructor | assumption]).
  assert (Hhd2 : hd None (tl (deadlines cn)) = None)
    by (destruct Htl as [|r rs Hr _]; [reflexivity | now subst r]).
  eexists. eexists. split.
  - unfold sendCmd, writeCmd.
    step (setDeadline_first _ _ Hcn Hhd). fold sa. step HL.
    unfold Printf at 1. unfold bind at 1.
    unfold setDeadline, Conn_SetDeadline, onConn. cbn.
    rewrite Hhd2. reflexivity.
  - cbn. split; [reflexivity|]. split.
    + eexists. split; [reflexivity|]. cbn.
      destruct Htl; [constructor | assumption].
    + split; [reflexivity|]. cbn.
      rewrite !written_app. cbn. now rewrite !app_nil_r.
Qed.

(** C8.  In [ExecCmd], when the write of the command fails with [err].
    Unless [err] is a reset error, that is unless it is or wraps
    [syscall.EPIPE] or [syscall.ECONNRESET], the call fails at once with
    [err] wrapped, without dialling.  When [err] is a reset error and
    the dial fails, the call fails with an error that holds the text of
    [err] and wraps the error of the dial.  When [err] is a reset error
    and the dial succeeds, the call goes on with the write loop on the
    new connection, so that the write is retried, again and again while
    the connections dialled refuse it with a reset error. *)
Theorem ExecCmd_write_retry c st cn err :
  conn (client st) = Some cn ->
  hd None (deadlines cn) = None ->
  hd None (writes cn) = Some err ->
  let sd := mkSt (set_conn (client st) (Some (afterSetDeadline cn))) (world st) in
  let cnw := afterWrite (afterSetDeadline cn) (Cmd_String c) in
  (~ ResetError err ->
   ExecCmd c st =
   (Fail (ErrorfW "failed to write: %w" [] err),
    mkSt (set_conn (client st) (Some cnw)) (world st))) /\
  (ResetError err -> forall e2 ds,
   nextDial (world st) = (DialError e2, ds) ->
   fst (ExecCmd c st) =
   Fail (ErrorfW "failed to write (%s) and failed to reestablish: %w"
           [AErrorText err] (ErrorfW "failed to dial: %w" [] e2)) /\
   dials (world (snd (ExecCmd c st))) = ds) /\
  (ResetError err -> forall cn' ds,
   nextDial (world st) = (Dialed cn', ds) ->
   ExecCmd c st =
   bind (writeCmd c) (fun _ => readReply) (reconnected st cn' ds err)) /\
  (ResetError err -> forall cns good ds,
   Forall refusing cns -> hd None (writes good) = None ->
   dials (world st) = map Dialed cns ++ Dialed good :: ds ->
   exists st',
     writeLoop (Cmd_String c) sd = (Val tt, st') /\
     conn (client st') = Some (afterWrite good (Cmd_String c)) /\
     dials (world st') = ds).
Proof.
  intros Hcn Hd Hw sd cnw.
  pose proof (setDeadline_first _ _ Hcn Hd) as HD. fold sd in HD.
  assert (Hcd : conn (client sd) = Some (afterSetDeadline cn)) by reflexivity.
  assert (Hwd : hd None (writes (afterSetDeadline cn)) = Some err) by exact Hw.
  assert (HE : ExecCmd c st = bind (writeCmd c) (fun _ => readReply) sd).
  { unfold ExecCmd, sendCmd. unfold bind at 1 2. now rewrite HD. }
  assert (HL : forall r, writeLoop (Cmd_String c) sd = r ->
                 ExecCmd c st =
                 match r with
                 | (Val _, s) =>
                     bind (bind (Printf ("rrdcached command: [%s]" ++ LF)%string
                                   [AString (TrimSpace (Cmd_String c))])
                             (fun _ => setDeadline))
                       (fun _ => readReply) s
                 | (Fail e, s) => (Fail e, s)
                 | (Panic, s) => (Panic, s)
                 end).
  { intros r Hr. rewrite HE. unfold writeCmd. unfold bind at 1 2.
    rewrite Hr. destruct r as [[[]|e|] s]; reflexivity. }
  split; [|split; [|split]].
  - intros Hr. apply isReset_false in Hr. rewrite (HL _ (writeLoop_turn _ _)).
    now rewrite (writeAttempt_other _ sd _ err Hcd Hwd Hr).
  - intros Hr e2 ds Hdial. apply isReset_ResetError in Hr.
    rewrite (HL _ (writeLoop_turn _ _)).
    now rewrite (writeAttempt_redial_fails _ sd _ err e2 ds Hcd Hwd Hr Hdial).
  - intros Hr cn' ds Hdial. apply isReset_ResetError in Hr.
    rewrite HE. unfold writeCmd. unfold bind at 1 2.
    rewrite writeLoop_turn.
    rewrite (writeAttempt_redial _ sd _ err cn' ds Hcd Hwd Hr Hdial).
    reflexivity.
  - intros Hr cns good ds Hall Hg Hdials.
    destruct (writeLoop_retries (Cmd_String c) cns sd (afterSetDeadline cn)
                good ds Hcd (ex_intro _ err (conj Hwd Hr)) Hall Hg Hdials)
      as (st' & H1 & H2 & H3 & _).
    now exists st'.
Qed.

(** ** Closing *)

Lemma Close_run st cn :
  conn (client st) = Some cn ->
  Close st =
  (match closeErr cn, hd None (deadlines cn) with
   | Some e, _ => Fail e
   | None, Some e => Fail e
   | None, None => result (hd None (writes cn))
   end,
   mkSt (set_conn (client st)
           (Some (afterClose (afterWrite (afterSetDeadline cn) "quit"))))
        (world st)).
Proof.
  intros Hcn.
  unfold Close, bind, catch, setDeadline, Conn_SetDeadline, Conn_Write,
    Conn_Close, onConn.
  rewrite Hcn. destruct cn as [dl wr ce ib ibe cl].
  destruct dl as [|[e|] dl], wr as [|[e'|] wr], ce as [e''|]; reflexivity.
Qed.

(** C9.  [Close] refreshes the deadline, then writes the quit command,
    then closes the connection, whatever the two first calls return.
    Its error is the error of closing the connection when there is one;
    otherwise the error of the refresh of the deadline when there is
    one; otherwise the error of the write, if any.  When the three
    calls succeed it returns no error. *)
Theorem Close_error_priority st cn :
  conn (client st) = Some cn ->
  let errD := hd None (deadlines cn) in
  let errW := hd None (writes cn) in
  let err := closeErr cn in
  fst (Close st) =
    match err, errD with
    | Some e, _ => Fail e
    | None, Some e => Fail e
    | None, None => result errW
    end /\
  (exists cn',
     conn (client (snd (Close st))) = Some cn' /\
     calls cn' = calls cn ++ [CallSetDeadline; CallWrite "quit"; CallClose]) /\
  (errD = None -> errW = None -> err = None -> fst (Close st) = Val tt).
Proof.
  intros Hcn errD errW err. rewrite (Close_run _ _ Hcn).
  split; [reflexivity|]. split.
  - eexists. split; [reflexivity|]. cbn. now rewrite <- !app_assoc.
  - cbn [fst]. fold errD errW err. now intros -> -> ->.
Qed.

(** C10.  The only bytes [Close] writes are the four bytes of "quit",
    without line feed, although the wire line of every command ends
    with a line feed. *)
Theorem Close_writes_quit st cn :
  conn (client st) = Some cn ->
  (exists cn',
     conn (client (snd (Close st))) = Some cn' /\
     written (calls cn') = written (calls cn) ++ ["quit"%string]) /\
  String.length "quit" = 4%nat /\
  count newline "quit" = 0%nat /\
  (forall c, exists line, Cmd_String c = (line ++ LF)%string).
Proof.
  intros Hcn. rewrite (Close_run _ _ Hcn). repeat split.
  - eexists. split; [reflexivity|].
    cbn [afterClose afterWrite afterSetDeadline calls].
    rewrite !written_app. cbn [written]. now rewrite !app_nil_r.
  - intros c. exists (cmd c ++ " " ++ Join (args c) " ")%string.
    unfold Cmd_String.
    assert (Hassoc : forall a b d : string,
               ((a ++ b) ++ d = a ++ b ++ d)%string)
      by (intros a b d; induction a as [|x a IH]; cbn; [reflexivity | now f_equal]).
    now rewrite Hassoc.
Qed.

(** ** The theorems at sample runs *)

Lemma ExecCmd_content_lines_witness :
  exists st2,
    ExecCmd (NewCmd "stats") (connected statsReply) =
      (Val ["QueueLength: 0"%string; "UpdatesReceived: 30"%string], st2) /\
    pending st2 = [].
Proof.
  apply (ExecCmd_content_lines (NewCmd "stats") (connected statsReply)
           (snd (sendCmd (NewCmd "stats") (connected statsReply)))
           "2 Statistics follow"
           ["QueueLength: 0"%string; "UpdatesReceived: 30"%string]
           "2" "Statistics follow" 2).
  - vm_compute; reflexivity.
  - eexists. split; [vm_compute; reflexivity | constructor].
  - vm_compute; reflexivity.
  - vm_compute; reflexivity.
  - vm_compute; reflexivity.
  - lia.
  - vm_compute. split; discriminate.
  - simpl. lia.
Defined.

Lemma ExecCmd_short_reply_witness :
  fst (ExecCmd (NewCmd "stats") (connected shortReply)) =
  Fail io_ErrUnexpectedEOF.
Proof.
  apply (ExecCmd_short_reply (NewCmd "stats") (connected shortReply)
           (snd (sendCmd (NewCmd "stats") (connected shortReply)))
           "2 Statistics follow" ["QueueLength: 0"%string]
           "2" "Statistics follow" 2).
  - vm_compute; reflexivity.
  - vm_compute; reflexivity.
  - vm_compute; reflexivity.
  - vm_compute; reflexivity.
  - simpl. lia.
  - vm_compute. split; discriminate.
  - eexists. split; [vm_compute; reflexivity | constructor].
Defined.

(** The same short reply ended by a timeout: the error is the error of
    the read. *)
Example ExecCmd_short_reply_timeout :
  fst (ExecCmd (NewCmd "stats") (stalled shortReply)) = Fail readTimeout.
Proof. vm_compute; reflexivity. Qed.

Lemma ExecCmd_negative_status_witness :
  fst (ExecCmd (NewCmd "flush") (connected errorReply)) =
    Fail (NewError (-1) "No such file: /tmp/x.rrd") /\
  errors_As_RrdError (NewError (-1) "No such file: /tmp/x.rrd") =
    Some (-1, "No such file: /tmp/x.rrd"%string) /\
  pending (snd (ExecCmd (NewCmd "flush") (connected errorReply))) = [].
Proof.
  apply (ExecCmd_negative_status (NewCmd "flush") (connected errorReply)
           (snd (sendCmd (NewCmd "flush") (connected errorReply)))
           "-1 No such file: /tmp/x.rrd" [] "-1").
  - vm_compute; reflexivity.
  - vm_compute; reflexivity.
  - vm_compute; reflexivity.
  - vm_compute; reflexivity.
  - lia.
Defined.

Lemma ExecCmd_malformed_status_witness :
  (fst (ExecCmd (NewCmd "flush") (connected garbageReply)) =
     Fail (Errorf "not 3 matches: '%s'" [AString "garbage"]) /\
   errors_As_RrdError (Errorf "not 3 matches: '%s'" [AString "garbage"])
     = None) /\
  (fst (ExecCmd (NewCmd "flush") (connected longReply)) =
     Fail (ErrorfW "scan error: %w" [] ErrTooLong) /\
   errors_As_RrdError (ErrorfW "scan error: %w" [] ErrTooLong) = None).
Proof.
  split.
  - apply (proj1 (ExecCmd_malformed_status (NewCmd "flush")
                    (connected garbageReply)
                    (snd (sendCmd (NewCmd "flush") (connected garbageReply)))
                    ltac:(vm_compute; reflexivity))
             "garbage"%string []).
    + vm_compute; reflexivity.
    + intros H. apply HeaderShape_splitHeader in H; [|reflexivity].
      vm_compute in H. congruence.
  - apply (proj2 (ExecCmd_malformed_status (NewCmd "flush")
                    (connected longReply)
                    (snd (sendCmd (NewCmd "flush") (connected longReply)))
                    (run_result (sendCmd (NewCmd "flush"))
                       (connected longReply) tt
                       ltac:(vm_compute; reflexivity)))).
    + vm_compute; reflexivity.
    + vm_compute; reflexivity.
Defined.

Lemma Info_decodes_by_tag_witness :
  fst (Info strconv_ParseFloat "/tmp/x.rrd" (connected infoReply)) =
  Val [mkInfo "filename" (VString "rrd file");
       mkInfo "rrd_version" (VInt (-42));
       mkInfo "xff" (VFloat float_3_5)].
Proof.
  refine (f_equal fst
            (proj1 (Info_decodes_by_tag strconv_ParseFloat "/tmp/x.rrd"
                      (connected infoReply)
                      ["filename 2 rrd file"%string;
                       "rrd_version 1 -42"%string; "xff 0 3.5"%string]
                      _
                      (snd (ExecCmd
                              (WithArgs (NewCmd "info") ["/tmp/x.rrd"%string])
                              (connected infoReply)))
                      _ _))).
  - vm_compute; reflexivity.
  - constructor;
      [exact (Decodes_string _ "filename" "rrd file" eq_refl)|].
    constructor;
      [exact (Decodes_int _ "rrd_version" "-42" (-42) eq_refl eq_refl)|].
    constructor;
      [exact (Decodes_float strconv_ParseFloat "xff" "3.5" _ eq_refl eq_refl)|].
    constructor.
Defined.

Lemma Info_rejects_malformed_witness :
  exists good bad more e,
    ["filename 2 rrd file"%string; "step 9 300"%string] = good ++ bad :: more /\
    Forall (fun l => exists info, Decodes strconv_ParseFloat l info) good /\
    Rejects strconv_ParseFloat bad e /\
    Info strconv_ParseFloat "/tmp/x.rrd" (connected badInfoReply) =
      (Fail e,
       snd (ExecCmd (WithArgs (NewCmd "info") ["/tmp/x.rrd"%string])
              (connected badInfoReply))).
Proof.
  apply (Info_rejects_malformed strconv_ParseFloat "/tmp/x.rrd"
           (connected badInfoReply)
           ["filename 2 rrd file"%string; "step 9 300"%string]).
  - vm_compute; reflexivity.
  - apply Exists_cons_tl, Exists_cons_hd. eexists.
    apply (Rejects_tag strconv_ParseFloat "step" "9" "300");
      [reflexivity | reflexivity | discriminate | discriminate | discriminate].
Defined.

Lemma ExecCmd_write_retry_witness :
  ExecCmd (NewCmd "stats") (staleWith brokenPipe statsReply) =
    bind (writeCmd (NewCmd "stats")) (fun _ => readReply)
      (reconnected (staleWith brokenPipe statsReply)
         (healthyConn statsReply) [] brokenPipe) /\
  ExecCmd (NewCmd "stats") (staleWith connReset statsReply) =
    bind (writeCmd (NewCmd "stats")) (fun _ => readReply)
      (reconnected (staleWith connReset statsReply)
         (healthyConn statsReply) [] connReset) /\
  ExecCmd (NewCmd "stats") (staleWith writeTimeout statsReply) =
    (Fail (ErrorfW "failed to write: %w" [] writeTimeout),
     mkSt (set_conn (client (staleWith writeTimeout statsReply))
             (Some (afterWrite
                      (afterSetDeadline
                         (mkConn [] [Some writeTimeout] None EmptyString None []))
                      (Cmd_String (NewCmd "stats")))))
       (world (staleWith writeTimeout statsReply))).
Proof.
  split; [|split].
  - apply (ExecCmd_write_retry (NewCmd "stats") (staleWith brokenPipe statsReply)
             (mkConn [] [Some brokenPipe] None EmptyString None [])
             brokenPipe eq_refl eq_refl eq_refl).
    + left. unfold brokenPipe.
      eapply Wraps_next; [reflexivity|].
      eapply Wraps_next; [reflexivity|]. constructor.
    + reflexivity.
  - apply (ExecCmd_write_retry (NewCmd "stats") (staleWith connReset statsReply)
             (mkConn [] [Some connReset] None EmptyString None [])
             connReset eq_refl eq_refl eq_refl).
    + right. unfold connReset.
      eapply Wraps_next; [reflexivity|].
      eapply Wraps_next; [reflexivity|]. constructor.
    + reflexivity.
  - apply (ExecCmd_write_retry (NewCmd "stats")
             (staleWith writeTimeout statsReply)
             (mkConn [] [Some writeTimeout] None EmptyString None [])
             writeTimeout eq_refl eq_refl eq_refl).
    intros H. apply isReset_ResetError in H. discriminate H.
Defined.

Lemma Close_error_priority_witness :
  fst (Close (connected EmptyString)) = Val tt.
Proof.
  apply (Close_error_priority (connected EmptyString)
           (healthyConn EmptyString) eq_refl);
    reflexivity.
Defined.

Lemma Close_writes_quit_witness :
  exists cn',
    conn (client (snd (Close (connected EmptyString)))) = Some cn' /\
    written (calls cn') = ["quit"%string].
Proof.
  apply (Close_writes_quit (connected EmptyString)
           (healthyConn EmptyString) eq_refl).
Defined.

(** * Further properties *)

(** ** Decimal numerals *)

Lemma digitValue_range c : isDigit c = true -> 0 <= digitValue c <= 9.
Proof.
  unfold isDigit, digitValue. intros H.
  apply andb_true_iff in H as [H1 H2].
  apply Nat.leb_le in H1, H2. lia.
Qed.

Lemma decimalFrom_ge s : forall acc,
  allb isDigit s = true -> 0 <= acc -> acc <= decimalFrom s acc.
Proof.
  induction s as [|c s IH]; intros acc Hs Hacc; cbn; [lia|].
  cbn in Hs. apply andb_true_iff in Hs as [Hc Hs].
  pose proof (digitValue_range _ Hc).
  specialize (IH (acc * 10 + digitValue c) Hs). lia.
Qed.

(** The loop of [ParseUint] computes the value of the digits, up to the
    largest [uint64]. *)
Lemma parseUintLoop_value s : forall acc,
  allb isDigit s = true -> 0 <= acc <= maxUint64 ->
  parseUintLoop s acc =
  if decimalFrom s acc <=? maxUint64 then inl (decimalFrom s acc)
  else inr ErrRange.
Proof.
  induction s as [|c s IH]; intros acc Hs Hacc; cbn [parseUintLoop decimalFrom].
  - destruct (Z.leb_spec acc maxUint64); [reflexivity | lia].
  - cbn in Hs. apply andb_true_iff in Hs as [Hc Hs]. rewrite Hc.
    pose proof (digitValue_range _ Hc) as Hd.
    change (maxUint64 / 10 + 1) with 1844674407370955162.
    assert (Hmax : maxUint64 = 18446744073709551615) by reflexivity.
    pose proof (decimalFrom_ge s (acc * 10 + digitValue c) Hs) as Hge.
    destruct (Z.geb_spec acc 1844674407370955162).
    + destruct (Z.leb_spec (decimalFrom s (acc * 10 + digitValue c)) maxUint64);
        [lia | reflexivity].
    + destruct (Z.gtb_spec (acc * 10 + digitValue c) maxUint64).
      * destruct (Z.leb_spec (decimalFrom s (acc * 10 + digitValue c)) maxUint64);
          [lia | reflexivity].
      * apply IH; [assumption | lia].
Qed.

Lemma isNumeral_digits ds :
  isNumeral ds = true ->
  allb isDigit ds = true /\ exists d ds', ds = String d ds' /\ isDigit d = true.
Proof.
  unfold isNumeral. intros H. apply andb_true_iff in H as [Hd Hn].
  split; [assumption|]. destruct ds as [|d ds']; [discriminate|].
  exists d, ds'. split; [reflexivity|]. cbn in Hd.
  now apply andb_true_iff in Hd as [Hd _].
Qed.

Lemma decimalValue_nonneg ds : allb isDigit ds = true -> 0 <= decimalValue ds.
Proof. intros H. now apply (decimalFrom_ge ds 0 H). Qed.

(** [parseInt64] on a numeral and on a numeral with a minus sign:
    the value when it fits in 64 bits, the range error otherwise. *)
Lemma parseInt64_numeral fn ds :
  isNumeral ds = true ->
  parseInt64 fn ds =
  if decimalValue ds <? 2 ^ 63 then inl (decimalValue ds)
  else inr (NumError fn ds ErrRange).
Proof.
  intros Hn. destruct (isNumeral_digits _ Hn) as (Hd & d & ds' & -> & Hd0).
  pose proof (decimalValue_nonneg _ Hd) as Hpos.
  unfold parseInt64.
  assert (Hminus : Ascii.eqb d "-" = false).
  { destruct (Ascii.eqb d "-") eqn:E; [|reflexivity].
    apply Ascii.eqb_eq in E. subst d. discriminate. }
  assert (Hplus : Ascii.eqb d "+" = false).
  { destruct (Ascii.eqb d "+") eqn:E; [|reflexivity].
    apply Ascii.eqb_eq in E. subst d. discriminate. }
  rewrite Hminus, Hplus. cbn [orb negb andb].
  unfold ParseUint. rewrite (parseUintLoop_value _ 0 Hd) by (cbv; split; congruence).
  fold (decimalValue (String d ds')).
  assert (Hmax : maxUint64 = 18446744073709551615) by reflexivity.
  assert (H63 : 2 ^ 63 = 9223372036854775808) by reflexivity.
  destruct (Z.leb_spec (decimalValue (String d ds')) maxUint64);
    destruct (Z.ltb_spec (decimalValue (String d ds')) (2 ^ 63));
    try lia; try reflexivity.
  - destruct (Z.geb_spec (decimalValue (String d ds')) (2 ^ 63)); [lia|].
    reflexivity.
  - destruct (Z.geb_spec (decimalValue (String d ds')) (2 ^ 63)); [|lia].
    reflexivity.
Qed.

Lemma parseInt64_minus_numeral fn ds :
  isNumeral ds = true ->
  parseInt64 fn (String "-" ds) =
  if decimalValue ds <=? 2 ^ 63 then inl (- decimalValue ds)
  else inr (NumError fn (String "-" ds) ErrRange).
Proof.
  intros Hn. destruct (isNumeral_digits _ Hn) as (Hd & d & ds' & -> & Hd0).
  pose proof (decimalValue_nonneg _ Hd) as Hpos.
  unfold parseInt64. cbn [Ascii.eqb Bool.eqb orb negb andb].
  unfold ParseUint. rewrite (parseUintLoop_value _ 0 Hd) by (cbv; split; congruence).
  fold (decimalValue (String d ds')).
  assert (Hmax : maxUint64 = 18446744073709551615) by reflexivity.
  assert (H63 : 2 ^ 63 = 9223372036854775808) by reflexivity.
  destruct (Z.leb_spec (decimalValue (String d ds')) maxUint64);
    destruct (Z.leb_spec (decimalValue (String d ds')) (2 ^ 63));
    try lia; try reflexivity.
  - destruct (Z.gtb_spec (decimalValue (String d ds')) (2 ^ 63)); [lia|].
    reflexivity.
  - destruct (Z.gtb_spec (decimalValue (String d ds')) (2 ^ 63)); [|lia].
    reflexivity.
Qed.

(** ** Status lines *)

Lemma span_stop_here p s :
  match s with
  | EmptyString => True
  | String c _ => p c = false
  end ->
  span p s = (EmptyString, s).
Proof. destruct s as [|c s]; cbn; [reflexivity|]. now intros ->. Qed.

Lemma splitHeader_minus s :
  splitHeader (String "-" s) =
  let (ds, s2) := span isDigit s in
  let (ws, rest) := span isSpace s2 in
  match ds, ws with
  | String _ _, String _ _ =>
      if allb notNewline rest then Some (("-" ++ ds)%string, rest) else None
  | _, _ => None
  end.
Proof. reflexivity. Qed.

Lemma splitHeader_plain d s :
  Ascii.eqb "-" d = false ->
  splitHeader (String d s) =
  let (ds, s2) := span isDigit (String d s) in
  let (ws, rest) := span isSpace s2 in
  match ds, ws with
  | String _ _, String _ _ =>
      if allb notNewline rest then Some (ds, rest) else None
  | _, _ => None
  end.
Proof. intros H. unfold splitHeader. now rewrite H. Qed.

(** A numeral, white space and a text that does not start with white
    space: [respRe] takes them apart exactly. *)
Lemma splitHeader_status neg ds ws msg :
  isNumeral ds = true ->
  ws <> EmptyString -> allb isSpace ws = true ->
  startsWithSpace msg = false -> allb notNewline msg = true ->
  splitHeader (signOf neg ++ ds ++ ws ++ msg)%string =
  Some ((signOf neg ++ ds)%string, msg).
Proof.
  intros Hn Hws Hw Hm Hnl.
  destruct (isNumeral_digits _ Hn) as (Hd & d & ds' & -> & Hd0).
  assert (Hsd : span isDigit (String d ds' ++ ws ++ msg)%string =
                (String d ds', (ws ++ msg)%string)).
  { rewrite (span_app_run _ _ _ Hd).
    rewrite (span_stop_here isDigit (ws ++ msg)%string).
    - cbn [fst snd]. now rewrite app_empty_r.
    - destruct ws as [|w ws']; [congruence|]. cbn in Hw |- *.
      apply andb_true_iff in Hw as [Hw _].
      destruct (isDigit w) eqn:E; [|reflexivity].
      apply isDigit_not_isSpace in E. congruence. }
  assert (Hss : span isSpace (ws ++ msg)%string = (ws, msg)).
  { rewrite (span_app_run _ _ _ Hw).
    rewrite (span_stop_here isSpace msg) by (now destruct msg).
    cbn [fst snd]. now rewrite app_empty_r. }
  destruct neg; unfold signOf.
  - change ("-" ++ String d ds' ++ ws ++ msg)%string
      with (String "-" (String d ds' ++ ws ++ msg))%string.
    rewrite splitHeader_minus, Hsd, Hss.
    destruct ws; [congruence|]. now rewrite Hnl.
  - change ("" ++ String d ds' ++ ws ++ msg)%string
      with (String d (ds' ++ ws ++ msg))%string.
    rewrite (splitHeader_plain _ _ (isDigit_not_minus _ Hd0)).
    change (String d (ds' ++ ws ++ msg))%string
      with (String d ds' ++ ws ++ msg)%string.
    rewrite Hsd, Hss. destruct ws; [congruence|]. now rewrite Hnl.
Qed.

(** X1.  For a status line made of an optional minus sign, a decimal
    numeral, white space and a text that does not start with white
    space: when the numeral does not fit in an [int] (a value above
    2^63 - 1, or above 2^63 after a minus sign), [ExecCmd] fails with
    the conversion error, which wraps the range error of [Atoi]; with a
    minus sign and a value from 1 to 2^63 it returns the protocol error
    with the negated value and the text; with the value 0, with or
    without minus sign, it returns the text as its only line. *)
Theorem ExecCmd_status_numeral c st st1 neg ds ws msg more :
  sendCmd c st = (Val tt, st1) ->
  pending st1 = (signOf neg ++ ds ++ ws ++ msg)%string :: more ->
  isNumeral ds = true ->
  ws <> EmptyString -> allb isSpace ws = true ->
  startsWithSpace msg = false ->
  let v := decimalValue ds in
  let num := (signOf neg ++ ds)%string in
  ((if neg then 2 ^ 63 < v else 2 ^ 63 <= v) ->
   fst (ExecCmd c st) =
   Fail (ErrorfW "failed to convert to int '%s': %w" [AString num]
           (NumError "Atoi" num ErrRange))) /\
  (neg = true -> 0 < v <= 2 ^ 63 ->
   fst (ExecCmd c st) = Fail (NewError (- v) msg)) /\
  (v = 0 -> fst (ExecCmd c st) = Val [msg]).
Proof.
  intros Hsent Hp Hn Hws Hw Hm v num.
  assert (Hnl : allb notNewline msg = true).
  { pose proof (pending_notNewline st1) as Hall. rewrite Hp in Hall.
    inversion Hall as [|? ? Hh _]; subst.
    rewrite !allb_app in Hh.
    apply andb_true_iff in Hh as [_ Hh].
    apply andb_true_iff in Hh as [_ Hh].
    now apply andb_true_iff in Hh as [_ Hh]. }
  rewrite (ExecCmd_sent _ _ _ Hsent).
  destruct (readReply_scanned _ _ _ Hp) as (sa & -> & _).
  unfold decodeStatus.
  rewrite respRe_splitHeader, (splitHeader_status neg ds ws msg Hn Hws Hw Hm Hnl).
  cbn [List.length Nat.eqb negb nth]. fold num. unfold Atoi.
  assert (H63 : 2 ^ 63 = 9223372036854775808) by reflexivity.
  pose proof (decimalValue_nonneg ds (proj1 (isNumeral_digits _ Hn))) as Hpos.
  fold v in Hpos.
  subst num. destruct neg; unfold signOf.
  - change ("-" ++ ds)%string with (String "-" ds).
    rewrite (parseInt64_minus_numeral "Atoi" ds Hn). fold v.
    destruct (Z.leb_spec v (2 ^ 63)) as [Hle|Hgt].
    + split; [lia|]. split.
      * intros _ Hv. destruct (Z.ltb_spec (- v) 0); [reflexivity | lia].
      * intros Hv. rewrite Hv. reflexivity.
    + split; [reflexivity|]. split; [lia | lia].
  - change ("" ++ ds)%string with ds.
    rewrite (parseInt64_numeral "Atoi" ds Hn). fold v.
    destruct (Z.ltb_spec v (2 ^ 63)) as [Hlt|Hge].
    + split; [lia|]. split; [discriminate|].
      intros Hv. rewrite Hv. reflexivity.
    + split; [reflexivity|]. split; [discriminate | lia].
Qed.

(** ** What a call does to the connection and to the stream *)

Lemma bind_eq {A B} (m : M A) (f : A -> M B) st r :
  m st = r ->
  bind m f st =
  match r with
  | (Val a, st') => f a st'
  | (Fail e, st') => (Fail e, st')
  | (Panic, st') => (Panic, st')
  end.
Proof. unfold bind. now intros ->. Qed.

Lemma setDeadline_run st cn :
  conn (client st) = Some cn ->
  setDeadline st =
  (result (hd None (deadlines cn)),
   mkSt (set_conn (client st) (Some (afterSetDeadline cn))) (world st)).
Proof.
  intros Hcn. unfold setDeadline, Conn_SetDeadline, onConn. now rewrite Hcn.
Qed.

Lemma calls_refreshed k cn :
  calls (Nat.iter k afterSetDeadline cn) = calls cn ++ repeat CallSetDeadline k.
Proof.
  induction k as [|k IH].
  - cbn. now rewrite app_nil_r.
  - rewrite Nat.iter_succ. unfold afterSetDeadline at 1. cbn [calls].
    rewrite IH, <- app_assoc. f_equal.
    clear IH. induction k as [|k IH]; cbn; [reflexivity | now f_equal].
Qed.

(** The loop over the content lines, whatever the scripts: it refreshes
    the deadline once per line it takes ([k] lines), takes the pending
    lines in order, and stops early only at the end of the stream or on
    a failed refresh. *)
Lemma collectLines_trace n : forall st lines cn out st',
  conn (client st) = Some cn ->
  collectLines n lines st = (out, st') ->
  exists k,
    (k <= n)%nat /\
    conn (client st') = Some (Nat.iter k afterSetDeadline cn) /\
    world st' = world st /\
    match out with
    | Val ls =>
        ls = lines ++ firstn k (pending st) /\
        (k = n -> pending st' = skipn k (pending st)) /\
        ((k < n)%nat -> (List.length (pending st) <= k)%nat)
    | Fail _ => True
    | Panic => False
    end.
Proof.
  induction n as [|n IH]; intros st lines cn out st' Hcn.
  - cbn. intros [= <- <-]. exists 0%nat. cbn. rewrite app_nil_r.
    repeat split; try assumption; lia.
  - cbn [collectLines].
    destruct (Scan_cases st) as
      [(t & ts & st1 & Hp & HS & Ht & Hp1 & _ & Hc1 & Hw1 & _)
      |(Hp & st1 & HS & _ & Hc1 & Hw1)]; step HS.
    + step (Text_token st1). rewrite Hcn in Hc1.
      rewrite (bind_eq _ _ _ _ (setDeadline_run _ _ Hc1)).
      destruct (hd None (deadlines cn)) as [e|]; cbn [result].
      * intros [= <- <-]. exists 1%nat. cbn. repeat split; try assumption. lia.
      * intros HC. apply (IH _ _ (afterSetDeadline cn)) in HC; [|reflexivity].
        destruct HC as (k & Hk & Hck & Hwk & Hout).
        exists (S k). rewrite Nat.iter_succ_r. cbn in Hwk.
        repeat split; [lia | assumption | congruence |].
        destruct out as [ls| |]; [|exact I|exact Hout].
        destruct Hout as (Hls & Hpk & Hstop).
        change (pending (mkSt (set_conn (client st1)
                                 (Some (afterSetDeadline cn))) (world st1)))
          with (pending st1) in Hls, Hpk, Hstop.
        rewrite Hp1, Ht in *. rewrite Hp. cbn [firstn skipn List.length].
        rewrite <- app_assoc in Hls. repeat split; try assumption.
        { intros Hkn. apply Hpk. lia. }
        { intros Hlt.
          assert (List.length ts <= k)%nat by (apply Hstop; lia). lia. }
    + intros [= <- <-]. exists 0%nat. rewrite Hp. cbn.
      rewrite app_nil_r.
      repeat split; try congruence; try lia.
Qed.

(** The write loop on a connected client, whatever the scripts: it does
    not panic, and when it ends well the last call on the connection
    then in use is the write of [data]. *)
Lemma writeLoop_outcome data n : forall st,
  (List.length (dials (world st)) <= n)%nat ->
  conn (client st) <> None ->
  match writeLoop data st with
  | (Val _, st') =>
      exists cn' pre,
        conn (client st') = Some cn' /\ calls cn' = pre ++ [CallWrite data]
  | (Fail _, _) => True
  | (Panic, _) => False
  end.
Proof.
  induction n as [|n IH]; intros st Hn Hcn.
  - destruct (conn (client st)) as [cn|] eqn:Hc; [|congruence].
    rewrite writeLoop_turn.
    destruct (hd None (writes cn)) as [err|] eqn:Hw.
    + destruct (isReset err) eqn:Hr;
        [|now rewrite (writeAttempt_other _ _ _ _ Hc Hw Hr)].
      destruct (nextDial (world st)) as [[e2|cn'] ds] eqn:Hd.
      * now rewrite (writeAttempt_redial_fails _ _ _ _ _ _ Hc Hw Hr Hd).
      * unfold nextDial in Hd.
        destruct (dials (world st)) as [|d ds']; [discriminate|].
        cbn in Hn. lia.
    + rewrite (writeAttempt_ok _ _ _ Hc Hw).
      now exists (afterWrite cn data), (calls cn).
  - destruct (conn (client st)) as [cn|] eqn:Hc; [|congruence].
    rewrite writeLoop_turn.
    destruct (hd None (writes cn)) as [err|] eqn:Hw.
    + destruct (isReset err) eqn:Hr;
        [|now rewrite (writeAttempt_other _ _ _ _ Hc Hw Hr)].
      destruct (nextDial (world st)) as [[e2|cn'] ds] eqn:Hd.
      * now rewrite (writeAttempt_redial_fails _ _ _ _ _ _ Hc Hw Hr Hd).
      * rewrite (writeAttempt_redial _ _ _ _ _ _ Hc Hw Hr Hd).
        apply IH; [|discriminate].
        unfold nextDial in Hd.
        destruct (dials (world st)) as [|d ds']; [discriminate|].
        injection Hd as _ <-. cbn in Hn |- *. lia.
    + rewrite (writeAttempt_ok _ _ _ Hc Hw).
      now exists (afterWrite cn data), (calls cn).
Qed.

(** The command phase of [ExecCmd] on a connected client: it does not
    panic, and when it ends well the last calls on the connection then
    in use are the write of the command line and a refresh of the
    deadline; the scanner is the one of that connection or the one the
    client had. *)
Lemma sendCmd_outcome c st :
  conn (client st) <> None ->
  match sendCmd c st with
  | (Val _, st1) =>
      exists cn1 pre,
        conn (client st1) = Some cn1 /\
        calls cn1 = pre ++ [CallWrite (Cmd_String c); CallSetDeadline]
  | (Fail _, _) => True
  | (Panic, _) => False
  end.
Proof.
  intros Hcn. destruct (conn (client st)) as [cn|] eqn:Hc; [|congruence].
  unfold sendCmd. rewrite (bind_eq _ _ _ _ (setDeadline_run _ _ Hc)).
  destruct (hd None (deadlines cn)) as [e|]; cbn [result]; [exact I|].
  unfold writeCmd.
  set (sa := mkSt (set_conn (client st) (Some (afterSetDeadline cn))) (world st)).
  pose proof (writeLoop_outcome (Cmd_String c) _ sa (Nat.le_refl _)) as HL.
  rewrite (bind_eq _ _ _ _ eq_refl).
  destruct (writeLoop (Cmd_String c) sa) as [[[]|e|] sb];
    [|exact I|apply HL; discriminate].
  destruct HL as (cnb & pre & Hcb & Hpre); [discriminate|].
  unfold Printf at 1. rewrite (bind_eq _ _ _ _ eq_refl).
  rewrite (setDeadline_run _ cnb) by exact Hcb.
  destruct (hd None (deadlines cnb)) as [e|]; cbn [result]; [exact I|].
  exists (afterSetDeadline cnb), pre. split; [reflexivity|].
  cbn [afterSetDeadline calls]. now rewrite Hpre, <- app_assoc.
Qed.

(** The reply decoder on a connected client, whatever the scripts: it
    panics only when it cannot make the slice for the lines, and it
    returns lines only for a reply that is complete, namely the lines
    of that reply; the rest of the stream stays, and the connection has
    only seen refreshes of the deadline. *)
Lemma readReply_outcome st cn out st' :
  conn (client st) = Some cn ->
  readReply st = (out, st') ->
  match out with
  | Val lines =>
      exists header more cnt rest,
        pending st = header :: more /\ Frames header cnt rest /\
        (Z.to_nat cnt <= List.length more)%nat /\
        lines = replyLines cnt rest more /\
        pending st' = skipn (Z.to_nat cnt) more /\
        conn (client st') =
          Some (Nat.iter (refreshes cnt) afterSetDeadline cn) /\
        world st' = world st
  | Fail _ => True
  | Panic =>
      exists header more cnt rest,
        pending st = header :: more /\ Frames header cnt rest /\
        0 < cnt /\ ~ allocates st cnt
  end.
Proof.
  intros Hcn. unfold readReply.
  destruct (Scan_cases st) as
    [(header & more & sa & Hp & HS & Ht & Hpa & _ & Hca & Hwa & _)
    |(Hp & sa & HS & _)]; step HS; cbn [negb].
  2: { step (scanErr_value sa). now intros [= <- _]. }
  step (Text_token sa). rewrite Ht. rewrite Hcn in Hca.
  unfold decodeStatus.
  destruct (FindStringSubmatch respRe header) as [|m0 [|num [|rest [|? ?]]]] eqn:Hm;
    cbn [List.length Nat.eqb negb nth]; try (now intros [= <- _]).
  assert (Hm0 : m0 = header).
  { rewrite respRe_splitHeader in Hm.
    destruct (splitHeader header) as [[? ?]|]; [|discriminate].
    now injection Hm as <- _ _. }
  subst m0.
  destruct (Atoi num) as [cnt|err] eqn:Ha; [|now intros [= <- _]].
  destruct (Z.ltb_spec cnt 0) as [Hneg|Hnn]; [now intros [= <- _]|].
  destruct (Z.eqb_spec cnt 0) as [Hz|Hnz].
  - intros [= <- <-]. subst cnt.
    exists header, more, 0, rest. cbn.
    repeat split; try assumption; try lia.
    exists num. repeat split; [assumption | assumption | lia].
  - rewrite (bind_eq _ _ _ _ (setDeadline_run _ _ Hca)).
    destruct (hd None (deadlines cn)) as [e|]; cbn [result];
      [now intros [= <- _]|].
    set (sb := mkSt (set_conn (client sa) (Some (afterSetDeadline cn))) (world sa)).
    destruct (makeLines_cases sb cnt) as [[Hal Hmk]|[Hnal Hmk]];
      rewrite (bind_eq _ _ _ _ Hmk).
    2: { intros [= <- _]. exists header, more, cnt, rest.
         repeat split; try assumption; try lia.
         - exists num. repeat split; [assumption | assumption | lia].
         - intros H. apply Hnal. apply (allocates_world st); [exact Hwa | exact H]. }
    destruct (collectLines (Z.to_nat cnt) [] sb) as [o sc] eqn:HC.
    destruct (collectLines_trace _ sb _ (afterSetDeadline cn) _ _ eq_refl HC)
      as (k & Hk & Hck & Hwk & Hout).
    rewrite (bind_eq _ _ _ _ HC).
    destruct o as [ls|e|]; [|now intros [= <- _]|contradiction].
    destruct Hout as (Hls & Hps & Hstop).
    change (pending sb) with (pending sa) in Hls, Hps, Hstop.
    rewrite Hpa in Hls, Hps, Hstop. cbn [app] in Hls.
    destruct (Z.eqb_spec (Z.of_nat (List.length ls)) cnt) as [Hlen|Hlen];
      cbn [negb].
    2: { step (scanErr_value sc). now intros [= <- _]. }
    intros [= <- <-].
    assert (Hlk : List.length ls = Nat.min k (List.length more))
      by (rewrite Hls; apply length_firstn).
    assert (Hkn : k = Z.to_nat cnt) by lia.
    subst k. specialize (Hps eq_refl).
    exists header, more, cnt, rest.
    replace (refreshes cnt) with (S (Z.to_nat cnt))
      by (unfold refreshes; destruct (Z.eqb_spec cnt 0); [lia | reflexivity]).
    rewrite Nat.iter_succ_r.
    repeat split; try assumption; try lia.
    + exists num. repeat split; [assumption | assumption | lia].
    + unfold replyLines. destruct (Z.eqb_spec cnt 0); [lia | assumption].
    + cbn in Hwk. congruence.
Qed.

Lemma ExecCmd_Val c st lines st' :
  ExecCmd c st = (Val lines, st') ->
  exists st1, sendCmd c st = (Val tt, st1) /\ readReply st1 = (Val lines, st').
Proof.
  unfold ExecCmd, bind.
  destruct (sendCmd c st) as [[[]|e|] st1]; try discriminate.
  intros H. now exists st1.
Qed.

Lemma splitHeader_rest l num rest :
  splitHeader l = Some (num, rest) -> allb notNewline rest = true.
Proof.
  unfold splitHeader.
  destruct (match l with
            | EmptyString => (EmptyString, l)
            | String c s' =>
                if Ascii.eqb "-" c then ("-"%string, s') else (EmptyString, l)
            end) as [sign s1].
  destruct (span isDigit s1) as [ds s2].
  destruct (span isSpace s2) as [ws rest'].
  destruct ds; [discriminate|]. destruct ws; [discriminate|].
  destruct (allb notNewline rest') eqn:E; [|discriminate].
  now intros [= _ <-].
Qed.

Lemma Forall_firstn_keep {A} (P : A -> Prop) n (l : list A) :
  Forall P l -> Forall P (firstn n l).
Proof.
  intros H. revert n. induction H; intros [|n]; cbn; constructor; auto.
Qed.

Lemma Frames_rest header cnt rest :
  Frames header cnt rest -> allb notNewline rest = true.
Proof.
  intros (num & Hm & _). rewrite respRe_splitHeader in Hm.
  destruct (splitHeader header) as [[n r]|] eqn:Hs; [|discriminate].
  injection Hm as _ <-. now apply splitHeader_rest in Hs.
Qed.

Lemma ExecCmd_nil c st :
  conn (client st) = None -> ExecCmd c st = (Panic, st).
Proof.
  intros Hc. unfold ExecCmd, sendCmd, bind, setDeadline, Conn_SetDeadline, onConn.
  now rewrite Hc.
Qed.

Lemma Close_nil st : conn (client st) = None -> Close st = (Panic, st).
Proof.
  intros Hc. unfold Close, bind, catch, setDeadline, Conn_SetDeadline, onConn.
  now rewrite Hc.
Qed.

(** The lines [ExecCmd] returns are never none, and none of them holds
    a line feed. *)
Lemma ExecCmd_Val_lines c st lines st' :
  ExecCmd c st = (Val lines, st') ->
  lines <> [] /\ Forall (fun l => allb notNewline l = true) lines.
Proof.
  intros HE. destruct (ExecCmd_Val _ _ _ _ HE) as (st1 & Hs & Hr).
  pose proof (sendCmd_connected _ _ _ Hs) as Hcn.
  destruct (conn (client st1)) as [cn1|] eqn:Hc1; [|congruence].
  pose proof (readReply_outcome _ _ _ _ Hc1 Hr) as
    (header & more & cnt & rest & Hp & HF & Hlen & -> & _).
  pose proof (pending_notNewline st1) as Hall. rewrite Hp in Hall.
  inversion Hall as [|? ? _ Hmore]; subst.
  unfold replyLines. destruct (Z.eqb_spec cnt 0) as [Hz|Hnz].
  - split; [discriminate|]. constructor; [|constructor].
    now apply Frames_rest in HF.
  - destruct HF as (num & _ & _ & Hnn). split.
    + destruct more as [|m more']; [cbn in Hlen; lia|].
      destruct (Z.to_nat cnt) eqn:E; [lia | discriminate].
    + now apply Forall_firstn_keep.
Qed.

(** X2.  [ExecCmd] returns lines only for a complete reply: when it
    succeeds, the first pending line was a status line with a count
    [cnt >= 0], at least [cnt] lines followed it, the result is the
    status text for [cnt = 0] and the first [cnt] of these lines
    otherwise, and what follows them is still in the stream.  The
    result is never empty and none of its lines holds a line feed. *)
Theorem ExecCmd_success_complete c st lines st' :
  ExecCmd c st = (Val lines, st') ->
  (exists st1 header more cnt rest,
     sendCmd c st = (Val tt, st1) /\
     pending st1 = header :: more /\ Frames header cnt rest /\
     (Z.to_nat cnt <= List.length more)%nat /\
     lines = replyLines cnt rest more /\
     pending st' = skipn (Z.to_nat cnt) more) /\
  lines <> [] /\
  Forall (fun l => allb notNewline l = true) lines.
Proof.
  intros HE. split; [|exact (ExecCmd_Val_lines _ _ _ _ HE)].
  destruct (ExecCmd_Val _ _ _ _ HE) as (st1 & Hs & Hr).
  pose proof (sendCmd_connected _ _ _ Hs) as Hcn.
  destruct (conn (client st1)) as [cn1|] eqn:Hc1; [|congruence].
  pose proof (readReply_outcome _ _ _ _ Hc1 Hr) as
    (header & more & cnt & rest & Hp & HF & Hlen & Hl & Hp' & _).
  now exists st1, header, more, cnt, rest.
Qed.

(** X3.  When [ExecCmd] succeeds, the connection then in use has
    received the command line as its last write, and after it only
    refreshes of the deadline: one before the first read and, for a
    reply with a count above zero, one before the content lines and one
    after each of them. *)
Theorem ExecCmd_calls c st lines st' :
  ExecCmd c st = (Val lines, st') ->
  exists st1 header more cnt rest cn' pre,
    sendCmd c st = (Val tt, st1) /\
    pending st1 = header :: more /\ Frames header cnt rest /\
    conn (client st') = Some cn' /\
    calls cn' =
      pre ++ CallWrite (Cmd_String c)
          :: repeat CallSetDeadline (S (refreshes cnt)).
Proof.
  intros HE. destruct (ExecCmd_Val _ _ _ _ HE) as (st1 & Hs & Hr).
  assert (Hcn : conn (client st) <> None).
  { intros Hc. rewrite (ExecCmd_nil _ _ Hc) in HE. discriminate. }
  pose proof (sendCmd_outcome c st Hcn) as Ho. rewrite Hs in Ho.
  destruct Ho as (cn1 & pre & Hc1 & Hcalls).
  pose proof (readReply_outcome _ _ _ _ Hc1 Hr) as
    (header & more & cnt & rest & Hp & HF & _ & _ & _ & Hc' & _).
  exists st1, header, more, cnt, rest,
    (Nat.iter (refreshes cnt) afterSetDeadline cn1), pre.
  repeat split; try assumption.
  rewrite calls_refreshed, Hcalls, <- app_assoc. reflexivity.
Qed.

(** ** Exchanges on a willing connection *)

Lemma Forall_hd_None (l : list (option error)) :
  Forall (fun r => r = None) l -> hd None l = None.
Proof. intros [|r rs Hr _]; [reflexivity | exact Hr]. Qed.

Lemma Forall_tl_None (l : list (option error)) :
  Forall (fun r => r = None) l -> Forall (fun r => r = None) (tl l).
Proof. intros [|r rs _ H]; [constructor | exact H]. Qed.

Lemma willing_afterSetDeadline cn : willing cn -> willing (afterSetDeadline cn).
Proof. intros [Hd Hw]. split; [now apply Forall_tl_None | exact Hw]. Qed.

Lemma willing_afterWrite cn data : willing cn -> willing (afterWrite cn data).
Proof. intros [Hd Hw]. split; [exact Hd | now apply Forall_tl_None]. Qed.

Lemma willing_refreshed k cn :
  willing cn -> willing (Nat.iter k afterSetDeadline cn).
Proof.
  intros H. induction k as [|k IH]; [exact H|].
  rewrite Nat.iter_succ. now apply willing_afterSetDeadline.
Qed.

Lemma written_refreshed k cn :
  written (calls (Nat.iter k afterSetDeadline cn)) = written (calls cn).
Proof.
  rewrite calls_refreshed, written_app.
  induction k as [|k IH]; cbn; [apply app_nil_r | exact IH].
Qed.

(** When the first refresh and the write succeed, the command is sent
    without a dial and the outcome is that of the second refresh. *)
Lemma sendCmd_run c st cn :
  conn (client st) = Some cn ->
  hd None (deadlines cn) = None -> hd None (writes cn) = None ->
  sendCmd c st =
  (result (hd None (tl (deadlines cn))),
   mkSt (set_conn (client st) (Some (afterSend cn c)))
     (mkWorld (dials (world st)) (stdout (world st) ++ [commandNotice c])
        (room (world st)))).
Proof.
  intros Hcn Hd Hw.
  set (sa := mkSt (set_conn (client st) (Some (afterSetDeadline cn))) (world st)).
  set (sb := mkSt (set_conn (client sa)
                     (Some (afterWrite (afterSetDeadline cn) (Cmd_String c))))
                  (world sa)).
  assert (HL : writeLoop (Cmd_String c) sa = (Val tt, sb)).
  { rewrite writeLoop_turn.
    now rewrite (writeAttempt_ok (Cmd_String c) sa (afterSetDeadline cn)
                   eq_refl Hw). }
  unfold sendCmd, writeCmd.
  step (setDeadline_first _ _ Hcn Hd). fold sa. step HL.
  unfold Printf at 1. unfold bind at 1.
  unfold setDeadline, Conn_SetDeadline, onConn. reflexivity.
Qed.

Lemma Frames_unique header cnt rest cnt' rest' :
  Frames header cnt rest -> Frames header cnt' rest' ->
  cnt = cnt' /\ rest = rest'.
Proof.
  intros (num & Hm & Ha & _) (num' & Hm' & Ha' & _).
  rewrite Hm in Hm'. injection Hm' as <- <-.
  rewrite Ha in Ha'. injection Ha' as <-. now split.
Qed.

(** With a complete reply pending and deadlines that hold, the decoder
    returns. *)
Lemma readReply_complete st header more cnt rest :
  deadlinesHold st ->
  pending st = header :: more -> Frames header cnt rest ->
  allocates st cnt ->
  (Z.to_nat cnt <= List.length more)%nat ->
  exists st', readReply st = (Val (replyLines cnt rest more), st').
Proof.
  intros Hd Hp (num & Hm & Ha & Hcnt) Hal Hlen.
  destruct (readReply_scanned _ _ _ Hp) as (sa & -> & Hpa & _ & Hca & Hwa & _).
  assert (Hda : deadlinesHold sa)
    by (destruct Hd as (cn & ? & ?); exists cn; split; congruence).
  unfold decodeStatus, replyLines. rewrite Hm.
  cbn [List.length Nat.eqb negb nth]. rewrite Ha.
  destruct (cnt <? 0) eqn:Hneg; [apply Z.ltb_lt in Hneg; lia|].
  destruct (cnt =? 0) eqn:Hzero; [now exists sa|].
  destruct (setDeadline_holds _ Hda) as (sb & HD & Hdb & Hsb & Hwb).
  assert (Hmk : makeLines cnt sb = (Val tt, sb)).
  { apply makeLines_ok. apply (allocates_world st); [congruence | assumption]. }
  destruct (collectLines_enough (Z.to_nat cnt) sb [] Hdb) as (sc & HC & _).
  { now rewrite (pending_scanner _ _ Hsb), Hpa. }
  rewrite (pending_scanner _ _ Hsb), Hpa in HC.
  exists sc. step HD. step Hmk. step HC. cbn [app].
  rewrite firstn_length_le by assumption.
  now rewrite Z2Nat.id, Z.eqb_refl by assumption.
Qed.

(** One exchange on a willing connection with a complete reply
    pending. *)
Lemma ExecCmd_exchange c st cn header more cnt rest :
  conn (client st) = Some cn -> willing cn ->
  pending st = header :: more -> Frames header cnt rest ->
  allocates st cnt ->
  (Z.to_nat cnt <= List.length more)%nat ->
  exists st',
    ExecCmd c st = (Val (replyLines cnt rest more), st') /\
    conn (client st') =
      Some (Nat.iter (refreshes cnt) afterSetDeadline (afterSend cn c)) /\
    pending st' = skipn (Z.to_nat cnt) more /\
    world st' =
      mkWorld (dials (world st)) (stdout (world st) ++ [commandNotice c])
        (room (world st)).
Proof.
  intros Hcn [Hdl Hwr] Hp HF Hal Hlen.
  pose proof (sendCmd_run c st cn Hcn (Forall_hd_None _ Hdl)
                (Forall_hd_None _ Hwr)) as Hs.
  rewrite (Forall_hd_None _ (Forall_tl_None _ Hdl)) in Hs. cbn [result] in Hs.
  set (st1 := mkSt (set_conn (client st) (Some (afterSend cn c)))
                (mkWorld (dials (world st))
                   (stdout (world st) ++ [commandNotice c])
                   (room (world st)))) in Hs.
  assert (Hp1 : pending st1 = header :: more) by exact Hp.
  assert (Hd1 : deadlinesHold st1).
  { exists (afterSend cn c). split; [reflexivity|].
    cbn. now apply Forall_tl_None, Forall_tl_None. }
  assert (Hal1 : allocates st1 cnt) by exact Hal.
  destruct (readReply_complete _ _ _ _ _ Hd1 Hp1 HF Hal1 Hlen) as (st' & Hr).
  exists st'. unfold ExecCmd. step Hs. split; [exact Hr|].
  pose proof (readReply_outcome st1 (afterSend cn c) _ _ eq_refl Hr) as
    (h' & m' & cnt' & rest' & Hp' & HF' & _ & _ & Hpend & Hconn & Hworld).
  rewrite Hp1 in Hp'. injection Hp' as <- <-.
  destruct (Frames_unique _ _ _ _ _ HF HF') as [<- <-].
  now repeat split.
Qed.

(** X4.  Two commands in a row on a willing connection, with the two
    replies complete in the stream, each line short enough for the
    scanner, and room in memory for the lines of each reply: each call
    returns its own reply, in order; the two command lines are the only
    bytes written, in order; no dial is made, and the client stays
    ready for the next command. *)
Theorem ExecCmd_in_sequence c1 c2 st cn
    h1 cnt1 rest1 more1 h2 cnt2 rest2 more2 :
  conn (client st) = Some cn -> willing cn ->
  pending st = h1 :: more1 -> Frames h1 cnt1 rest1 ->
  allocates st cnt1 ->
  (Z.to_nat cnt1 <= List.length more1)%nat ->
  skipn (Z.to_nat cnt1) more1 = h2 :: more2 -> Frames h2 cnt2 rest2 ->
  allocates st cnt2 ->
  (Z.to_nat cnt2 <= List.length more2)%nat ->
  exists st' cn',
    (l1 <- ExecCmd c1 ;; l2 <- ExecCmd c2 ;; ret (l1, l2)) st =
      (Val (replyLines cnt1 rest1 more1, replyLines cnt2 rest2 more2), st') /\
    conn (client st') = Some cn' /\ willing cn' /\
    written (calls cn') =
      written (calls cn) ++ [Cmd_String c1; Cmd_String c2] /\
    pending st' = skipn (Z.to_nat cnt2) more2 /\
    dials (world st') = dials (world st).
Proof.
  intros Hcn Hw Hp1 HF1 Ha1 Hl1 Hp2 HF2 Ha2 Hl2.
  destruct (ExecCmd_exchange c1 st cn _ _ _ _ Hcn Hw Hp1 HF1 Ha1 Hl1)
    as (sa & HE1 & Hca & Hpa & Hwa).
  assert (Ha2' : allocates sa cnt2)
    by (unfold allocates in *; now rewrite Hwa).
  rewrite Hp2 in Hpa.
  assert (Hwa' : willing (Nat.iter (refreshes cnt1) afterSetDeadline
                            (afterSend cn c1))).
  { apply willing_refreshed. unfold afterSend.
    now apply willing_afterSetDeadline, willing_afterWrite,
      willing_afterSetDeadline. }
  destruct (ExecCmd_exchange c2 sa _ _ _ _ _ Hca Hwa' Hpa HF2 Ha2' Hl2)
    as (sb & HE2 & Hcb & Hpb & Hwb).
  exists sb. eexists. split; [|split; [exact Hcb|]].
  - step HE1. step HE2. reflexivity.
  - split; [|split; [|split]].
    + apply willing_refreshed. unfold afterSend.
      now apply willing_afterSetDeadline, willing_afterWrite,
        willing_afterSetDeadline.
    + rewrite written_refreshed. unfold afterSend at 1.
      cbn [afterSetDeadline afterWrite calls].
      rewrite !written_app, written_refreshed. unfold afterSend.
      cbn [afterSetDeadline afterWrite calls].
      rewrite !written_app. cbn [written].
      rewrite !app_nil_r, <- app_assoc. reflexivity.
    + exact Hpb.
    + rewrite Hwb, Hwa. reflexivity.
Qed.

(** X5.  A refresh of the deadline that fails with [e] makes [ExecCmd]
    return [e] itself, not wrapped.  When it is the refresh before the
    write, nothing is written, read, dialled or printed.  When it is the
    refresh after the write, the command has been written and the reply
    is left unread in the stream. *)
Theorem ExecCmd_deadline_failure c st cn e :
  conn (client st) = Some cn ->
  (hd None (deadlines cn) = Some e ->
   ExecCmd c st =
   (Fail e,
    mkSt (set_conn (client st) (Some (afterSetDeadline cn))) (world st))) /\
  (hd None (deadlines cn) = None -> hd None (writes cn) = None ->
   hd None (tl (deadlines cn)) = Some e ->
   exists st',
     ExecCmd c st = (Fail e, st') /\
     conn (client st') = Some (afterSend cn c) /\
     written (calls (afterSend cn c)) = written (calls cn) ++ [Cmd_String c] /\
     pending st' = pending st /\
     dials (world st') = dials (world st)).
Proof.
  intros Hcn. split.
  - intros Hd. unfold ExecCmd, sendCmd.
    assert (HD : setDeadline st =
                 (Fail e, mkSt (set_conn (client st)
                                  (Some (afterSetDeadline cn))) (world st))).
    { rewrite (setDeadline_run _ _ Hcn), Hd. reflexivity. }
    unfold bind at 1 2. now rewrite HD.
  - intros Hd Hw Hd2.
    pose proof (sendCmd_run c st cn Hcn Hd Hw) as Hs.
    rewrite Hd2 in Hs. cbn [result] in Hs.
    eexists. split; [unfold ExecCmd; now step Hs|].
    split; [reflexivity|]. split; [|split; reflexivity].
    unfold afterSend. cbn [afterSetDeadline afterWrite calls].
    rewrite !written_app. cbn [written]. now rewrite !app_nil_r.
Qed.

(** X7.  When the command is sent and no line of a reply can be
    scanned, [ExecCmd] fails with the scan error, which wraps the cause:
    the error of the read that ended the stream, [io.ErrUnexpectedEOF]
    when the stream was closed cleanly, and [bufio.ErrTooLong] when the
    first line has [MaxScanTokenSize] bytes or more.  [Unwrap] gives the
    cause, and [errors.Is] finds in the scan error the values of
    [syscall.Errno] it finds in the cause. *)
Theorem ExecCmd_no_reply c st st1 :
  sendCmd c st = (Val tt, st1) ->
  pending st1 = [] -> done (scanner (client st1)) = false ->
  let cause := match stopError st1 with
               | Some e => e
               | None => io_ErrUnexpectedEOF
               end in
  fst (ExecCmd c st) = Fail (ErrorfW "scan error: %w" [] cause) /\
  Unwrap (ErrorfW "scan error: %w" [] cause) = Some cause /\
  (forall errno,
     errors_Is (ErrorfW "scan error: %w" [] cause) errno =
     errors_Is cause errno).
Proof.
  intros Hs Hp Hdn cause. split; [|split].
  - rewrite (ExecCmd_sent _ _ _ Hs).
    destruct (Scan_end _ Hp Hdn) as (sa & HS & He & _).
    unfold readReply. step HS. cbn [negb]. step (scanErr_value sa).
    unfold throw. cbn [fst]. now rewrite He.
  - reflexivity.
  - intros errno. reflexivity.
Qed.

(** X8.  When the write fails with a broken pipe or a reset and the
    dial that follows fails, [ExecCmd] leaves the client without
    connection: from then on [ExecCmd] and [Close] panic, whatever the
    command, and they panic before any dial. *)
Theorem ExecCmd_after_failed_redial c st cn err e2 ds :
  conn (client st) = Some cn ->
  hd None (deadlines cn) = None ->
  hd None (writes cn) = Some err -> isReset err = true ->
  nextDial (world st) = (DialError e2, ds) ->
  let st' := snd (ExecCmd c st) in
  conn (client st') = None /\
  dials (world st') = ds /\
  (forall c', ExecCmd c' st' = (Panic, st')) /\
  Close st' = (Panic, st').
Proof.
  intros Hcn Hd Hw Hr Hdial st'.
  set (sd := mkSt (set_conn (client st) (Some (afterSetDeadline cn))) (world st)).
  assert (HE : ExecCmd c st =
               (Fail (ErrorfW "failed to write (%s) and failed to reestablish: %w"
                        [AErrorText err] (ErrorfW "failed to dial: %w" [] e2)),
                mkSt (set_conn (client sd) None)
                  (mkWorld ds (stdout (world sd)
                                 ++ [(reconnectNotice, [AErrorText err])])
                     (room (world sd))))).
  { assert (HL : writeLoop (Cmd_String c) sd =
                 (Fail (ErrorfW "failed to write (%s) and failed to reestablish: %w"
                          [AErrorText err] (ErrorfW "failed to dial: %w" [] e2)),
                  mkSt (set_conn (client sd) None)
                    (mkWorld ds (stdout (world sd)
                                   ++ [(reconnectNotice, [AErrorText err])])
                       (room (world sd))))).
    { rewrite writeLoop_turn.
      now rewrite (writeAttempt_redial_fails _ sd (afterSetDeadline cn)
                     err e2 ds eq_refl Hw Hr Hdial). }
    assert (Hs : sendCmd c st =
                 (Fail (ErrorfW "failed to write (%s) and failed to reestablish: %w"
                          [AErrorText err] (ErrorfW "failed to dial: %w" [] e2)),
                  mkSt (set_conn (client sd) None)
                    (mkWorld ds (stdout (world sd)
                                   ++ [(reconnectNotice, [AErrorText err])])
                       (room (world sd))))).
    { unfold sendCmd. step (setDeadline_first _ _ Hcn Hd). fold sd.
      unfold writeCmd. now step HL. }
    unfold ExecCmd. now step Hs. }
  assert (Hnil : conn (client st') = None)
    by (unfold st'; now rewrite HE).
  split; [exact Hnil|]. split; [unfold st'; now rewrite HE|].
  split; [intros c'; now apply ExecCmd_nil | now apply Close_nil].
Qed.

(** X17.  A status line with a positive count for which the slice of
    the lines cannot be made, because the count is above the largest
    capacity the run time accepts (2^44 strings) or because the memory
    has no room for it: when the refresh of the deadline that follows
    the status line succeeds, [ExecCmd] panics, whatever follows in the
    stream; it returns no error and reads no line after the status
    line. *)
Theorem ExecCmd_make_panics c st st1 header more num rest cnt :
  sendCmd c st = (Val tt, st1) ->
  deadlinesHold st1 ->
  pending st1 = header :: more ->
  FindStringSubmatch respRe header = [header; num; rest] ->
  Atoi num = inl cnt ->
  0 < cnt ->
  ~ allocates st1 cnt ->
  fst (ExecCmd c st) = Panic /\
  pending (snd (ExecCmd c st)) = more.
Proof.
  intros Hsent Hd Hp Hm Ha Hpos Hal.
  rewrite (ExecCmd_sent _ _ _ Hsent).
  destruct (readReply_scanned _ _ _ Hp) as
    (sa & -> & Hpa & Hdn & Hca & Hwa & Hra).
  unfold decodeStatus. rewrite Hm. cbn [List.length Nat.eqb negb nth].
  rewrite Ha.
  destruct (cnt <? 0) eqn:Hneg; [apply Z.ltb_lt in Hneg; lia|].
  destruct (cnt =? 0) eqn:Hzero; [apply Z.eqb_eq in Hzero; lia|].
  assert (Hda : deadlinesHold sa)
    by (destruct Hd as (cn & ? & ?); exists cn; split; congruence).
  destruct (setDeadline_holds _ Hda) as (sb & HD & Hdb & Hsb & Hwb).
  assert (Hmk : makeLines cnt sb = (Panic, sb)).
  { apply makeLines_panics. intros H. apply Hal.
    apply (allocates_world sb); [congruence | assumption]. }
  step HD. step Hmk. cbn [fst snd].
  split; [reflexivity|]. now rewrite (pending_scanner _ _ Hsb).
Qed.

(** ** Construction *)

Lemma applyOptions_app pre rest : forall c c1,
  applyOptions pre c = inl c1 ->
  applyOptions (pre ++ rest) c = applyOptions rest c1.
Proof.
  induction pre as [|[f|] pre IH]; intros c c1; cbn.
  - now intros [= ->].
  - destruct (f c) as [c' [err|]]; [discriminate|]. apply IH.
  - discriminate.
Qed.

Lemma applyOptions_settings ss : forall c,
  applyOptions (map optionOf ss) c =
  inl (mkClient (conn c) (addr c)
         (if usesUnix ss then "unix"%string else network c)
         (fold_left (fun t s => match s with
                                | SetTimeout t' => t'
                                | SetUnix => t
                                end) ss (timeout c))
         (scanner c)).
Proof.
  induction ss as [|[t|] ss IH]; intros c; cbn.
  - now destruct c.
  - rewrite IH. reflexivity.
  - rewrite IH. cbn. now destruct (usesUnix ss).
Qed.

Lemma initConnection_dialed st cn ds :
  dials (world st) = Dialed cn :: ds ->
  initConnection st =
  (Val tt,
   mkSt (set_scanner (set_conn (client st) (Some cn)) (NewScanner cn))
     (mkWorld ds (stdout (world st)) (room (world st)))).
Proof.
  intros Hd. unfold initConnection, bind, DialTimeout, nextDial.
  now rewrite Hd.
Qed.

Lemma initConnection_refused st e ds :
  nextDial (world st) = (DialError e, ds) ->
  initConnection st =
  (Fail (ErrorfW "failed to dial: %w" [] e),
   mkSt (set_conn (client st) None)
     (mkWorld ds (stdout (world st)) (room (world st)))).
Proof.
  intros Hd. unfold initConnection, bind, DialTimeout. now rewrite Hd.
Qed.

(** X9.  [NewClient] stops at the first option that is nil or that
    fails: it returns [ErrNilOption], or the error of the option as it
    is, the options after it are not run, and no connection is
    dialled. *)
Theorem NewClient_option_failure a pre rest w c0 :
  applyOptions pre (mkClient None a "tcp" DefaultTimeout noScanner) = inl c0 ->
  NewClient a (pre ++ None :: rest) w = (Fail ErrNilOption, w) /\
  (forall f c' err, f c0 = (c', Some err) ->
     NewClient a (pre ++ Some f :: rest) w = (Fail err, w)).
Proof.
  intros Hpre. split.
  - unfold NewClient. now rewrite (applyOptions_app _ _ _ _ Hpre).
  - intros f c' err Hf. unfold NewClient.
    rewrite (applyOptions_app _ _ _ _ Hpre). cbn. now rewrite Hf.
Qed.

(** X10.  With the options [Timeout] and [Unix], in any number and
    order, and a dial that succeeds, [NewClient] returns a client on
    the dialled connection, with a fresh scanner over it and no call
    made on it yet.  The network is "unix" when [Unix] was given and
    "tcp" otherwise; the timeout is the last one given, or ten seconds;
    the address gets ":42217" appended exactly when the network is
    "tcp" and the address holds no colon.  One dial is consumed. *)
Theorem NewClient_connects a ss w cn ds :
  dials w = Dialed cn :: ds ->
  NewClient a (map optionOf ss) w =
  (Val (mkClient (Some cn)
          (if usesUnix ss then a
           else if Contains a ":" then a else (a ++ ":42217")%string)
          (if usesUnix ss then "unix"%string else "tcp"%string)
          (timeoutOf ss)
          (NewScanner cn)),
   mkWorld ds (stdout w) (room w)).
Proof.
  intros Hd. unfold NewClient. rewrite applyOptions_settings.
  cbn [conn addr network timeout scanner].
  fold (timeoutOf ss).
  set (c1 := mkClient None a (if usesUnix ss then "unix"%string else "tcp"%string)
               (timeoutOf ss) noScanner).
  rewrite (initConnection_dialed (mkSt (withDefaultPort c1) w) cn ds Hd).
  cbn [client world]. f_equal. f_equal.
  unfold withDefaultPort, c1. cbn [network addr].
  destruct (usesUnix ss); cbn [String.eqb Ascii.eqb Bool.eqb].
  - reflexivity.
  - destruct (Contains a ":"); cbn [negb]; [reflexivity|].
    unfold set_scanner, set_conn, set_addr.
    cbn [conn addr network timeout scanner]. f_equal.
Qed.

(** X11.  When the options pass and the dial fails with [e], [NewClient]
    returns no client and the error of the dial wrapped twice, once as
    "failed to dial" and once as "failed to establish initial
    connection"; [errors.Is] finds in it the values of [syscall.Errno]
    it finds in [e]. *)
Theorem NewClient_dial_failure a options w c0 e ds :
  applyOptions options (mkClient None a "tcp" DefaultTimeout noScanner)
    = inl c0 ->
  nextDial w = (DialError e, ds) ->
  let err := ErrorfW "failed to establish initial connection: %w" []
               (ErrorfW "failed to dial: %w" [] e) in
  NewClient a options w = (Fail err, mkWorld ds (stdout w) (room w)) /\
  (forall errno, errors_Is err errno = errors_Is e errno).
Proof.
  intros Hopt Hd err. split.
  - unfold NewClient. rewrite Hopt.
    now rewrite (initConnection_refused (mkSt (withDefaultPort c0) w) e ds Hd).
  - intros errno. reflexivity.
Qed.

Lemma closeErr_refreshed k cn :
  closeErr (Nat.iter k afterSetDeadline cn) = closeErr cn.
Proof.
  induction k as [|k IH]; [reflexivity|]. rewrite Nat.iter_succ. exact IH.
Qed.

(** X12.  A whole session on a willing connection that closes without
    error: [NewClient], one [ExecCmd] whose reply is complete in the
    stream, with lines short enough for the scanner and room in memory
    for them, [Close].  The command returns its reply, [Close] returns no
    error, and the connection has received, in this order: a refresh of
    the deadline, the command line, the refreshes of the reply decoder,
    a last refresh, the bytes of "quit", and the close.  Only the first
    dial is consumed. *)
Theorem session_calls a ss c w cn ds header more cnt rest :
  dials w = Dialed cn :: ds -> willing cn -> closeErr cn = None ->
  scannable (inbound cn) = header :: more ->
  Frames header cnt rest ->
  cnt <= maxSliceCap -> cnt <= room w ->
  (Z.to_nat cnt <= List.length more)%nat ->
  exists cl st1 st2 cn',
    NewClient a (map optionOf ss) w = (Val cl, mkWorld ds (stdout w) (room w)) /\
    ExecCmd c (mkSt cl (mkWorld ds (stdout w) (room w))) =
      (Val (replyLines cnt rest more), st1) /\
    Close st1 = (Val tt, st2) /\
    conn (client st2) = Some cn' /\
    calls cn' =
      calls cn ++ CallSetDeadline :: CallWrite (Cmd_String c)
        :: repeat CallSetDeadline (S (refreshes cnt))
        ++ [CallSetDeadline; CallWrite "quit"; CallClose] /\
    dials (world st2) = ds.
Proof.
  intros Hd Hw Hce Hlines HF Hcap Hroom Hlen.
  unfold NewClient. rewrite applyOptions_settings.
  cbn [conn addr network timeout scanner].
  set (c1 := mkClient None a _ _ noScanner).
  rewrite (initConnection_dialed (mkSt (withDefaultPort c1) w) cn ds Hd).
  cbn [client world].
  set (cl := set_scanner (set_conn (withDefaultPort c1) (Some cn)) (NewScanner cn)).
  set (st0 := mkSt cl (mkWorld ds (stdout w) (room w))).
  assert (Hp0 : pending st0 = header :: more) by exact Hlines.
  assert (Hal : allocates st0 cnt) by (split; assumption).
  destruct (ExecCmd_exchange c st0 cn header more cnt rest eq_refl Hw Hp0 HF
              Hal Hlen)
    as (st1 & HE & Hc1 & _ & Hw1).
  set (cn1 := Nat.iter (refreshes cnt) afterSetDeadline (afterSend cn c)) in Hc1.
  assert (Hwill : willing cn1).
  { apply willing_refreshed. unfold afterSend.
    now apply willing_afterSetDeadline, willing_afterWrite,
      willing_afterSetDeadline. }
  pose proof (Close_run st1 cn1 Hc1) as HC.
  assert (Hce1 : closeErr cn1 = None)
    by (unfold cn1; now rewrite closeErr_refreshed).
  rewrite Hce1, (Forall_hd_None _ (proj1 Hwill)),
    (Forall_hd_None _ (proj2 Hwill)) in HC. cbn [result] in HC.
  exists cl, st1. do 2 eexists.
  split; [reflexivity|]. split; [exact HE|]. split; [exact HC|].
  split; [reflexivity|]. split.
  - cbn [afterClose afterWrite afterSetDeadline calls].
    unfold cn1. rewrite calls_refreshed. unfold afterSend.
    cbn [afterClose afterWrite afterSetDeadline calls].
    rewrite <- !app_assoc. cbn [app repeat]. reflexivity.
  - cbn [world]. now rewrite Hw1.
Qed.

(** ** The info reply *)

Lemma decodeLines_inl ParseFloat lines : forall data,
  decodeLines ParseFloat lines = inl data ->
  Forall2 (Decodes ParseFloat) lines data.
Proof.
  induction lines as [|line lines IH]; intros data; cbn.
  - intros [= <-]. constructor.
  - destruct (decodeLine ParseFloat line) as [info|e] eqn:Hd; [|discriminate].
    destruct (decodeLines ParseFloat lines) as [data'|e]; [|discriminate].
    intros [= <-]. constructor; [|now apply IH].
    now apply decodeLine_Decodes.
Qed.

Lemma Info_run ParseFloat filename st :
  Info ParseFloat filename st =
  match ExecCmd (WithArgs (NewCmd "info") [filename]) st with
  | (Val lines, st') =>
      match decodeLines ParseFloat lines with
      | inr e => (Fail e, st')
      | inl data => (Val data, st')
      end
  | (Fail e, st') =>
      (Fail (ErrorfW "failed to get info for '%s': %w" [AString filename] e),
       st')
  | (Panic, st') => (Panic, st')
  end.
Proof.
  unfold Info, bind, wrapError.
  destruct (ExecCmd (WithArgs (NewCmd "info") [filename]) st)
    as [[lines|e|] st']; try reflexivity.
  now destruct (decodeLines ParseFloat lines).
Qed.

Lemma Decodes_key ParseFloat line info :
  Decodes ParseFloat line info -> isField (Key info) = true.
Proof. now intros [key raw Hk|key raw v Hk _|key raw v Hk _]. Qed.

(** X13.  When [ExecCmd] fails, [Info] and [InfoMap] fail with that
    error wrapped once, with the file name in the text; a protocol
    error of the daemon is still found in it by [errors.As], with its
    code and message, and [errors.Is] finds in it the values of
    [syscall.Errno] it finds in the error of [ExecCmd]. *)
Theorem Info_error_wrapped ParseFloat filename st e st' :
  ExecCmd (WithArgs (NewCmd "info") [filename]) st = (Fail e, st') ->
  let err := ErrorfW "failed to get info for '%s': %w" [AString filename] e in
  Info ParseFloat filename st = (Fail err, st') /\
  InfoMap ParseFloat filename st = (Fail err, st') /\
  errors_As_RrdError err = errors_As_RrdError e /\
  (forall errno, errors_Is err errno = errors_Is e errno).
Proof.
  intros HE err.
  assert (HI : Info ParseFloat filename st = (Fail err, st'))
    by (rewrite Info_run, HE; reflexivity).
  split; [exact HI|]. split; [unfold InfoMap; now step HI|].
  split; [reflexivity | intros errno; reflexivity].
Qed.

(** X14.  When [Info] returns entries, [ExecCmd] had returned lines that
    are all well formed, and the entries are their decodings, one per
    line and in order; there is at least one entry, and no key holds a
    space. *)
Theorem Info_success_entries ParseFloat filename st data st' :
  Info ParseFloat filename st = (Val data, st') ->
  exists lines,
    ExecCmd (WithArgs (NewCmd "info") [filename]) st = (Val lines, st') /\
    Forall2 (Decodes ParseFloat) lines data /\
    data <> [] /\
    Forall (fun info => isField (Key info) = true) data.
Proof.
  rewrite Info_run.
  destruct (ExecCmd (WithArgs (NewCmd "info") [filename]) st)
    as [[lines|e|] s] eqn:HE; try discriminate.
  destruct (decodeLines ParseFloat lines) as [d|e] eqn:HD; [|discriminate].
  intros [= -> ->]. exists lines. split; [reflexivity|].
  apply decodeLines_inl in HD. split; [exact HD|].
  destruct (ExecCmd_Val_lines _ _ _ _ HE) as [Hne _]. split.
  - destruct HD; [contradiction | discriminate].
  - clear HE Hne. induction HD as [|l i ls ds Hd _ IH]; constructor.
    + now apply Decodes_key in Hd.
    + exact IH.
Qed.

(** X15.  An info line with the tag 1 and a decimal numeral, with or
    without minus sign, gives an integer entry exactly when the value
    fits in 64 bits with sign, from -2^63 to 2^63 - 1; otherwise the
    line is refused with the invalid-response error that names the
    key. *)
Theorem Info_int_range ParseFloat key neg ds :
  isField key = true -> isNumeral ds = true ->
  let v := decimalValue ds in
  let line := (key ++ " 1 " ++ signOf neg ++ ds)%string in
  decodeLine ParseFloat line =
  if (if neg then v <=? 2 ^ 63 else v <? 2 ^ 63)
  then inl (mkInfo key (VInt (if neg then - v else v)))
  else inr (InvalidResponseError ("info: invalid int for key " ++ key) line).
Proof.
  intros Hk Hn v line.
  assert (HP : ParseInt (signOf neg ++ ds) =
               if (if neg then v <=? 2 ^ 63 else v <? 2 ^ 63)
               then inl (if neg then - v else v)
               else inr (NumError "ParseInt" (signOf neg ++ ds) ErrRange)).
  { unfold ParseInt. destruct neg; cbn [signOf String.append].
    - apply (parseInt64_minus_numeral _ _ Hn).
    - apply (parseInt64_numeral _ _ Hn). }
  destruct (if neg then v <=? 2 ^ 63 else v <? 2 ^ 63).
  - apply decodeLine_Decodes. now apply Decodes_int.
  - apply decodeLine_Rejects. eapply Rejects_int; eassumption.
Qed.

(** ** The info reply as a map *)

Lemma table_get_set m k v k' :
  table_get (table_set m k v) k' =
  if String.eqb k k' then Some v else table_get m k'.
Proof.
  unfold table_get, table_set. cbn [find fst].
  destruct (String.eqb k k') eqn:E; [reflexivity|].
  f_equal. induction m as [|[a b] m IH]; [reflexivity|]. cbn [filter fst find].
  destruct (String.eqb a k) eqn:Ea; cbn [negb].
  - apply String.eqb_eq in Ea. subst a. now rewrite E.
  - cbn [find fst]. now rewrite IH.
Qed.

Lemma table_set_keys m k v :
  NoDup (map fst m) -> NoDup (map fst (table_set m k v)).
Proof.
  intros Hm. unfold table_set. cbn [map fst]. constructor.
  - intros Hin. apply in_map_iff in Hin as ([a b] & Ha & Hin).
    apply filter_In in Hin as [_ Hf]. cbn in Ha, Hf. subst a.
    now rewrite String.eqb_refl in Hf.
  - induction m as [|[a b] m IH]; [constructor|].
    cbn [map fst] in Hm. inversion Hm as [|? ? Hnot Hrest]; subst.
    cbn [filter fst]. destruct (negb (String.eqb a k)); [|now apply IH].
    cbn [map fst]. constructor; [|now apply IH].
    intros Hin. apply Hnot.
    apply in_map_iff in Hin as (x & Hx & Hin).
    apply filter_In in Hin as [Hin _]. apply in_map_iff. now exists x.
Qed.

Lemma find_append {A} (p : A -> bool) (l1 l2 : list A) :
  find p (l1 ++ l2) =
  match find p l1 with
  | Some x => Some x
  | None => find p l2
  end.
Proof.
  induction l1 as [|x l1 IH]; cbn; [reflexivity|]. now destruct (p x).
Qed.

Lemma table_fill data : forall m,
  NoDup (map fst m) ->
  let m' := fold_left (fun m info => table_set m (Key info) (Value info))
              data m in
  NoDup (map fst m') /\
  forall k,
    table_get m' k =
    match find (fun info => String.eqb (Key info) k) (rev data) with
    | Some info => Some (Value info)
    | None => table_get m k
    end.
Proof.
  induction data as [|info data IH]; intros m Hm; cbn zeta.
  - split; [exact Hm | reflexivity].
  - cbn [fold_left rev].
    destruct (IH (table_set m (Key info) (Value info))
                (table_set_keys _ _ _ Hm)) as [Hnd Hget].
    split; [exact Hnd|]. intros k. rewrite Hget.
    rewrite find_append.
    destruct (find (fun i => String.eqb (Key i) k) (rev data));
      [reflexivity|].
    rewrite table_get_set. cbn [find].
    now destruct (String.eqb (Key info) k).
Qed.

(** X16.  The map [InfoMap] returns holds, for every key, the value of
    the last entry of [Info] with that key, and nothing for a key that
    no entry has; every key is bound once. *)
Theorem InfoMap_last_wins ParseFloat filename st m st' :
  InfoMap ParseFloat filename st = (Val m, st') ->
  exists data,
    Info ParseFloat filename st = (Val data, st') /\
    NoDup (map fst m) /\
    forall k,
      table_get m k =
      option_map Value
        (find (fun info => String.eqb (Key info) k) (rev data)).
Proof.
  unfold InfoMap. rewrite (bind_eq _ _ _ _ eq_refl).
  destruct (Info ParseFloat filename st) as [[data|e|] s]; try discriminate.
  unfold ret. intros [= <- <-]. exists data. split; [reflexivity|].
  destruct (table_fill data [] (NoDup_nil _)) as [Hnd Hget].
  split; [exact Hnd|]. intros k. rewrite Hget.
  now destruct (find (fun info => String.eqb (Key info) k) (rev data)).
Qed.

(** ** The theorems of this part at sample runs *)

Lemma ExecCmd_status_numeral_witness :
  fst (ExecCmd (NewCmd "flush")
         (connected ("-9223372036854775808 lowest" ++ LF)%string)) =
  Fail (NewError (-9223372036854775808) "lowest").
Proof.
  destruct (ExecCmd_status_numeral (NewCmd "flush")
              (connected ("-9223372036854775808 lowest" ++ LF)%string)
              (snd (sendCmd (NewCmd "flush")
                      (connected ("-9223372036854775808 lowest" ++ LF)%string)))
              true "9223372036854775808" " " "lowest" [])
    as (_ & H & _).
  - vm_compute; reflexivity.
  - vm_compute; reflexivity.
  - reflexivity.
  - discriminate.
  - reflexivity.
  - reflexivity.
  - apply H; [reflexivity|]. vm_compute. split; [reflexivity | discriminate].
Defined.

Lemma ExecCmd_success_complete_witness :
  (exists st1 header more cnt rest,
     sendCmd (NewCmd "stats") (connected statsReply) = (Val tt, st1) /\
     pending st1 = header :: more /\ Frames header cnt rest /\
     (Z.to_nat cnt <= List.length more)%nat /\
     ["QueueLength: 0"%string; "UpdatesReceived: 30"%string] =
       replyLines cnt rest more /\
     pending (snd (ExecCmd (NewCmd "stats") (connected statsReply))) =
       skipn (Z.to_nat cnt) more) /\
  ["QueueLength: 0"%string; "UpdatesReceived: 30"%string] <> [] /\
  Forall (fun l => allb notNewline l = true)
    ["QueueLength: 0"%string; "UpdatesReceived: 30"%string].
Proof.
  apply (ExecCmd_success_complete (NewCmd "stats") (connected statsReply)
           ["QueueLength: 0"%string; "UpdatesReceived: 30"%string]
           (snd (ExecCmd (NewCmd "stats") (connected statsReply)))).
  vm_compute; reflexivity.
Defined.

Lemma ExecCmd_calls_witness :
  exists st1 header more cnt rest cn' pre,
    sendCmd (NewCmd "stats") (connected statsReply) = (Val tt, st1) /\
    pending st1 = header :: more /\ Frames header cnt rest /\
    conn (client (snd (ExecCmd (NewCmd "stats") (connected statsReply)))) =
      Some cn' /\
    calls cn' =
      pre ++ CallWrite (Cmd_String (NewCmd "stats"))
          :: repeat CallSetDeadline (S (refreshes cnt)).
Proof.
  apply (ExecCmd_calls (NewCmd "stats") (connected statsReply)
           ["QueueLength: 0"%string; "UpdatesReceived: 30"%string]
           (snd (ExecCmd (NewCmd "stats") (connected statsReply)))).
  vm_compute; reflexivity.
Defined.

Lemma ExecCmd_in_sequence_witness :
  exists st' cn',
    (l1 <- ExecCmd (NewCmd "stats") ;;
     l2 <- ExecCmd (NewCmd "flushall") ;; ret (l1, l2))
      (connected twoReplies) =
      (Val (replyLines 2 "Statistics follow"
              ["QueueLength: 0"%string; "UpdatesReceived: 30"%string;
               "0 done"%string],
            replyLines 0 "done" []), st') /\
    conn (client st') = Some cn' /\ willing cn' /\
    written (calls cn') =
      written (calls (healthyConn twoReplies))
        ++ [Cmd_String (NewCmd "stats"); Cmd_String (NewCmd "flushall")] /\
    pending st' = skipn (Z.to_nat 0) [] /\
    dials (world st') = dials (world (connected twoReplies)).
Proof.
  apply (ExecCmd_in_sequence (NewCmd "stats") (NewCmd "flushall")
           (connected twoReplies) (healthyConn twoReplies)
           "2 Statistics follow" 2 "Statistics follow"
           ["QueueLength: 0"%string; "UpdatesReceived: 30"%string;
            "0 done"%string]
           "0 done" 0 "done" []).
  - reflexivity.
  - split; constructor.
  - vm_compute; reflexivity.
  - exists "2"%string. split; [vm_compute; reflexivity|].
    split; [vm_compute; reflexivity | lia].
  - vm_compute. split; discriminate.
  - simpl. lia.
  - reflexivity.
  - exists "0"%string. split; [vm_compute; reflexivity|].
    split; [vm_compute; reflexivity | lia].
  - vm_compute. split; discriminate.
  - simpl. lia.
Defined.

Lemma ExecCmd_deadline_failure_witness :
  exists st',
    ExecCmd (NewCmd "stats") (lateDeadline statsReply) =
      (Fail closedConn, st') /\
    conn (client st') =
      Some (afterSend (lateConn statsReply) (NewCmd "stats")) /\
    written (calls (afterSend (lateConn statsReply) (NewCmd "stats"))) =
      written (calls (lateConn statsReply)) ++ [Cmd_String (NewCmd "stats")] /\
    pending st' = pending (lateDeadline statsReply) /\
    dials (world st') = dials (world (lateDeadline statsReply)).
Proof.
  apply (proj2 (ExecCmd_deadline_failure (NewCmd "stats")
                  (lateDeadline statsReply) (lateConn statsReply) closedConn
                  eq_refl));
    reflexivity.
Defined.

Lemma ExecCmd_no_reply_witness :
  (fst (ExecCmd (NewCmd "stats") (stalled EmptyString)) =
     Fail (ErrorfW "scan error: %w" [] readTimeout) /\
   Unwrap (ErrorfW "scan error: %w" [] readTimeout) = Some readTimeout /\
   (forall errno,
      errors_Is (ErrorfW "scan error: %w" [] readTimeout) errno =
      errors_Is readTimeout errno)) /\
  fst (ExecCmd (NewCmd "stats") (connected longReply)) =
    Fail (ErrorfW "scan error: %w" [] ErrTooLong).
Proof.
  split.
  - apply (ExecCmd_no_reply (NewCmd "stats") (stalled EmptyString)
             (snd (sendCmd (NewCmd "stats") (stalled EmptyString)))).
    + vm_compute; reflexivity.
    + vm_compute; reflexivity.
    + vm_compute; reflexivity.
  - refine (eq_trans
              (proj1 (ExecCmd_no_reply (NewCmd "stats") (connected longReply)
                        (snd (sendCmd (NewCmd "stats") (connected longReply)))
                        (run_result (sendCmd (NewCmd "stats"))
                           (connected longReply) tt _) _ _)) _).
    + vm_compute; reflexivity.
    + vm_compute; reflexivity.
    + vm_compute; reflexivity.
    + vm_compute; reflexivity.
Defined.

Lemma ExecCmd_after_failed_redial_witness :
  conn (client (snd (ExecCmd (NewCmd "stats") cutOff))) = None /\
  dials (world (snd (ExecCmd (NewCmd "stats") cutOff))) = [] /\
  (forall c', ExecCmd c' (snd (ExecCmd (NewCmd "stats") cutOff)) =
              (Panic, snd (ExecCmd (NewCmd "stats") cutOff))) /\
  Close (snd (ExecCmd (NewCmd "stats") cutOff)) =
    (Panic, snd (ExecCmd (NewCmd "stats") cutOff)).
Proof.
  apply (ExecCmd_after_failed_redial (NewCmd "stats") cutOff
           (mkConn [] [Some brokenPipe] None EmptyString None [])
           brokenPipe (Errno ECONNREFUSED) []);
    reflexivity.
Defined.

Lemma NewClient_option_failure_witness :
  NewClient "localhost" ([Timeout 5] ++ None :: [Unix]) (listening statsReply) =
    (Fail ErrNilOption, listening statsReply) /\
  (forall f c' err,
     f (mkClient None "localhost" "tcp" 5 noScanner) = (c', Some err) ->
     NewClient "localhost" ([Timeout 5] ++ Some f :: [Unix])
       (listening statsReply) =
     (Fail err, listening statsReply)).
Proof.
  apply (NewClient_option_failure "localhost" [Timeout 5] [Unix]
           (listening statsReply)
           (mkClient None "localhost" "tcp" 5 noScanner)).
  reflexivity.
Defined.

Lemma NewClient_connects_witness :
  NewClient "localhost" (map optionOf [SetTimeout 5]) (listening statsReply) =
  (Val (mkClient (Some (healthyConn statsReply)) "localhost:42217" "tcp" 5
          (NewScanner (healthyConn statsReply))),
   mkWorld [] [] sampleRoom).
Proof.
  apply (NewClient_connects "localhost" [SetTimeout 5] (listening statsReply)
           (healthyConn statsReply) []).
  reflexivity.
Defined.

Lemma NewClient_dial_failure_witness :
  NewClient "/run/rrdcached.sock" [Unix] (mkWorld [] [] sampleRoom) =
    (Fail (ErrorfW "failed to establish initial connection: %w" []
             (ErrorfW "failed to dial: %w" [] (Errno ECONNREFUSED))),
     mkWorld [] [] sampleRoom) /\
  (forall errno,
     errors_Is (ErrorfW "failed to establish initial connection: %w" []
                  (ErrorfW "failed to dial: %w" [] (Errno ECONNREFUSED)))
       errno =
     errors_Is (Errno ECONNREFUSED) errno).
Proof.
  apply (NewClient_dial_failure "/run/rrdcached.sock" [Unix]
           (mkWorld [] [] sampleRoom)
           (mkClient None "/run/rrdcached.sock" "unix" DefaultTimeout noScanner)
           (Errno ECONNREFUSED) []);
    reflexivity.
Defined.

Lemma session_calls_witness :
  exists cl st1 st2 cn',
    NewClient "localhost" (map optionOf [SetUnix]) (listening statsReply) =
      (Val cl, mkWorld [] (stdout (listening statsReply))
                 (room (listening statsReply))) /\
    ExecCmd (NewCmd "stats")
      (mkSt cl (mkWorld [] (stdout (listening statsReply))
                  (room (listening statsReply)))) =
      (Val (replyLines 2 "Statistics follow"
              ["QueueLength: 0"%string; "UpdatesReceived: 30"%string]), st1) /\
    Close st1 = (Val tt, st2) /\
    conn (client st2) = Some cn' /\
    calls cn' =
      calls (healthyConn statsReply)
        ++ CallSetDeadline :: CallWrite (Cmd_String (NewCmd "stats"))
        :: repeat CallSetDeadline (S (refreshes 2))
        ++ [CallSetDeadline; CallWrite "quit"; CallClose] /\
    dials (world st2) = [].
Proof.
  apply (session_calls "localhost" [SetUnix] (NewCmd "stats")
           (listening statsReply) (healthyConn statsReply) []
           "2 Statistics follow"
           ["QueueLength: 0"%string; "UpdatesReceived: 30"%string]
           2 "Statistics follow").
  - reflexivity.
  - split; constructor.
  - reflexivity.
  - vm_compute; reflexivity.
  - exists "2"%string. split; [vm_compute; reflexivity|].
    split; [vm_compute; reflexivity | lia].
  - vm_compute; discriminate.
  - vm_compute; discriminate.
  - simpl. lia.
Defined.

Lemma Info_error_wrapped_witness :
  Info strconv_ParseFloat "/tmp/x.rrd" (connected errorReply) =
    (Fail (ErrorfW "failed to get info for '%s': %w" [AString "/tmp/x.rrd"]
             (NewError (-1) "No such file: /tmp/x.rrd")),
     snd (ExecCmd (WithArgs (NewCmd "info") ["/tmp/x.rrd"%string])
            (connected errorReply))) /\
  InfoMap strconv_ParseFloat "/tmp/x.rrd" (connected errorReply) =
    (Fail (ErrorfW "failed to get info for '%s': %w" [AString "/tmp/x.rrd"]
             (NewError (-1) "No such file: /tmp/x.rrd")),
     snd (ExecCmd (WithArgs (NewCmd "info") ["/tmp/x.rrd"%string])
            (connected errorReply))) /\
  errors_As_RrdError
    (ErrorfW "failed to get info for '%s': %w" [AString "/tmp/x.rrd"]
       (NewError (-1) "No such file: /tmp/x.rrd")) =
    errors_As_RrdError (NewError (-1) "No such file: /tmp/x.rrd") /\
  (forall errno,
     errors_Is
       (ErrorfW "failed to get info for '%s': %w" [AString "/tmp/x.rrd"]
          (NewError (-1) "No such file: /tmp/x.rrd")) errno =
     errors_Is (NewError (-1) "No such file: /tmp/x.rrd") errno).
Proof.
  apply (Info_error_wrapped strconv_ParseFloat "/tmp/x.rrd" (connected errorReply)
           (NewError (-1) "No such file: /tmp/x.rrd")
           (snd (ExecCmd (WithArgs (NewCmd "info") ["/tmp/x.rrd"%string])
                   (connected errorReply)))).
  vm_compute; reflexivity.
Defined.

Lemma Info_success_entries_witness :
  exists lines,
    ExecCmd (WithArgs (NewCmd "info") ["/tmp/x.rrd"%string])
      (connected repeatedInfoReply) =
      (Val lines, snd (Info strconv_ParseFloat "/tmp/x.rrd"
                         (connected repeatedInfoReply))) /\
    Forall2 (Decodes strconv_ParseFloat) lines
      [mkInfo "step" (VInt 300); mkInfo "step" (VInt 60)] /\
    [mkInfo "step" (VInt 300); mkInfo "step" (VInt 60)] <> [] /\
    Forall (fun info => isField (Key info) = true)
      [mkInfo "step" (VInt 300); mkInfo "step" (VInt 60)].
Proof.
  apply (Info_success_entries strconv_ParseFloat "/tmp/x.rrd"
           (connected repeatedInfoReply)
           [mkInfo "step" (VInt 300); mkInfo "step" (VInt 60)]
           (snd (Info strconv_ParseFloat "/tmp/x.rrd" (connected repeatedInfoReply)))).
  vm_compute; reflexivity.
Defined.

Lemma Info_int_range_witness :
  decodeLine strconv_ParseFloat "rrd_version 1 -9223372036854775808" =
    inl (mkInfo "rrd_version" (VInt (-9223372036854775808))) /\
  decodeLine strconv_ParseFloat "rrd_version 1 9223372036854775808" =
    inr (InvalidResponseError "info: invalid int for key rrd_version"
           "rrd_version 1 9223372036854775808").
Proof.
  split.
  - exact (Info_int_range strconv_ParseFloat "rrd_version" true
             "9223372036854775808" eq_refl eq_refl).
  - exact (Info_int_range strconv_ParseFloat "rrd_version" false
             "9223372036854775808" eq_refl eq_refl).
Defined.

Lemma InfoMap_last_wins_witness :
  exists data,
    Info strconv_ParseFloat "/tmp/x.rrd" (connected repeatedInfoReply) =
      (Val data, snd (InfoMap strconv_ParseFloat "/tmp/x.rrd"
                        (connected repeatedInfoReply))) /\
    NoDup (map fst [("step"%string, VInt 60)]) /\
    forall k,
      table_get [("step"%string, VInt 60)] k =
      option_map Value
        (find (fun info => String.eqb (Key info) k) (rev data)).
Proof.
  apply (InfoMap_last_wins strconv_ParseFloat "/tmp/x.rrd"
           (connected repeatedInfoReply) [("step"%string, VInt 60)]
           (snd (InfoMap strconv_ParseFloat "/tmp/x.rrd"
                   (connected repeatedInfoReply)))).
  vm_compute; reflexivity.
Defined.

Lemma ExecCmd_make_panics_witness :
  fst (ExecCmd (NewCmd "stats") (connected hugeReply)) = Panic /\
  pending (snd (ExecCmd (NewCmd "stats") (connected hugeReply))) = [].
Proof.
  apply (ExecCmd_make_panics (NewCmd "stats") (connected hugeReply)
           (snd (sendCmd (NewCmd "stats") (connected hugeReply)))
           "9223372036854775807 x" [] "9223372036854775807" "x"
           9223372036854775807).
  - vm_compute; reflexivity.
  - eexists. split; [vm_compute; reflexivity | constructor].
  - vm_compute; reflexivity.
  - vm_compute; reflexivity.
  - vm_compute; reflexivity.
  - reflexivity.
  - intros [H _]. vm_compute in H. apply H. reflexivity.
Defined.
